(** * ChittyOS universal email worker: routing-decision engine

    Shallow embedding of [email-worker.js] (the consolidated worker) and of the
    domain gate of the archived v2 worker, followed by the properties of the
    routing pipeline: rate limiting, spam screening, AI classification with
    its fallbacks, routing rules, workstream dispatch and the error handler.

    Conventions of the embedding.
    - JavaScript strings are [string]s of 8-bit characters; [toLowerCase] and
      [trim] act on the ASCII range.
    - [Date.now()] is one value [now] (milliseconds) per invocation.
    - Counters are JavaScript numbers; they stay far below 2^53, so they are
      [Z] without rounding.
    - The asynchronous calls of one invocation are sequenced in the order in
      which the source issues them. The calls to the platform are appended to
      a chronological trace, together with the console lines that mark a
      decision.
    - The calls that the source guards with a handler can fail: the key-value
      store, the inference binding, [message.text()], [message.raw()],
      [fetch] and [message.forward]. [message.setReject] and the accessors of
      [message.headers] do not throw.
    - A key-value entry written with [expirationTtl] seconds can be read
      until that many seconds have passed since the write. *)

From Stdlib Require Import ZArith Lia Bool.
From Stdlib Require Import Ascii String.
From stdpp Require Import base option list gmap strings pretty.

Local Open Scope Z_scope.

(** ** JavaScript string primitives *)

Module Js.

(** [c.toLowerCase()] on the ASCII range. *)
Definition lower_ascii (c : ascii) : ascii :=
  let n := N_of_ascii c in
  if ((65 <=? n) && (n <=? 90))%N then ascii_of_N (n + 32) else c.

Fixpoint toLowerCase (s : string) : string :=
  match s with
  | EmptyString => EmptyString
  | String c r => String (lower_ascii c) (toLowerCase r)
  end.

(** [s.includes(needle)]. *)
Fixpoint includes (needle s : string) : bool :=
  String.prefix needle s ||
  match s with
  | EmptyString => false
  | String _ r => includes needle r
  end.

(** [s.split(sep)] for a one-character separator. *)
Fixpoint split_go (sep : ascii) (cur s : string) : list string :=
  match s with
  | EmptyString => [String.rev cur]
  | String c r =>
      if Ascii.eqb c sep then String.rev cur :: split_go sep EmptyString r
      else split_go sep (String c cur) r
  end.
Definition split (sep : ascii) (s : string) : list string :=
  split_go sep EmptyString s.

Fixpoint trimStart (s : string) : string :=
  match s with
  | String c r => if Ascii.is_space c then trimStart r else s
  | EmptyString => EmptyString
  end.
(** [s.trim()]. *)
Definition trim (s : string) : string :=
  String.rev (trimStart (String.rev (trimStart s))).

(** [s.substring(0, n)]. *)
Definition substring0 (n : nat) (s : string) : string :=
  String.substring 0 n s.

Definition is_digit (c : ascii) : bool :=
  let n := N_of_ascii c in ((48 <=? n) && (n <=? 57))%N.

(** The regular expression [/\d{5,}@/]: some run of at least five digits is
    immediately followed by [@]; the last five digits of that run are then
    followed by [@], so it is enough to look for five digits and [@]. *)
Definition five_digits_at (s : string) : bool :=
  match s with
  | String a (String b (String c (String d (String e (String f _))))) =>
      is_digit a && is_digit b && is_digit c && is_digit d && is_digit e
      && Ascii.eqb f "@"
  | _ => false
  end.
Fixpoint match_digits_at (s : string) : bool :=
  five_digits_at s ||
  match s with
  | EmptyString => false
  | String _ r => match_digits_at r
  end.

(** [a || b] on possibly-missing strings: the empty string is falsy. *)
Definition truthy (o : option string) : option string :=
  match o with
  | Some EmptyString => None
  | _ => o
  end.
Definition or_else (o : option string) (d : string) : string :=
  default d (truthy o).

(** [xs.includes(x)] on an array of strings. *)
Definition elem (x : string) (xs : list string) : bool :=
  bool_decide (x ∈ xs).

End Js.

(** ** Platform interfaces *)

(** What [message.forward] is called with: an address, or a value that is not
    a string (a member found through [Object.prototype], see [specialRoutes],
    or [undefined]). *)
Inductive target :=
| Addr (a : string)
| NotAddress.

Global Instance target_eq_dec : EqDecision target.
Proof. solve_decision. Defined.

(** The three places of the source that call [message.forward]. *)
Inductive fwd_site :=
| Direct            (* email, "Forward the email" *)
| DispatchFallback  (* sendToEvidenceRouter, catch block *)
| ErrorFallback.    (* email, top-level catch block *)

Global Instance fwd_site_eq_dec : EqDecision fwd_site.
Proof. solve_decision. Defined.

Inductive fetch_result :=
| FetchOk            (* response.ok *)
| FetchStatus        (* a response with a non-success status *)
| FetchThrows.       (* transport error *)

(** Values of the [RATE_LIMITS] namespace: the JSON text of a rate record
    [{count, window}], or text that [JSON.parse] refuses. *)
Inductive kv_val :=
| RateJson (count window : Z)
| Garbage.

Record kv_entry := KvEntry { kv_value : kv_val; kv_expires : Z }.

Inductive log_line :=
| LogRateLimited | LogQuickSpam | LogAiAnalysis | LogAiSpam | LogAiFailed
| LogDiscardNoReply | LogDiscardRoute
| LogSentTo (workstream : string) | LogNotConfigured (workstream : string)
| LogAiRouting (rule : string)
| LogRouterOk (workstream : string) | LogRouterFailed (workstream : string)
| LogForwarding (t : target) (priority : bool)
| LogRateCheckFailed | LogRateUpdateFailed
| LogUnknownDomain
| LogError | LogFallbackFailed.

Inductive event :=
| EvLog (l : log_line)
| EvReject (reason : string)
| EvForward (site : fwd_site) (t : target) (ok : bool)
| EvText
| EvRaw
| EvAiRun (prompt : string) (max_tokens : nat)
| EvRouterPost (url workstream : string) (r : fetch_result)
| EvWebhook (url : string)
| EvRateGet (key : string)
| EvRatePut (key : string) (v : kv_val) (ttl : Z)
| EvInsightsPut (forwardedTo : target)
| EvAnalyticsPut (action : string) (forwardedTo : option target)
| EvIdRequest
| EvFinancialPut (amounts dates : list (string * string))
| EvSetHeader (name value : string).

(** The inbound message: its fields, and the outcomes of its methods.
    [msg_forward_ok n t] tells whether the call [forward(t)] succeeds when [n]
    calls of [forward] came before it in this invocation. *)
Record Message := {
  msg_from : string;
  msg_to : string;
  msg_subject : option string;          (* headers.get("subject") *)
  msg_text : option string;             (* text(); None: the call throws *)
  msg_raw : option string;              (* raw();  None: the call throws *)
  msg_forward_ok : nat → target → bool;
}.

(** The Workers AI binding: [ai.run(model, {prompt, max_tokens})] gives
    [response.response], or fails ([None]: the call throws, or the response
    carries no text). *)
Definition ai_binding := string → nat → option string.

Record Env := {
  AI : option ai_binding;
  RATE_LIMITS : bool;
  EMAIL_ANALYTICS : bool;
  FINANCIAL_EMAILS : bool;
  DEFAULT_FORWARD : option string;
  EVIDENCE_ROUTER_URL : option string;
  FINANCE_ROUTER_URL : option string;
  COMPLIANCE_ROUTER_URL : option string;
  WEBHOOK_URL : option string;
}.

(** The rest of the world during one invocation. *)
Record World := {
  now : Z;                               (* Date.now(), milliseconds *)
  transactionId : string;
  processingTime : string;
  fetch : string → string → fetch_result; (* url, X-Workstream header *)
  kv_get_ok : bool;                      (* RATE_LIMITS.get answers *)
  kv_put_ok : bool;                      (* RATE_LIMITS.put answers *)
}.

(** ** The effect monad: a trace, the rate-limit namespace, exceptions *)

Record State := {
  trace : list event;
  rate_store : gmap string kv_entry;
}.

Inductive result (A : Type) :=
| Ok (a : A)
| Throw.
Arguments Ok {A} a.
Arguments Throw {A}.

Definition M (A : Type) : Type := State → result A * State.

Definition ret {A} (a : A) : M A := fun st => (Ok a, st).

Definition bind {A B} (m : M A) (k : A → M B) : M B := fun st =>
  match m st with
  | (Ok a, st') => k a st'
  | (Throw, st') => (Throw, st')
  end.

Definition throw {A} : M A := fun st => (Throw, st).

(** [try { m } catch { h }]. *)
Definition try_catch {A} (m : M A) (h : M A) : M A := fun st =>
  match m st with
  | (Ok a, st') => (Ok a, st')
  | (Throw, st') => h st'
  end.

Definition emit (e : event) : M unit := fun st =>
  (Ok tt, {| trace := trace st ++ [e]; rate_store := rate_store st |}).

Definition get_state : M State := fun st => (Ok st, st).

Definition set_store (s : gmap string kv_entry) : M unit := fun st =>
  (Ok tt, {| trace := trace st; rate_store := s |}).

Declare Scope js_scope.
Delimit Scope js_scope with js.
Notation "'let*' x ':=' m 'in' k" := (bind m (fun x => k))
  (at level 10, x name, m at level 100, k at level 200) : js_scope.
Notation "m '>>' k" := (bind m (fun _ => k))
  (at level 100, k at level 200, right associativity) : js_scope.
(** Sequencing for a block that may [return] early: [None] means that the
    enclosing function has returned. *)
Notation "'let?' x ':=' m 'in' k" :=
  (bind m (fun o => match o with Some x => k | None => ret None end))
  (at level 10, x name, m at level 100, k at level 200) : js_scope.
Local Open Scope js_scope.

(** ** Rate limiter *)

(** The key-value store: an entry put with [expirationTtl] seconds is gone once
    that time has passed. *)
Definition kv_live (w : World) (e : kv_entry) : bool := now w <? kv_expires e.

Definition kv_get (w : World) (key : string) : M (option kv_val) :=
  emit (EvRateGet key) >>
  if kv_get_ok w then
    let* st := get_state in
    ret (match rate_store st !! key with
         | Some e => if kv_live w e then Some (kv_value e) else None
         | None => None
         end)
  else throw.

Definition kv_put (w : World) (key : string) (v : kv_val) (ttl : Z) : M unit :=
  emit (EvRatePut key v ttl) >>
  if kv_put_ok w then
    let* st := get_state in
    set_store (<[key := KvEntry v (now w + ttl * 1000)]> (rate_store st))
  else throw.

Definition rate_key (sender : string) : string := "rate:" +:+ sender.

(** [checkRateLimit(env, sender)]. *)
Definition checkRateLimit (env : Env) (w : World) (sender : string) : M bool :=
  if negb (RATE_LIMITS env) then ret false
  else
    try_catch
      (let* data := kv_get w (rate_key sender) in
       match data with
       | Some (RateJson count _) => ret (50 <? count)
       | Some Garbage => throw
       | None => ret false
       end)
      (emit (EvLog LogRateCheckFailed) >> ret false).

(** [updateRateLimit(env, sender)]. *)
Definition updateRateLimit (env : Env) (w : World) (sender : string) : M unit :=
  if negb (RATE_LIMITS env) then ret tt
  else
    try_catch
      (let* existing := kv_get w (rate_key sender) in
       let* data := match existing with
              | Some (RateJson count window) =>
                  if 3600000 <? now w - window
                  then ret (RateJson 1 (now w))
                  else ret (RateJson (count + 1) window)
              | Some Garbage => throw
              | None => ret (RateJson 1 (now w))
              end in
       kv_put w (rate_key sender) data 3600)
      (emit (EvLog LogRateUpdateFailed)).

(** ** Message actions *)

Definition is_forward (e : event) : bool :=
  match e with EvForward _ _ _ => true | _ => false end.

(** [message.forward(t)]: the call is traced with its outcome, and throws when
    the platform refuses it. *)
Definition forward (msg : Message) (site : fwd_site) (t : target) : M unit :=
  let* st := get_state in
  let ok := msg_forward_ok msg (length (filter is_forward (trace st))) t in
  emit (EvForward site t ok) >>
  if ok then ret tt else throw.

(** [message.setReject(reason)]. *)
Definition setReject (reason : string) : M unit := emit (EvReject reason).

(** The reject reasons of the source. *)
Definition RATE_LIMITED : string :=
  "Rate limit exceeded - please try again later".
Definition QUICK_SPAM : string := "Message classified as spam".
Definition AI_SPAM : string := "Message classified as spam by AI".

(** [message.headers.get("subject") || ""]. *)
Definition subject_or_empty (msg : Message) : string :=
  default EmptyString (msg_subject msg).

(** ** Spam screening and trusted senders *)

Definition spamKeywords : list string :=
  [ "viagra"; "casino"; "lottery"; "inheritance"; "prince"; "click here now";
    "act now"; "limited time"; "you have won"; "bitcoin mining"; "forex";
    "make money fast"; "guarantee" ].

(** [isSpamQuick(message)]. *)
Definition isSpamQuick (msg : Message) : bool :=
  let subject := Js.toLowerCase (subject_or_empty msg) in
  let from := Js.toLowerCase (msg_from msg) in
  existsb (fun keyword => Js.includes keyword subject) spamKeywords
  || (Js.match_digits_at from || Js.includes ".." from).

Definition prioritySenders : list string :=
  [ "@cloudflare.com"; "@google.com"; "@github.com"; "@stripe.com";
    "@openai.com"; "@anthropic.com" ].

(** [checkPrioritySender(from)]. *)
Definition checkPrioritySender (from : string) : bool :=
  let fromLower := Js.toLowerCase from in
  existsb (fun sender => Js.includes sender fromLower) prioritySenders.

(** ** AI functions *)

Definition nl : string := String "010"%char EmptyString.
Definition dquote : string := String "034"%char EmptyString.

(** [await ai.run("@cf/meta/llama-2-7b-chat-int8", {prompt, max_tokens})]
    followed by [response.response]. *)
Definition ai_run (ai : ai_binding) (prompt : string) (max_tokens : nat)
  : M string :=
  emit (EvAiRun prompt max_tokens) >>
  match ai prompt max_tokens with
  | Some text => ret text
  | None => throw
  end.

Definition categories : list string :=
  [ "invoice"; "receipt"; "contract"; "legal"; "support"; "complaint";
    "meeting"; "calendar"; "newsletter"; "marketing"; "personal"; "business";
    "api-notification"; "security-alert"; "compliance"; "audit"; "regulatory";
    "governance"; "spam"; "general" ].

Definition classify_prompt (subject body : string) : string :=
  "Classify this email into ONE category:" +:+ nl +:+
  "Categories: invoice, receipt, contract, legal, support, complaint, meeting, calendar,"
  +:+ nl +:+
  "newsletter, marketing, personal, business, api-notification, security-alert, compliance,"
  +:+ nl +:+
  "audit, regulatory, governance, spam, general" +:+ nl +:+ nl +:+
  "Subject: " +:+ subject +:+ nl +:+
  "Body (first 500 chars): " +:+ Js.substring0 500 body +:+ nl +:+ nl +:+
  "Reply with only the category name.".

(** [classifyEmail(ai, subject, body)]. *)
Definition classifyEmail (ai : option ai_binding) (subject body : string)
  : M string :=
  match ai with
  | None => ret "general"
  | Some run =>
      try_catch
        (let* response := ai_run run (classify_prompt subject body) 10 in
         let category := Js.trim (Js.toLowerCase response) in
         ret (if Js.elem category categories then category else "general"))
        (ret "general")
  end.

Definition sentiments : list string :=
  [ "positive"; "negative"; "neutral"; "urgent"; "angry" ].

Definition sentiment_prompt (body : string) : string :=
  "Analyze the sentiment of this email:" +:+ nl +:+
  dquote +:+ Js.substring0 500 body +:+ dquote +:+ nl +:+ nl +:+
  "Reply with only: positive, negative, neutral, urgent, or angry".

(** [analyzeSentiment(ai, body)]. *)
Definition analyzeSentiment (ai : option ai_binding) (body : string)
  : M string :=
  match ai with
  | None => ret "neutral"
  | Some run =>
      try_catch
        (let* response := ai_run run (sentiment_prompt body) 10 in
         let sentiment := Js.trim (Js.toLowerCase response) in
         ret (if Js.elem sentiment sentiments then sentiment else "neutral"))
        (ret "neutral")
  end.

Definition urgentKeywords : list string :=
  [ "urgent"; "asap"; "emergency"; "critical"; "immediately"; "deadline";
    "expire"; "final notice"; "action required" ].

Definition hasUrgentKeyword (subject body : string) : bool :=
  let combinedText := Js.toLowerCase (subject +:+ " " +:+ body) in
  existsb (fun keyword => Js.includes keyword combinedText) urgentKeywords.

Definition urgencies : list string := [ "critical"; "high"; "normal"; "low" ].

Definition urgency_prompt (subject body : string) : string :=
  "Rate the urgency of this email:" +:+ nl +:+
  "Subject: " +:+ subject +:+ nl +:+
  "Body: " +:+ Js.substring0 300 body +:+ nl +:+ nl +:+
  "Reply with only: critical, high, normal, or low".

(** [checkUrgency(ai, subject, body)]. *)
Definition checkUrgency (ai : option ai_binding) (subject body : string)
  : M string :=
  match ai with
  | None => ret "normal"
  | Some run =>
      if negb (hasUrgentKeyword subject body) then ret "normal"
      else
        try_catch
          (let* response := ai_run run (urgency_prompt subject body) 10 in
           let urgency := Js.trim (Js.toLowerCase response) in
           ret (if Js.elem urgency urgencies then urgency else "normal"))
          (ret (if hasUrgentKeyword subject body then "high" else "normal"))
  end.

Definition entity : Type := string * string.   (* {type, value} *)

Definition entities_prompt (body : string) : string :=
  "Extract important entities from this email:" +:+ nl +:+
  dquote +:+ Js.substring0 500 body +:+ dquote +:+ nl +:+ nl +:+
  "List any: dates, dollar amounts, company names, product names, or important numbers."
  +:+ nl +:+
  "Format: entity_type:value (one per line, max 5)".

(** The [map] callback of [extractEntities]: [value] is [undefined], and
    [value.trim()] throws, when the line has no second field. *)
Definition parse_entity (line : string) : option entity :=
  match Js.split ":" line with
  | type :: value :: _ => Some (Js.trim type, Js.trim value)
  | _ => None
  end.

(** [extractEntities(ai, body)]. *)
Definition extractEntities (ai : option ai_binding) (body : string)
  : M (list entity) :=
  match ai with
  | None => ret []
  | Some run =>
      try_catch
        (let* response := ai_run run (entities_prompt body) 100 in
         match mapM parse_entity
                 (filter (fun line => Is_true (Js.includes ":" line))
                         (Js.split "010" response)) with
         | Some entities => ret (take 5 entities)
         | None => throw
         end)
        (ret [])
  end.

Record Insights := {
  classification : string;
  sentiment : string;
  urgency : string;
  entities : list entity;
}.

(** ** Workstream dispatch *)

Definition MGMT_FORWARD : string := "mgmt@aribia.llc".
Definition NICK_FORWARD : string := "nick@jeanarlene.com".
Definition SHARON_FORWARD : string := "sharon@itcanbellc.com".

(** The router URL that [sendToEvidenceRouter] posts to. *)
Definition routerUrl (env : Env) (workstream : string) : option string :=
  if String.eqb workstream "finance"
  then match Js.truthy (FINANCE_ROUTER_URL env) with
       | Some u => Some u
       | None => Js.truthy (EVIDENCE_ROUTER_URL env)
       end
  else Js.truthy (EVIDENCE_ROUTER_URL env).

(** [sendToEvidenceRouter(env, message, aiInsights, transactionId, workstream)]. *)
Definition sendToEvidenceRouter (env : Env) (w : World) (msg : Message)
    (aiInsights : option Insights) (workstream : string) : M unit :=
  try_catch
    (emit EvRaw >>
     match msg_raw msg with Some _ => ret tt | None => throw end >>
     match routerUrl env workstream with
     | None => throw
     | Some url =>
         let response := fetch w url workstream in
         emit (EvRouterPost url workstream response) >>
         match response with
         | FetchOk => emit (EvLog (LogRouterOk workstream))
         | FetchStatus | FetchThrows => throw
         end
     end)
    (emit (EvLog (LogRouterFailed workstream)) >>
     forward msg DispatchFallback (Addr MGMT_FORWARD)).

(** ** The [email] handler *)

(** [KNOWN_DOMAINS]: the priority flag of each known domain. *)
Definition KNOWN_DOMAINS : gmap string bool :=
  list_to_map
    [ ("nevershitty.com", true); ("chitty.cc", true);
      ("chittychat.com", false); ("chittyos.com", true);
      ("mrniceweird.com", false); ("chittyrouter.com", false);
      ("chicagofurnishedcondos.com", false); ("itcanbellc.com", true);
      ("aribia.llc", true); ("aribia.co", false); ("apt-arlene.llc", false);
      ("jeanarlene.com", false); ("nickyb.me", true);
      ("chittycorp.com", true) ].

(** [(KNOWN_DOMAINS[recipientDomain] || { priority: false }).priority], as a
    truth value. A missing domain part reads the key "undefined"; the two
    lower-case members inherited from [Object.prototype] carry no [priority]
    field. All of these give a falsy flag. *)
Definition domain_priority (recipientDomain : option string) : bool :=
  match recipientDomain with
  | Some d => default false (KNOWN_DOMAINS !! d)
  | None => false
  end.

(** The own properties of [specialRoutes]; [None] is JavaScript's [null]. *)
Definition specialRoutes (DEFAULT : string) : gmap string (option string) :=
  list_to_map
    [ ("admin", Some MGMT_FORWARD); ("support", Some MGMT_FORWARD);
      ("legal", Some MGMT_FORWARD); ("security", Some MGMT_FORWARD);
      ("abuse", Some MGMT_FORWARD); ("postmaster", Some MGMT_FORWARD);
      ("mgmt", Some MGMT_FORWARD); ("management", Some MGMT_FORWARD);
      ("web", Some MGMT_FORWARD);
      ("nick", Some NICK_FORWARD); ("sharon", Some SHARON_FORWARD);
      ("api", Some DEFAULT); ("webhook", Some DEFAULT); ("id", Some DEFAULT);
      ("dev", Some DEFAULT); ("info", Some DEFAULT); ("hello", Some DEFAULT);
      ("noreply", None); ("no-reply", None) ].

Inductive route_value :=
| RouteTo (a : string)
| RouteNull
| RouteInherited.

(** [specialRoutes[recipientLocal]]; [None] is [undefined]. The object literal
    inherits from [Object.prototype], whose only members with a lower-case
    name are [constructor] and [__proto__]: both read as a non-string value
    that is neither [undefined] nor [null]. *)
Definition special_route (DEFAULT recipientLocal : string)
  : option route_value :=
  match specialRoutes DEFAULT !! recipientLocal with
  | Some (Some a) => Some (RouteTo a)
  | Some None => Some RouteNull
  | None =>
      if Js.elem recipientLocal ["constructor"; "__proto__"]
      then Some RouteInherited else None
  end.

Definition configured (url : option string) : bool :=
  bool_decide (is_Some (Js.truthy url)).

Definition litigation_locals : list string :=
  [ "evidence"; "litigation"; "intake" ].
Definition finance_locals : list string :=
  [ "finance"; "accounting"; "invoice"; "invoices"; "billing"; "bill"; "pay";
    "payment" ].
Definition compliance_locals : list string :=
  [ "compliance"; "governance"; "risk"; "audit"; "regulatory"; "ethics";
    "policy"; "grc" ].

(** Lines 65-103: the AI analyses and the AI spam verdict. [None]: the handler
    has returned; [Some aiInsights] otherwise. *)
Definition aiProcessing (env : Env) (msg : Message)
  : M (option (option Insights)) :=
  match AI env with
  | None => ret (Some None)
  | Some _ =>
      try_catch
        (emit EvText >>
         let* emailBody :=
           match msg_text msg with Some b => ret b | None => throw end in
         let subject := subject_or_empty msg in
         let* classification := classifyEmail (AI env) subject emailBody in
         let* sentiment := analyzeSentiment (AI env) emailBody in
         let* urgency := checkUrgency (AI env) subject emailBody in
         let* entities := extractEntities (AI env) emailBody in
         let aiInsights :=
           {| classification := classification; sentiment := sentiment;
              urgency := urgency; entities := entities |} in
         emit (EvLog LogAiAnalysis) >>
         if String.eqb classification "spam" then
           emit (EvLog LogAiSpam) >>
           setReject AI_SPAM >>
           ret None
         else ret (Some (Some aiInsights)))
        (emit (EvLog LogAiFailed) >> ret (Some None))
  end.

(** One workstream branch of the local-part rules. *)
Definition workstreamBranch (env : Env) (w : World) (msg : Message)
    (aiInsights : option Insights) (url : option string)
    (workstream : string) : M (option target) :=
  if configured url then
    sendToEvidenceRouter env w msg aiInsights workstream >>
    emit (EvLog (LogSentTo workstream)) >>
    ret None
  else
    emit (EvLog (LogNotConfigured workstream)) >>
    ret (Some (Addr MGMT_FORWARD)).

(** Lines 147-250: no-reply, workstream and special-route rules. The result
    is the value of [forwardTo], or [None] when the handler has returned. *)
Definition localPartRouting (env : Env) (w : World) (msg : Message)
    (aiInsights : option Insights) (recipientLocal DEFAULT : string)
  : M (option target) :=
  if Js.includes "noreply" recipientLocal
     || Js.includes "no-reply" recipientLocal then
    emit (EvLog LogDiscardNoReply) >> ret None
  else if Js.elem recipientLocal litigation_locals then
    workstreamBranch env w msg aiInsights (EVIDENCE_ROUTER_URL env) "litigation"
  else if Js.elem recipientLocal finance_locals then
    workstreamBranch env w msg aiInsights (FINANCE_ROUTER_URL env) "finance"
  else if Js.elem recipientLocal compliance_locals then
    workstreamBranch env w msg aiInsights (COMPLIANCE_ROUTER_URL env) "compliance"
  else
    match special_route DEFAULT recipientLocal with
    | Some RouteNull => emit (EvLog LogDiscardRoute) >> ret None
    | Some (RouteTo a) => ret (Some (Addr a))
    | Some RouteInherited => ret (Some NotAddress)
    | None => ret (Some (Addr DEFAULT))
    end.

(** [handleFinancialEmail(env, message, entities, transactionId)]. *)
Definition handleFinancialEmail (env : Env) (ents : list entity) : M unit :=
  if negb (FINANCIAL_EMAILS env) then ret tt
  else
    let amounts :=
      filter (fun e : entity =>
                Is_true (String.eqb (fst e) "amount" || Js.includes "$" (snd e)))
             ents in
    let dates :=
      filter (fun e : entity => Is_true (String.eqb (fst e) "date")) ents in
    emit (EvFinancialPut amounts dates).

Definition compliance_categories : list string :=
  [ "compliance"; "audit"; "regulatory"; "governance" ].

(** Lines 253-359: the AI overrides, entered when [aiInsights] is set. *)
Definition smartRouting (env : Env) (w : World) (msg : Message)
    (ai : Insights) (recipientLocal : string) (forwardTo : target)
  : M (option target) :=
  let? forwardTo :=
    if String.eqb (classification ai) "legal"
       || String.eqb (classification ai) "contract" then
      if configured (EVIDENCE_ROUTER_URL env) then
        sendToEvidenceRouter env w msg (Some ai) "litigation" >>
        emit (EvLog (LogSentTo "litigation")) >>
        ret None
      else
        emit (EvLog (LogAiRouting "legal/contract")) >>
        ret (Some (Addr MGMT_FORWARD))
    else if String.eqb (classification ai) "complaint"
            && String.eqb (sentiment ai) "angry" then
      emit (EvLog (LogAiRouting "angry complaint")) >>
      ret (Some (Addr MGMT_FORWARD))
    else if String.eqb (urgency ai) "critical"
            || String.eqb (urgency ai) "high" then
      if negb (Js.elem recipientLocal ["nick"; "sharon"]) then
        emit (EvLog (LogAiRouting "urgency")) >>
        ret (Some (Addr MGMT_FORWARD))
      else ret (Some forwardTo)
    else ret (Some forwardTo) in
  (if EMAIL_ANALYTICS env then emit (EvInsightsPut forwardTo) else ret tt) >>
  let? _ :=
    if String.eqb (classification ai) "invoice"
       || String.eqb (classification ai) "receipt" then
      if configured (FINANCE_ROUTER_URL env) then
        sendToEvidenceRouter env w msg (Some ai) "finance" >>
        emit (EvLog (LogSentTo "finance")) >>
        ret None
      else handleFinancialEmail env (entities ai) >> ret (Some tt)
    else ret (Some tt) in
  if Js.elem (classification ai) compliance_categories then
    if configured (COMPLIANCE_ROUTER_URL env) then
      sendToEvidenceRouter env w msg (Some ai) "compliance" >>
      emit (EvLog (LogSentTo "compliance")) >>
      ret None
    else ret (Some forwardTo)
  else ret (Some forwardTo).

Definition urgent (aiInsights : option Insights) : bool :=
  match aiInsights with
  | Some ai => String.eqb (urgency ai) "high"
               || String.eqb (urgency ai) "critical"
  | None => false
  end.

(** Lines 361-428: priority, headers, the forward, analytics, the webhook and
    the rate counter. *)
Definition deliver (env : Env) (w : World) (msg : Message)
    (aiInsights : option Insights) (recipientLocal : string)
    (recipientDomain : option string) (forwardTo : target) : M unit :=
  let isPriority :=
    domain_priority recipientDomain
    || Js.elem recipientLocal ["legal"; "security"; "abuse"]
    || checkPrioritySender (msg_from msg)
    || urgent aiInsights in
  emit (EvSetHeader "X-Cloudflare-Worker" "chittyos-email-universal-ai") >>
  emit (EvSetHeader "X-Transaction-ID" (transactionId w)) >>
  emit (EvSetHeader "X-Original-To" (msg_to msg)) >>
  emit (EvSetHeader "X-Routed-Domain" (default "undefined" recipientDomain)) >>
  emit (EvSetHeader "X-Processing-Time" (processingTime w)) >>
  match aiInsights with
  | Some ai =>
      emit (EvSetHeader "X-AI-Classification" (classification ai)) >>
      emit (EvSetHeader "X-AI-Sentiment" (sentiment ai)) >>
      emit (EvSetHeader "X-AI-Urgency" (urgency ai)) >>
      if (0 <? length (entities ai))%nat
      then emit (EvSetHeader "X-AI-Entities" (pretty (length (entities ai))))
      else ret tt
  | None => ret tt
  end >>
  (if isPriority then
     emit (EvSetHeader "X-Priority" "High") >>
     emit (EvSetHeader "Importance" "high")
   else ret tt) >>
  emit (EvLog (LogForwarding forwardTo isPriority)) >>
  forward msg Direct forwardTo >>
  (if EMAIL_ANALYTICS env
   then emit (EvAnalyticsPut "forwarded" (Some forwardTo)) else ret tt) >>
  match (if isPriority then Js.truthy (WEBHOOK_URL env) else None) with
  | Some url => emit (EvWebhook url)
  | None => ret tt
  end >>
  updateRateLimit env w (msg_from msg).

Definition recipient_parts (msg : Message) : list string :=
  Js.split "@" (Js.toLowerCase (msg_to msg)).
Definition recipientLocal (msg : Message) : string :=
  default EmptyString (recipient_parts msg !! 0%nat).
Definition recipientDomain (msg : Message) : option string :=
  recipient_parts msg !! 1%nat.

(** [env.DEFAULT_FORWARD || "no-reply@itcan.llc"]. *)
Definition default_forward (env : Env) : string :=
  Js.or_else (DEFAULT_FORWARD env) "no-reply@itcan.llc".

(** Lines 105-428: the routing rules and the delivery, for the [aiInsights]
    that the analyses produced. *)
Definition routeAndDeliver (env : Env) (w : World) (msg : Message)
    (aiInsights : option Insights) : M unit :=
  let* routed :=
    (let? forwardTo :=
       localPartRouting env w msg aiInsights (recipientLocal msg)
                        (default_forward env) in
     match aiInsights with
     | Some ai => smartRouting env w msg ai (recipientLocal msg) forwardTo
     | None => ret (Some forwardTo)
     end) in
  match routed with
  | Some forwardTo =>
      deliver env w msg aiInsights (recipientLocal msg) (recipientDomain msg)
              forwardTo
  | None => ret tt
  end.

Definition SAFE_DEFAULT : string := "no-reply@itcan.llc".

(** Lines 429-438: the top-level [catch] block. *)
Definition handler (msg : Message) : M unit :=
  emit (EvLog LogError) >>
  try_catch
    (forward msg ErrorFallback (Addr SAFE_DEFAULT))
    (emit (EvLog LogFallbackFailed)).

(** [email(message, env, ctx)]. *)
Definition email (env : Env) (w : World) (msg : Message) : M unit :=
  try_catch
    (let* limited := checkRateLimit env w (msg_from msg) in
     if limited then
       emit (EvLog LogRateLimited) >>
       setReject RATE_LIMITED
     else if isSpamQuick msg then
       emit (EvLog LogQuickSpam) >>
       setReject QUICK_SPAM
     else
       let* stage := aiProcessing env msg in
       match stage with
       | Some aiInsights => routeAndDeliver env w msg aiInsights
       | None => ret tt
       end)
    (handler msg).

(** ** The archived v2 worker *)

Module V2.

Record Env := {
  CHITTY_API_KEY : option string;
  RATE_LIMITS : bool;
  EMAIL_ANALYTICS : bool;
  WEBHOOK_URL : option string;
}.

Record DomainConfig := {
  defaultForward : string;
  trackAnalytics : bool;
  enableWebhooks : bool;
}.

Definition MAIN : string := "nick@mrniceweird.com".

Definition DOMAIN_CONFIG : gmap string DomainConfig :=
  list_to_map
    [ ("nevershitty.com", Build_DomainConfig MAIN true true);
      ("chitty.cc", Build_DomainConfig MAIN true false);
      ("chittychat.com", Build_DomainConfig MAIN true false);
      ("chittyos.com", Build_DomainConfig MAIN true false);
      ("mrniceweird.com", Build_DomainConfig MAIN false false);
      ("chittyrouter.com", Build_DomainConfig MAIN false false) ].

(** [DOMAIN_CONFIG[recipientDomain]]: [None] is [undefined];
    [Some None] is a member inherited from [Object.prototype], which is
    truthy and has none of the configuration fields. A missing domain part
    reads the key "undefined". *)
Definition domain_config (recipientDomain : option string)
  : option (option DomainConfig) :=
  let key := default "undefined" recipientDomain in
  match DOMAIN_CONFIG !! key with
  | Some c => Some (Some c)
  | None =>
      if Js.elem key ["constructor"; "__proto__"] then Some None else None
  end.

Definition specialRoutes : gmap string string :=
  list_to_map
    [ ("legal", MAIN); ("security", MAIN); ("abuse", MAIN);
      ("postmaster", MAIN); ("api", MAIN); ("webhook", MAIN); ("id", MAIN);
      ("support", MAIN); ("admin", MAIN) ].

(** [specialRoutes[recipientLocal]] when it is truthy. *)
Definition special_route (recipientLocal : string) : option target :=
  match specialRoutes !! recipientLocal with
  | Some a => Some (Addr a)
  | None =>
      if Js.elem recipientLocal ["constructor"; "__proto__"]
      then Some NotAddress else None
  end.

Definition spamKeywords : list string :=
  [ "viagra"; "casino"; "lottery"; "inheritance"; "nigerian prince";
    "click here now"; "act now"; "limited time offer"; "you have won";
    "bitcoin mining"; "forex trading"; "make money fast" ].

(** [isSpam(message)]. *)
Definition isSpam (msg : Message) : bool :=
  let subject := Js.toLowerCase (subject_or_empty msg) in
  let from := Js.toLowerCase (msg_from msg) in
  existsb (fun keyword => Js.includes keyword subject) spamKeywords
  || (Js.match_digits_at from
      || Js.includes ".." from
      || (Js.includes "noreply@" from
          && negb (Js.includes "@github.com" from)
          && negb (Js.includes "@google.com" from))).

(** [checkPriority(message, recipientLocal)]. *)
Definition checkPriority (msg : Message) (recipientLocal : string) : bool :=
  let from := Js.toLowerCase (msg_from msg) in
  let subject := Js.toLowerCase (subject_or_empty msg) in
  Js.elem recipientLocal ["legal"; "security"; "abuse"; "urgent"]
  || existsb (fun sender => Js.includes sender from)
             ["@cloudflare.com"; "@google.com"; "@github.com"; "@stripe.com"]
  || (Js.includes "urgent" subject || Js.includes "critical" subject
      || Js.includes "security" subject).

(** [checkRateLimit(env, sender)]: no handler of its own. *)
Definition checkRateLimit (env : Env) (w : World) (sender : string)
  : M bool :=
  if negb (RATE_LIMITS env) then ret false
  else
    let* data := kv_get w (rate_key sender) in
    match data with
    | Some (RateJson count _) => ret (50 <? count)
    | Some Garbage => throw
    | None => ret false
    end.

(** [updateRateLimit(env, sender)]: no handler of its own. *)
Definition updateRateLimit (env : Env) (w : World) (sender : string)
  : M unit :=
  if negb (RATE_LIMITS env) then ret tt
  else
    let* existing := kv_get w (rate_key sender) in
    let* data := match existing with
                 | Some (RateJson count window) =>
                     if 3600000 <? now w - window
                     then ret (RateJson 1 (now w))
                     else ret (RateJson (count + 1) window)
                 | Some Garbage => throw
                 | None => ret (RateJson 1 (now w))
                 end in
    kv_put w (rate_key sender) data 3600.

(** [logAnalytics(env, data)]. *)
Definition logAnalytics (env : Env) (action : string)
    (forwardedTo : option target) : M unit :=
  if negb (EMAIL_ANALYTICS env) then ret tt
  else emit (EvAnalyticsPut action forwardedTo).

(** [sendWebhookNotification(env, data)]. *)
Definition sendWebhookNotification (env : Env) : M unit :=
  match Js.truthy (WEBHOOK_URL env) with
  | Some url => emit (EvWebhook url)
  | None => ret tt
  end.

(** [generateTransactionId(env, message)]: the identifier only labels log
    lines and headers; a request to the ChittyID service is made when an API
    key is present. *)
Definition generateTransactionId (env : Env) (w : World) : M string :=
  match Js.truthy (CHITTY_API_KEY env) with
  | Some _ => emit EvIdRequest >> ret (transactionId w)
  | None => ret (transactionId w)
  end.

(** [email(message, env, ctx)] of the v2 worker. *)
Definition email (env : Env) (w : World) (msg : Message) : M unit :=
  let* transactionId := generateTransactionId env w in
  try_catch
    (let recipientLocal := recipientLocal msg in
     let recipientDomain := recipientDomain msg in
     match domain_config recipientDomain with
     | None =>
         emit (EvLog LogUnknownDomain) >>
         setReject "Domain not configured"
     | Some domainConfig =>
         let* limited := checkRateLimit env w (msg_from msg) in
         if limited then
           logAnalytics env "rate_limited" None >>
           setReject RATE_LIMITED
         else if isSpam msg then
           logAnalytics env "spam_blocked" None >>
           setReject QUICK_SPAM
         else
           let forwardTo :=
             match special_route recipientLocal with
             | Some t => t
             | None =>
                 match domainConfig with
                 | Some c => Addr (defaultForward c)
                 | None => NotAddress
                 end
             end in
           emit (EvSetHeader "X-Cloudflare-Worker" "chittyos-email-v2") >>
           emit (EvSetHeader "X-Transaction-ID" transactionId) >>
           emit (EvSetHeader "X-Original-To" (msg_to msg)) >>
           emit (EvSetHeader "X-Processing-Time" (processingTime w)) >>
           emit (EvSetHeader "X-Routed-Domain"
                             (default "undefined" recipientDomain)) >>
           let isPriority := checkPriority msg recipientLocal in
           (if isPriority then
              emit (EvSetHeader "X-Priority" "High") >>
              emit (EvSetHeader "Importance" "high")
            else ret tt) >>
           emit (EvLog (LogForwarding forwardTo isPriority)) >>
           forward msg Direct forwardTo >>
           (if from_option trackAnalytics false domainConfig
            then logAnalytics env "forwarded" (Some forwardTo)
            else ret tt) >>
           (if from_option enableWebhooks false domainConfig && isPriority
            then sendWebhookNotification env else ret tt) >>
           updateRateLimit env w (msg_from msg)
     end)
    (emit (EvLog LogError) >>
     try_catch
       (forward msg ErrorFallback (Addr MAIN))
       (emit (EvLog LogFallbackFailed))).

End V2.

(** ** Observations on a run *)

(** The state in which an invocation starts. *)
Definition initial (store : gmap string kv_entry) : State :=
  {| trace := []; rate_store := store |}.

Definition run (env : Env) (w : World) (msg : Message)
    (store : gmap string kv_entry) : result unit * State :=
  email env w msg (initial store).

Definition run_trace (env : Env) (w : World) (msg : Message)
    (store : gmap string kv_entry) : list event :=
  trace (snd (run env w msg store)).

Definition run_store (env : Env) (w : World) (msg : Message)
    (store : gmap string kv_entry) : gmap string kv_entry :=
  rate_store (snd (run env w msg store)).

(** The calls of [message.forward], in order. *)
Definition forwards (tr : list event) : list (fwd_site * target * bool) :=
  omap (fun e => match e with
                 | EvForward site t ok => Some (site, t, ok)
                 | _ => None
                 end) tr.

(** The reasons passed to [message.setReject], in order. *)
Definition rejects (tr : list event) : list string :=
  omap (fun e => match e with EvReject r => Some r | _ => None end) tr.

(** The prompts sent to the inference binding, in order. *)
Definition inferences (tr : list event) : list string :=
  omap (fun e => match e with EvAiRun p _ => Some p | _ => None end) tr.

(** The calls of [sendToEvidenceRouter], by workstream, with their outcome:
    every call ends by logging that the router took the message, or that the
    submission failed. *)
Definition dispatch_outcomes (tr : list event) : list (string * bool) :=
  omap (fun e => match e with
                 | EvLog (LogRouterOk ws) => Some (ws, true)
                 | EvLog (LogRouterFailed ws) => Some (ws, false)
                 | _ => None
                 end) tr.

(** The events that settle what happened to the message: the terminal actions
    and the outcome of a workstream submission. *)
Definition is_decisive (e : event) : bool :=
  match e with
  | EvForward _ _ _ | EvReject _ => true
  | EvLog (LogRouterOk _) | EvLog (LogRouterFailed _) => true
  | _ => false
  end.

Definition decisive (tr : list event) : list event := filter is_decisive tr.

(** How a routing block ends: it hands a destination on, it makes the handler
    return, or it throws. *)
Inductive flow := Continues | Returns | Throws.

Definition flow_of {A} (r : result (option A)) : flow :=
  match r with
  | Ok (Some _) => Continues
  | Ok None => Returns
  | Throw => Throws
  end.

(** The decisive events of a whole invocation. *)
Inductive outcome : list event → Prop :=
| out_discard : outcome []
| out_reject reason : outcome [EvReject reason]
| out_dispatch ws : outcome [EvLog (LogRouterOk ws)]
| out_fallback ws :
    outcome [EvLog (LogRouterFailed ws);
             EvForward DispatchFallback (Addr MGMT_FORWARD) true]
| out_fallback_refused ws ok :
    outcome [EvLog (LogRouterFailed ws);
             EvForward DispatchFallback (Addr MGMT_FORWARD) false;
             EvForward ErrorFallback (Addr SAFE_DEFAULT) ok]
| out_forward t : outcome [EvForward Direct t true]
| out_forward_refused t ok :
    outcome [EvForward Direct t false;
             EvForward ErrorFallback (Addr SAFE_DEFAULT) ok].

(** [settled st0 st']: between [st0] and [st'] the message met one of the
    outcomes, and the rate-limit namespace changed only if the direct forward
    was accepted. *)
Definition settled (st0 st' : State) : Prop :=
  ∃ d, decisive (trace st') = decisive (trace st0) ++ d
       ∧ outcome d
       ∧ (rate_store st' = rate_store st0 ∨ ∃ t, d = [EvForward Direct t true]).

(** What one call of [sendToEvidenceRouter] adds to the decisive events. *)
Inductive sent (ws : string) : result unit → list event → Prop :=
| sent_ok : sent ws (Ok tt) [EvLog (LogRouterOk ws)]
| sent_fallback :
    sent ws (Ok tt) [EvLog (LogRouterFailed ws);
                     EvForward DispatchFallback (Addr MGMT_FORWARD) true]
| sent_refused :
    sent ws Throw [EvLog (LogRouterFailed ws);
                   EvForward DispatchFallback (Addr MGMT_FORWARD) false].

(** The submission of [sendToEvidenceRouter] fails: the raw message cannot be
    read, no router URL is configured, the transport fails, or the router
    answers with a non-success status. *)
Definition submission_fails (env : Env) (w : World) (msg : Message)
    (workstream : string) : Prop :=
  msg_raw msg = None
  ∨ match routerUrl env workstream with
    | None => True
    | Some url => fetch w url workstream ≠ FetchOk
    end.

(** The decisive events of an invocation that handed the message to the
    dispatcher for [ws]: the router took it; or the submission failed and the
    message went to management; or that forward was refused and the error
    handler tried the safe default. *)
Definition dispatched_to (ws : string) (d : list event) : Prop :=
  d = [EvLog (LogRouterOk ws)]
  ∨ d = [EvLog (LogRouterFailed ws);
         EvForward DispatchFallback (Addr MGMT_FORWARD) true]
  ∨ ∃ ok, d = [EvLog (LogRouterFailed ws);
               EvForward DispatchFallback (Addr MGMT_FORWARD) false;
               EvForward ErrorFallback (Addr SAFE_DEFAULT) ok].

(** The decisive events of an invocation that reached the direct forward to
    [t]: the platform accepted it; or refused it, and the error handler tried
    the safe default. *)
Definition forwarded_to (t : target) (d : list event) : Prop :=
  d = [EvForward Direct t true]
  ∨ ∃ ok, d = [EvForward Direct t false;
               EvForward ErrorFallback (Addr SAFE_DEFAULT) ok].

(** Weakest-precondition reading of a computation: [Q] holds of the result and
    final state of [m] started in [st]. Computations are total functions, so
    [wp] also says that the run ends. *)
Definition wp {A} (m : M A) (Q : result A → State → Prop) (st : State) : Prop :=
  Q (fst (m st)) (snd (m st)).

(** [same st d st']: from [st] to [st'] the decisive events grew by [d] and
    the rate-limit namespace did not change. *)
Definition same (st : State) (d : list event) (st' : State) : Prop :=
  decisive (trace st') = decisive (trace st) ++ d
  ∧ rate_store st' = rate_store st.

(** A block that is invisible to the sender and always completes. *)
Definition unseen {A} (st : State) (r : result A) (st' : State) : Prop :=
  same st [] st' ∧ ∃ v, r = Ok v.

(** ** The routing rules as a decision *)

(** The conditions of the routing rules, as the handler tests them: rule 1 is
    the no-reply test, rule 2 the workstream local parts, rule 3 the
    [specialRoutes] lookup, rules 4a to 4e the tests on [aiInsights]. *)
Definition rule1 (l : string) : bool :=
  Js.includes "noreply" l || Js.includes "no-reply" l.
Definition rule2 (l : string) : bool :=
  Js.elem l litigation_locals || Js.elem l finance_locals
  || Js.elem l compliance_locals.
Definition rule3 (DEFAULT l : string) : bool :=
  bool_decide (is_Some (special_route DEFAULT l)).
Definition rule4a (ai : Insights) : bool :=
  String.eqb (classification ai) "legal"
  || String.eqb (classification ai) "contract".
Definition rule4b (ai : Insights) : bool :=
  String.eqb (classification ai) "complaint"
  && String.eqb (sentiment ai) "angry".
Definition rule4c (ai : Insights) (l : string) : bool :=
  (String.eqb (urgency ai) "critical" || String.eqb (urgency ai) "high")
  && negb (Js.elem l ["nick"; "sharon"]).
Definition rule4d (ai : Insights) : bool :=
  String.eqb (classification ai) "invoice"
  || String.eqb (classification ai) "receipt".
Definition rule4e (ai : Insights) : bool :=
  Js.elem (classification ai) compliance_categories.

(** Where the routing blocks send a message that passed the screening. *)
Inductive decision :=
| Discard
| DispatchTo (workstream : string)
| ForwardTo (t : target).

(** The decision of [localPartRouting]. *)
Definition local_decision (env : Env) (DEFAULT l : string) : decision :=
  if rule1 l then Discard
  else if Js.elem l litigation_locals then
    if configured (EVIDENCE_ROUTER_URL env) then DispatchTo "litigation"
    else ForwardTo (Addr MGMT_FORWARD)
  else if Js.elem l finance_locals then
    if configured (FINANCE_ROUTER_URL env) then DispatchTo "finance"
    else ForwardTo (Addr MGMT_FORWARD)
  else if Js.elem l compliance_locals then
    if configured (COMPLIANCE_ROUTER_URL env) then DispatchTo "compliance"
    else ForwardTo (Addr MGMT_FORWARD)
  else
    match special_route DEFAULT l with
    | Some RouteNull => Discard
    | Some (RouteTo a) => ForwardTo (Addr a)
    | Some RouteInherited => ForwardTo NotAddress
    | None => ForwardTo (Addr DEFAULT)
    end.

(** The decision of [smartRouting], entered with destination [t]. *)
Definition smart_decision (env : Env) (ai : Insights) (l : string)
    (t : target) : decision :=
  if rule4a ai && configured (EVIDENCE_ROUTER_URL env)
  then DispatchTo "litigation"
  else if rule4d ai && configured (FINANCE_ROUTER_URL env)
  then DispatchTo "finance"
  else if rule4e ai && configured (COMPLIANCE_ROUTER_URL env)
  then DispatchTo "compliance"
  else ForwardTo (if rule4a ai || rule4b ai || rule4c ai l
                  then Addr MGMT_FORWARD else t).

(** The decision of the two routing blocks together. *)
Definition resolve (env : Env) (aiInsights : option Insights) (l : string)
  : decision :=
  match local_decision env (default_forward env) l, aiInsights with
  | ForwardTo t, Some ai => smart_decision env ai l t
  | d, _ => d
  end.

(** How a routing block ends when it hands the message to the dispatcher. *)
Definition handed_over (ws : string) (f : flow) (d : list event) : Prop :=
  (f = Returns
   ∧ (d = [EvLog (LogRouterOk ws)]
      ∨ d = [EvLog (LogRouterFailed ws);
             EvForward DispatchFallback (Addr MGMT_FORWARD) true]))
  ∨ (f = Throws
     ∧ d = [EvLog (LogRouterFailed ws);
            EvForward DispatchFallback (Addr MGMT_FORWARD) false]).

(** A routing block follows a decision. *)
Definition follows (dec : decision) (r : result (option target))
    (d : list event) : Prop :=
  match dec with
  | Discard => r = Ok None ∧ d = []
  | DispatchTo ws => handed_over ws (flow_of r) d
  | ForwardTo t => r = Ok (Some t) ∧ d = []
  end.

(** The decisive events of an invocation that carried a decision out. *)
Definition achieved (dec : decision) (d : list event) : Prop :=
  match dec with
  | Discard => d = []
  | DispatchTo ws => dispatched_to ws d
  | ForwardTo t => forwarded_to t d
  end.

(** [achieves st0 dec st']: between [st0] and [st'] the decision was carried
    out, and the rate-limit namespace changed only if the direct forward was
    accepted. *)
Definition achieves (st0 : State) (dec : decision) (st' : State) : Prop :=
  ∃ d, decisive (trace st') = decisive (trace st0) ++ d
       ∧ achieved dec d
       ∧ (rate_store st' = rate_store st0 ∨ ∃ t, d = [EvForward Direct t true]).



(** ** Sample inputs *)

Module Sample.

Definition env : Env :=
  {| AI := None; RATE_LIMITS := true; EMAIL_ANALYTICS := false;
     FINANCIAL_EMAILS := false; DEFAULT_FORWARD := None;
     EVIDENCE_ROUTER_URL := None; FINANCE_ROUTER_URL := None;
     COMPLIANCE_ROUTER_URL := None; WEBHOOK_URL := None |}.

Definition world (t : Z) : World :=
  {| now := t; transactionId := "EMAIL-1"; processingTime := "1ms";
     fetch := fun _ _ => FetchOk; kv_get_ok := true; kv_put_ok := true |}.

(** A world whose routers answer with a non-success status. *)
Definition world_down : World :=
  {| now := 0; transactionId := "EMAIL-1"; processingTime := "1ms";
     fetch := fun _ _ => FetchStatus; kv_get_ok := true; kv_put_ok := true |}.

Definition message (to : string) (subject : string) : Message :=
  {| msg_from := "alice@example.org"; msg_to := to;
     msg_subject := Some subject; msg_text := Some "See attached.";
     msg_raw := Some "raw"; msg_forward_ok := fun _ _ => true |}.

(** An inference binding that answers every prompt with [answer]. *)
Definition ai_saying (answer : string → string) : ai_binding :=
  fun prompt _ => Some (answer prompt).

(** An inference binding whose every call fails. *)
Definition ai_down : ai_binding := fun _ _ => None.

(** Answers: category [invoice], sentiment [neutral], urgency [high]. *)
Definition urgent_invoice (prompt : string) : string :=
  if Js.includes "Classify this email" prompt then "invoice"
  else if Js.includes "Rate the urgency" prompt then "high"
  else "neutral".

(** Answers: category [support], sentiment [neutral], urgency
    [critical]. *)
Definition critical_support (prompt : string) : string :=
  if Js.includes "Classify this email" prompt then "support"
  else if Js.includes "Rate the urgency" prompt then "critical"
  else "neutral".

(** Answers: category [spam] for every classification prompt. *)
Definition says_spam (prompt : string) : string :=
  if Js.includes "Classify this email" prompt then "spam" else "neutral".

Definition env_ai (answer : string → string) : Env :=
  {| AI := Some (ai_saying answer); RATE_LIMITS := true;
     EMAIL_ANALYTICS := false; FINANCIAL_EMAILS := false;
     DEFAULT_FORWARD := None; EVIDENCE_ROUTER_URL := None;
     FINANCE_ROUTER_URL := Some "https://finance.example/intake";
     COMPLIANCE_ROUTER_URL := None; WEBHOOK_URL := None |}.

(** A message whose forwards are all refused by the platform. *)
Definition refused (to : string) : Message :=
  {| msg_from := "alice@example.org"; msg_to := to;
     msg_subject := Some "hello"; msg_text := Some "See attached.";
     msg_raw := Some "raw"; msg_forward_ok := fun _ _ => false |}.

Definition v2_env : V2.Env :=
  {| V2.CHITTY_API_KEY := None; V2.RATE_LIMITS := true;
     V2.EMAIL_ANALYTICS := false; V2.WEBHOOK_URL := None |}.

End Sample.

(** Successive invocations for one message template at the given times, each
    starting from the store that the one before left. *)
Fixpoint process (env : Env) (msg : Message) (times : list Z)
    (store : gmap string kv_entry)
  : list (list event) * gmap string kv_entry :=
  match times with
  | [] => ([], store)
  | t :: ts =>
      let st := snd (run env (Sample.world t) msg store) in
      let '(traces, store') := process env msg ts (rate_store st) in
      (trace st :: traces, store')
  end.

(** [n] instants, [step] milliseconds apart, from 0. *)
Definition every (step : Z) (n : nat) : list Z :=
  map (fun i => step * Z.of_nat i) (seq 0 n).

(** ** Further notions for the properties of the helpers *)

(** Successive calls of [updateRateLimit] for one sender, one per world, each
    on the store that the call before left. *)
Fixpoint updates (env : Env) (sender : string) (ws : list World)
    (st : State) : State :=
  match ws with
  | [] => st
  | w :: rest => updates env sender rest (snd (updateRateLimit env w sender st))
  end.

(** The sender has no record that can be read at the time of [w]. *)
Definition no_live_record (w : World) (sender : string) (st : State) : Prop :=
  match rate_store st !! rate_key sender with
  | Some e => kv_live w e = false
  | None => True
  end.

(** The store lets the sender pass: no live record, or one that counts at
    most 50. *)
Definition let_through (w : World) (sender : string)
    (store : gmap string kv_entry) : Prop :=
  match store !! rate_key sender with
  | Some e =>
      if kv_live w e
      then match kv_value e with
           | RateJson count _ => count <= 50
           | Garbage => False
           end
      else True
  | None => True
  end.

(** The value of [isPriority] in the handler. *)
Definition is_priority (aiInsights : option Insights) (msg : Message)
    (recipientLocal : string) (recipientDomain : option string) : bool :=
  domain_priority recipientDomain
  || Js.elem recipientLocal ["legal"; "security"; "abuse"]
  || checkPrioritySender (msg_from msg)
  || urgent aiInsights.

(** The events of a trace that [keep] selects, in order. *)
Definition view (keep : event → bool) (tr : list event) : list event :=
  filter keep tr.

(** A block that adds nothing to a view. *)
Definition quiet {A} (keep : event → bool) (st : State) (_ : result A)
    (st' : State) : Prop :=
  view keep (trace st') = view keep (trace st).

(** What the handler does for the message it delivers: the header writes,
    the direct forward, the writes to EMAIL_ANALYTICS (the insights record of
    [storeAIInsights] and the record of [logAnalytics]) and the webhook
    call. *)
Definition is_delivery (e : event) : bool :=
  match e with
  | EvSetHeader _ _ | EvForward Direct _ _ => true
  | EvInsightsPut _ | EvAnalyticsPut _ _ | EvWebhook _ => true
  | _ => false
  end.

(** The submissions to a workstream router, each with the log line that ends
    the call of the dispatcher. *)
Definition is_submission (e : event) : bool :=
  match e with
  | EvRouterPost _ _ _ => true
  | EvLog (LogRouterOk _) | EvLog (LogRouterFailed _) => true
  | _ => false
  end.

(** Lines 369-392: the headers of a delivered message, in the order of the
    writes. *)
Definition stamps (w : World) (msg : Message) (aiInsights : option Insights)
    (recipientLocal : string) (recipientDomain : option string)
  : list event :=
  [ EvSetHeader "X-Cloudflare-Worker" "chittyos-email-universal-ai";
    EvSetHeader "X-Transaction-ID" (transactionId w);
    EvSetHeader "X-Original-To" (msg_to msg);
    EvSetHeader "X-Routed-Domain" (default "undefined" recipientDomain);
    EvSetHeader "X-Processing-Time" (processingTime w) ]
  ++ match aiInsights with
     | Some ai =>
         [ EvSetHeader "X-AI-Classification" (classification ai);
           EvSetHeader "X-AI-Sentiment" (sentiment ai);
           EvSetHeader "X-AI-Urgency" (urgency ai) ]
         ++ (if (0 <? length (entities ai))%nat
             then [EvSetHeader "X-AI-Entities" (pretty (length (entities ai)))]
             else [])
     | None => []
     end
  ++ (if is_priority aiInsights msg recipientLocal recipientDomain
      then [EvSetHeader "X-Priority" "High"; EvSetHeader "Importance" "high"]
      else []).

(** Lines 400-425: the analytics record and the priority webhook that follow
    an accepted forward to [t]. *)
Definition records (env : Env) (msg : Message) (aiInsights : option Insights)
    (recipientLocal : string) (recipientDomain : option string) (t : target)
  : list event :=
  (if EMAIL_ANALYTICS env then [EvAnalyticsPut "forwarded" (Some t)] else [])
  ++ match (if is_priority aiInsights msg recipientLocal recipientDomain
            then Js.truthy (WEBHOOK_URL env) else None) with
     | Some url => [EvWebhook url]
     | None => []
     end.

(** Lines 253-310: the insights record that [storeAIInsights] writes when
    the AI overrides are entered with destination [t]: none when EMAIL_ANALYTICS
    is not bound or when the legal rule has dispatched the message; otherwise
    one record, with the destination that the else-if chain has set. *)
Definition insights_of (env : Env) (ai : Insights) (l : string) (t : target)
  : list event :=
  if (String.eqb (classification ai) "legal"
      || String.eqb (classification ai) "contract")
     && configured (EVIDENCE_ROUTER_URL env)
  then []
  else if EMAIL_ANALYTICS env
  then [EvInsightsPut
          (if String.eqb (classification ai) "legal"
              || String.eqb (classification ai) "contract"
              || String.eqb (classification ai) "complaint"
                 && String.eqb (sentiment ai) "angry"
              || (String.eqb (urgency ai) "critical"
                  || String.eqb (urgency ai) "high")
                 && negb (Js.elem l ["nick"; "sharon"])
           then Addr MGMT_FORWARD else t)]
  else [].

(** The insights record of an invocation: the AI overrides are entered when
    there are insights and the local-part rules chose a forward. *)
Definition insights_record (env : Env) (aiInsights : option Insights)
    (l : string) : list event :=
  match local_decision env (default_forward env) l, aiInsights with
  | ForwardTo t, Some ai => insights_of env ai l t
  | _, _ => []
  end.

(** What the delivery view shows of a delivery: the headers, the direct
    forward with the outcome that the platform gives to the first call of
    [forward], and the records when the platform accepted it; nothing when the
    decision is not a forward. *)
Definition delivered (env : Env) (w : World) (msg : Message)
    (aiInsights : option Insights) (dec : decision) : list event :=
  match dec with
  | ForwardTo t =>
      stamps w msg aiInsights (recipientLocal msg) (recipientDomain msg)
      ++ [EvForward Direct t (msg_forward_ok msg 0 t)]
      ++ (if msg_forward_ok msg 0 t
          then records env msg aiInsights (recipientLocal msg)
                       (recipientDomain msg) t
          else [])
  | _ => []
  end.

(** Lines 798-840: one call of the dispatcher, as the submissions show it:
    nothing is posted when the raw message cannot be read or no router URL is
    set. *)
Definition submission (env : Env) (w : World) (msg : Message)
    (workstream : string) : list event :=
  match msg_raw msg, routerUrl env workstream with
  | Some _, Some url =>
      [ EvRouterPost url workstream (fetch w url workstream);
        EvLog (match fetch w url workstream with
               | FetchOk => LogRouterOk workstream
               | _ => LogRouterFailed workstream
               end) ]
  | _, _ => [EvLog (LogRouterFailed workstream)]
  end.

(** The submissions of an invocation that carried a decision out. *)
Definition submitted (env : Env) (w : World) (msg : Message)
    (dec : decision) : list event :=
  match dec with
  | DispatchTo ws => submission env w msg ws
  | _ => []
  end.

(** A string of decimal digits. *)
Fixpoint all_digits (s : string) : bool :=
  match s with
  | EmptyString => true
  | String c r => Js.is_digit c && all_digits r
  end.

(** A string without the character [c]. *)
Fixpoint free_of (c : ascii) (s : string) : bool :=
  match s with
  | EmptyString => true
  | String a r => negb (Ascii.eqb a c) && free_of c r
  end.

(** The calls of [message.forward] are traced with the outcome that the
    platform gives them: the call that [n] calls went before has the outcome
    [msg_forward_ok msg n]. *)
Fixpoint faithful (msg : Message) (n : nat) (tr : list event) : Prop :=
  match tr with
  | [] => True
  | EvForward _ t ok :: rest =>
      ok = msg_forward_ok msg n t ∧ faithful msg (S n) rest
  | _ :: rest => faithful msg n rest
  end.

(** A computation keeps [P]: from a state with [P] it ends, normally or not,
    in a state with [P]. *)
Definition keeps {A} (P : State → Prop) (m : M A) : Prop :=
  ∀ st, P st → wp m (fun _ st' => P st') st.

(** The state of an invocation whose forwards are all traced faithfully. *)
Definition honest (msg : Message) (st : State) : Prop :=
  faithful msg 0 (trace st).


Definition fallback_of (msg : Message) (ws : string) : list event :=
  EvLog (LogRouterFailed ws)
  :: EvForward DispatchFallback (Addr MGMT_FORWARD)
               (msg_forward_ok msg 0 (Addr MGMT_FORWARD))
  :: (if msg_forward_ok msg 0 (Addr MGMT_FORWARD) then []
      else [EvForward ErrorFallback (Addr SAFE_DEFAULT)
                      (msg_forward_ok msg 1 (Addr SAFE_DEFAULT))]).

(** ** Further sample inputs *)

Module Cases.

(** No binding at all. *)
Definition env_unbound : Env :=
  {| AI := None; RATE_LIMITS := false; EMAIL_ANALYTICS := false;
     FINANCIAL_EMAILS := false; DEFAULT_FORWARD := None;
     EVIDENCE_ROUTER_URL := None; FINANCE_ROUTER_URL := None;
     COMPLIANCE_ROUTER_URL := None; WEBHOOK_URL := None |}.

(** An inference binding that is bound and always fails. *)
Definition env_ai_down : Env :=
  {| AI := Some Sample.ai_down; RATE_LIMITS := true;
     EMAIL_ANALYTICS := false; FINANCIAL_EMAILS := false;
     DEFAULT_FORWARD := None; EVIDENCE_ROUTER_URL := None;
     FINANCE_ROUTER_URL := None; COMPLIANCE_ROUTER_URL := None;
     WEBHOOK_URL := None |}.

(** Answers: category [complaint], sentiment [angry]. *)
Definition angry_complaint (prompt : string) : string :=
  if Js.includes "Classify this email" prompt then "complaint"
  else if Js.includes "Analyze the sentiment" prompt then "angry"
  else "normal".

(** The evidence and compliance routers are configured, no inference. *)
Definition env_routers : Env :=
  {| AI := None; RATE_LIMITS := true; EMAIL_ANALYTICS := false;
     FINANCIAL_EMAILS := false; DEFAULT_FORWARD := None;
     EVIDENCE_ROUTER_URL := Some "https://evidence.example";
     FINANCE_ROUTER_URL := None;
     COMPLIANCE_ROUTER_URL := Some "https://compliance.example";
     WEBHOOK_URL := None |}.

(** Only the compliance router is configured. *)
Definition env_compliance_only : Env :=
  {| AI := None; RATE_LIMITS := true; EMAIL_ANALYTICS := false;
     FINANCIAL_EMAILS := false; DEFAULT_FORWARD := None;
     EVIDENCE_ROUTER_URL := None; FINANCE_ROUTER_URL := None;
     COMPLIANCE_ROUTER_URL := Some "https://compliance.example";
     WEBHOOK_URL := None |}.

(** Inference answers [invoice] with urgency [high]; analytics and the
    finance router are on. *)
Definition env_ledger : Env :=
  {| AI := Some (Sample.ai_saying Sample.urgent_invoice); RATE_LIMITS := true;
     EMAIL_ANALYTICS := true; FINANCIAL_EMAILS := false;
     DEFAULT_FORWARD := None; EVIDENCE_ROUTER_URL := None;
     FINANCE_ROUTER_URL := Some "https://finance.example/intake";
     COMPLIANCE_ROUTER_URL := None; WEBHOOK_URL := None |}.


(** Analytics and the priority webhook are on, no inference. *)
Definition env_bookkeeping : Env :=
  {| AI := None; RATE_LIMITS := true; EMAIL_ANALYTICS := true;
     FINANCIAL_EMAILS := false; DEFAULT_FORWARD := None;
     EVIDENCE_ROUTER_URL := None; FINANCE_ROUTER_URL := None;
     COMPLIANCE_ROUTER_URL := None;
     WEBHOOK_URL := Some "https://hooks.example/mail" |}.

(** A world whose rate-limit store does not answer. *)
Definition world_store_down : World :=
  {| now := 0; transactionId := "EMAIL-1"; processingTime := "1ms";
     fetch := fun _ _ => FetchOk; kv_get_ok := false; kv_put_ok := false |}.

(** A world whose rate-limit store answers reads and refuses writes. *)
Definition world_read_only : World :=
  {| now := 0; transactionId := "EMAIL-1"; processingTime := "1ms";
     fetch := fun _ _ => FetchOk; kv_get_ok := true; kv_put_ok := false |}.

End Cases.

(** ** Rules of the effect monad *)

Section MonadRules.
Context {A B : Type}.

Lemma wp_ret (a : A) Q st : Q (Ok a) st → wp (ret a) Q st.
Proof. done. Qed.

Lemma wp_throw (Q : result A → State → Prop) st : Q Throw st → wp throw Q st.
Proof. done. Qed.

Lemma wp_bind (m : M A) (k : A → M B) Q st :
  wp m (fun r st1 => match r with
                     | Ok a => wp (k a) Q st1
                     | Throw => Q Throw st1
                     end) st →
  wp (bind m k) Q st.
Proof. unfold wp, bind. by destruct (m st) as [[a|] st1]. Qed.

Lemma wp_try_catch (m h : M A) Q st :
  wp m (fun r st1 => match r with
                     | Ok a => Q (Ok a) st1
                     | Throw => wp h Q st1
                     end) st →
  wp (try_catch m h) Q st.
Proof. unfold wp, try_catch. by destruct (m st) as [[a|] st1]. Qed.

Lemma wp_mono (m : M A) (Q Q' : result A → State → Prop) st :
  wp m Q st → (∀ r st', Q r st' → Q' r st') → wp m Q' st.
Proof. unfold wp. auto. Qed.

(** Reading a run equation as a [wp] fact. *)
Lemma wp_run (m : M A) Q st r st' : wp m Q st → m st = (r, st') → Q r st'.
Proof. unfold wp. intros H E. by rewrite E in H. Qed.
End MonadRules.

Lemma wp_emit e (Q : result unit → State → Prop) st :
  Q (Ok tt) {| trace := trace st ++ [e]; rate_store := rate_store st |} →
  wp (emit e) Q st.
Proof. done. Qed.

Lemma wp_get_state (Q : result State → State → Prop) st :
  Q (Ok st) st → wp get_state Q st.
Proof. done. Qed.

(** One step of symbolic execution. *)
Ltac wp_step :=
  lazymatch goal with
  | |- wp (bind _ _) _ _ => apply wp_bind
  | |- wp (try_catch _ _) _ _ => apply wp_try_catch
  | |- wp (ret _) _ _ => apply wp_ret; lazy beta iota
  | |- wp throw _ _ => apply wp_throw; lazy beta iota
  | |- wp (emit _) _ _ => apply wp_emit; cbn [trace rate_store]
  | |- wp (setReject _) _ _ => apply wp_emit; cbn [trace rate_store]
  | |- wp get_state _ _ => apply wp_get_state; lazy beta iota
  | |- wp (if ?c then _ else _) _ _ => destruct c eqn:?
  | |- wp (match ?c with _ => _ end) _ _ => destruct c eqn:?
  end.

(** ** Decisive events *)

Lemma decisive_app tr1 tr2 : decisive (tr1 ++ tr2) = decisive tr1 ++ decisive tr2.
Proof. apply filter_app. Qed.

Lemma decisive_snoc tr e :
  decisive (tr ++ [e])
  = if is_decisive e then decisive tr ++ [e] else decisive tr.
Proof.
  rewrite decisive_app. unfold decisive at 2.
  destruct (is_decisive e) eqn:E.
  - rewrite filter_cons_True by (by apply Is_true_true). by rewrite filter_nil.
  - rewrite filter_cons_False by (by apply Is_true_false).
    by rewrite filter_nil, app_nil_r.
Qed.

Lemma decisive_quiet tr e :
  is_decisive e = false → decisive (tr ++ [e]) = decisive tr.
Proof. intros H. by rewrite decisive_snoc, H. Qed.

Lemma decisive_loud tr e :
  is_decisive e = true → decisive (tr ++ [e]) = decisive tr ++ [e].
Proof. intros H. by rewrite decisive_snoc, H. Qed.

(** Push [decisive] through the events appended to a trace. *)
Ltac project :=
  cbn [trace rate_store];
  repeat first [ rewrite decisive_quiet by reflexivity
               | rewrite decisive_loud by reflexivity ].

Ltac grow :=
  project; rewrite <- ?app_assoc; cbn [app];
  first [ reflexivity | symmetry; apply app_nil_r ].

Ltac solve_same := split; [ grow | reflexivity ].

(** Close a goal on the decisive events of the current state from what is
    known ([H]) of the state that the last block started in. *)
Ltac finish H :=
  project; rewrite (proj1 H); project; rewrite <- ?app_assoc; cbn [app];
  first [ reflexivity | symmetry; apply app_nil_r ].

Ltac keep H := cbn [rate_store]; rewrite (proj2 H); reflexivity.

Lemma same_refl st : same st [] st.
Proof. split; [by rewrite app_nil_r | done]. Qed.

Lemma same_trans st1 d1 st2 d2 st3 :
  same st1 d1 st2 → same st2 d2 st3 → same st1 (d1 ++ d2) st3.
Proof.
  intros [H1 S1] [H2 S2]. split; [|congruence].
  by rewrite H2, H1, app_assoc.
Qed.

(** Unfold a small block completely and split on every test. *)
Ltac run_block :=
  unfold wp, bind, try_catch, emit, ret, throw, get_state, set_store;
  cbn [fst snd trace rate_store];
  repeat (case_match; cbn [fst snd trace rate_store] in *; simplify_eq).

(** ** Blocks that the sender cannot observe *)

Lemma checkRateLimit_unseen env w s st :
  wp (checkRateLimit env w s) (unseen st) st.
Proof.
  unfold checkRateLimit, kv_get. run_block.
  all: split; [solve_same | eauto].
Qed.

Lemma updateRateLimit_quiet env w s st :
  wp (updateRateLimit env w s)
     (fun r st' => decisive (trace st') = decisive (trace st) ∧ r = Ok tt) st.
Proof.
  unfold updateRateLimit, kv_get, kv_put. run_block.
  all: split; [project; done | done].
Qed.

Lemma classifyEmail_unseen ai s b st : wp (classifyEmail ai s b) (unseen st) st.
Proof.
  unfold classifyEmail, ai_run. run_block. all: split; [solve_same | eauto].
Qed.

Lemma analyzeSentiment_unseen ai b st : wp (analyzeSentiment ai b) (unseen st) st.
Proof.
  unfold analyzeSentiment, ai_run. run_block. all: split; [solve_same | eauto].
Qed.

Lemma checkUrgency_unseen ai s b st : wp (checkUrgency ai s b) (unseen st) st.
Proof.
  unfold checkUrgency, ai_run. run_block. all: split; [solve_same | eauto].
Qed.

Lemma extractEntities_unseen ai b st : wp (extractEntities ai b) (unseen st) st.
Proof.
  unfold extractEntities, ai_run. run_block. all: split; [solve_same | eauto].
Qed.

Lemma unseen_then {A} st0 st (r : result A) st' :
  same st0 [] st → unseen st r st' → same st0 [] st' ∧ ∃ v, r = Ok v.
Proof.
  intros H [H' Hr]. split; [|exact Hr]. apply (same_trans _ _ _ _ _ H H').
Qed.

(** The AI stage either hands the insights on without a decisive event, or
    rejects the message as spam and makes the handler return. *)
Lemma aiProcessing_same env msg st :
  wp (aiProcessing env msg)
     (fun r st' => ∃ d, same st d st' ∧
        ((∃ ai, r = Ok (Some ai) ∧ d = []) ∨
         (r = Ok None ∧ d = [EvReject AI_SPAM]))) st.
Proof.
  unfold aiProcessing. destruct (AI env) as [run|] eqn:Hai.
  2: { apply wp_ret. exists []. split; [apply same_refl | eauto]. }
  apply wp_try_catch, wp_bind, wp_emit, wp_bind.
  destruct (msg_text msg) as [body|].
  2: { apply wp_throw, wp_bind, wp_emit, wp_ret.
       exists []. split; [solve_same | eauto]. }
  apply wp_ret, wp_bind.
  assert (H0 : same st [] {| trace := trace st ++ [EvText];
                             rate_store := rate_store st |}) by solve_same.
  eapply wp_mono; [apply classifyEmail_unseen|].
  intros ? st1 [H1 [c ->]]%(unseen_then _ _ _ _ H0). apply wp_bind.
  eapply wp_mono; [apply analyzeSentiment_unseen|].
  intros ? st2 [H2 [s ->]]%(unseen_then _ _ _ _ H1). apply wp_bind.
  eapply wp_mono; [apply checkUrgency_unseen|].
  intros ? st3 [H3 [u ->]]%(unseen_then _ _ _ _ H2). apply wp_bind.
  eapply wp_mono; [apply extractEntities_unseen|].
  intros ? st4 [H [e ->]]%(unseen_then _ _ _ _ H3).
  apply wp_bind, wp_emit.
  destruct (String.eqb c "spam"); repeat wp_step.
  - exists [EvReject AI_SPAM]. split; [|right; split; reflexivity].
    split; [|apply H]. project. by rewrite (proj1 H), app_nil_r.
  - exists []. split; [|eauto].
    split; [|apply H]. project. by rewrite (proj1 H).
Qed.

(** ** Workstream dispatch and the routing blocks *)

Lemma forward_once msg site t st :
  wp (forward msg site t)
     (fun r st' => ∃ ok, same st [EvForward site t ok] st'
                         ∧ r = if ok then Ok tt else Throw) st.
Proof.
  unfold forward. run_block. all: eexists; split; [solve_same | reflexivity].
Qed.

Lemma sendToEvidenceRouter_sent env w msg ai ws st :
  wp (sendToEvidenceRouter env w msg ai ws)
     (fun r st' => ∃ d, same st d st' ∧ sent ws r d) st.
Proof.
  unfold sendToEvidenceRouter, forward. run_block.
  all: eexists; split; [solve_same | constructor].
Qed.

Lemma deliver_forward env w msg ai l dom t st :
  wp (deliver env w msg ai l dom t)
     (fun r st' =>
        (r = Ok tt ∧
         decisive (trace st') = decisive (trace st) ++ [EvForward Direct t true])
        ∨ (r = Throw ∧ same st [EvForward Direct t false] st')) st.
Proof.
  unfold deliver, forward. repeat wp_step.
  all: try (right; split; [reflexivity | solve_same]).
  all: eapply wp_mono; [apply updateRateLimit_quiet|].
  all: intros r st' [Hd ->]; left; split; [reflexivity|].
  all: rewrite Hd; grow.
Qed.

(** ** The routing blocks follow the decision functions *)

(** After a call of the dispatcher: the handler returns, or the refusal of the
    fallback forward propagates. *)
Ltac after_dispatch :=
  eapply wp_mono; [apply sendToEvidenceRouter_sent|];
  let H := fresh "H" in let Hsent := fresh "Hsent" in
  intros ? ? (? & H & Hsent); destruct Hsent; repeat wp_step;
  eexists; (split; [split; [finish H | keep H]|]).

Ltac decide_rules :=
  unfold local_decision, smart_decision, rule1, rule2, rule4a, rule4b, rule4c,
         rule4d, rule4e;
  repeat match goal with E : _ = _ |- _ => rewrite E end;
  cbn [andb orb negb follows].

Lemma localPartRouting_decides env w msg ai l D st :
  wp (localPartRouting env w msg ai l D)
     (fun r st' => ∃ d, same st d st' ∧ follows (local_decision env D l) r d)
     st.
Proof.
  unfold localPartRouting, workstreamBranch. repeat wp_step.
  all: try after_dispatch.
  all: try (eexists; split; [solve_same|]).
  all: decide_rules; unfold handed_over; cbn [flow_of]; auto.
Qed.

Lemma smartRouting_decides env w msg ai l t st :
  wp (smartRouting env w msg ai l t)
     (fun r st' => ∃ d, same st d st' ∧ follows (smart_decision env ai l t) r d)
     st.
Proof.
  unfold smartRouting, handleFinancialEmail. repeat wp_step.
  all: try after_dispatch.
  all: try (eexists; split; [solve_same|]).
  all: decide_rules; unfold handed_over; cbn [flow_of]; auto.
Qed.

(** ** The outcome of an invocation *)

Lemma handler_exact msg st0 d st :
  same st0 d st →
  wp (handler msg)
     (fun _ st' =>
        ∃ ok, same st0 (d ++ [EvForward ErrorFallback (Addr SAFE_DEFAULT) ok])
                   st') st.
Proof.
  intros H. unfold handler, forward. repeat wp_step.
  all: eexists; split; [finish H | keep H].
Qed.

(** What follows a routing block that followed [dec]: the delivery, and the
    handler when something was thrown; together they carry [dec] out. *)
Lemma decision_tail env w msg ai st0 dec (r : result (option target)) st d :
  same st0 d st → follows dec r d →
  match r with
  | Ok a =>
      wp (match a with
          | Some forwardTo =>
              deliver env w msg ai (recipientLocal msg) (recipientDomain msg)
                      forwardTo
          | None => ret tt
          end)
         (fun r' st' =>
            match r' with
            | Ok _ => achieves st0 dec st'
            | Throw => wp (handler msg) (fun _ st'' => achieves st0 dec st'') st'
            end) st
  | Throw => wp (handler msg) (fun _ st'' => achieves st0 dec st'') st
  end.
Proof.
  intros H F. destruct dec as [|ws|t]; cbn in F.
  - destruct F as [-> ->]. apply wp_ret. exists [].
    split; [apply H | split; [done | left; apply H]].
  - destruct F as [[Hf [-> | ->]] | [Hf ->]];
      destruct r as [[?|]|]; try discriminate Hf.
    + apply wp_ret. eexists.
      split; [apply H | split; [by left | left; apply H]].
    + apply wp_ret. eexists.
      split; [apply H | split; [by right; left | left; apply H]].
    + eapply wp_mono; [apply (handler_exact _ _ _ _ H)|].
      intros _ st' [ok H']. eexists.
      split; [apply H' | split; [right; right; eauto | left; apply H']].
  - destruct F as [-> ->].
    eapply wp_mono; [apply deliver_forward|].
    intros r st' [[-> Hd] | [-> H']].
    + exists [EvForward Direct t true].
      split; [by rewrite Hd, (proj1 H), app_nil_r|].
      split; [by left | right; eauto].
    + pose proof (same_trans _ _ _ _ _ H H') as H2. cbn [app] in H2.
      eapply wp_mono; [apply (handler_exact _ _ _ _ H2)|].
      intros _ st'' [ok H'']. eexists.
      split; [apply H'' | split; [right; eauto | left; apply H'']].
Qed.

Lemma routeAndDeliver_resolves env w msg ai st0 st :
  same st0 [] st →
  wp (try_catch (routeAndDeliver env w msg ai) (handler msg))
     (fun _ st' => achieves st0 (resolve env ai (recipientLocal msg)) st') st.
Proof.
  intros H0. unfold routeAndDeliver, resolve.
  apply wp_try_catch, wp_bind, wp_bind.
  eapply wp_mono; [apply localPartRouting_decides|].
  intros r3 st3 (d3 & H3 & F3).
  pose proof (same_trans _ _ _ _ _ H0 H3) as H13. cbn [app] in H13.
  destruct (local_decision env (default_forward env) (recipientLocal msg))
    as [|ws|t] eqn:E.
  - pose proof (decision_tail env w msg ai st0 Discard r3 st3 d3 H13 F3) as T.
    destruct F3 as [-> ->]. apply wp_ret. exact T.
  - pose proof (decision_tail env w msg ai st0 (DispatchTo ws) r3 st3 d3
                  H13 F3) as T.
    destruct F3 as [[Hf _] | [Hf _]]; destruct r3 as [[?|]|];
      try discriminate Hf.
    + apply wp_ret. exact T.
    + exact T.
  - destruct F3 as [-> ->]. destruct ai as [ai|].
    + eapply wp_mono; [apply smartRouting_decides|].
      intros r4 st4 (d4 & H4 & F4).
      pose proof (same_trans _ _ _ _ _ H13 H4) as H14. cbn [app] in H14.
      apply (decision_tail env w msg (Some ai) st0 _ r4 st4 d4 H14 F4).
    + apply wp_ret.
      apply (decision_tail env w msg None st0 (ForwardTo t) (Ok (Some t)) st3 []
               H13). by split.
Qed.

Lemma achieved_outcome dec d : achieved dec d → outcome d.
Proof.
  destruct dec as [|ws|t]; cbn.
  - intros ->. constructor.
  - intros [-> | [-> | [ok ->]]]; constructor.
  - intros [-> | [ok ->]]; constructor.
Qed.

(** Every invocation ends, and ends in one of the outcomes. *)
Lemma email_settles env w msg st :
  wp (email env w msg) (fun _ st' => settled st st') st.
Proof.
  unfold email.
  apply wp_try_catch, wp_bind.
  eapply wp_mono; [apply checkRateLimit_unseen|].
  intros ? st1 [H1 [limited ->]].
  destruct limited.
  { repeat wp_step. eexists. split; [finish H1|].
    split; [constructor | left; apply H1]. }
  destruct (isSpamQuick msg).
  { repeat wp_step. eexists. split; [finish H1|].
    split; [constructor | left; apply H1]. }
  apply wp_bind.
  eapply wp_mono; [apply aiProcessing_same|].
  intros ? st2 (d2 & H2 & [(ai & -> & ->) | [-> ->]]).
  2: { apply wp_ret. pose proof (same_trans _ _ _ _ _ H1 H2) as [Ht Hs].
       eexists. split; [exact Ht | split; [constructor | by left]]. }
  pose proof (same_trans _ _ _ _ _ H1 H2) as H12. cbn [app] in H12.
  destruct (routeAndDeliver_resolves env w msg ai st st2 H12)
    as (d & Hd & Ha & Hs).
  assert (Hr : settled st (snd (try_catch (routeAndDeliver env w msg ai)
                                          (handler msg) st2))).
  { exists d. eauto using achieved_outcome. }
  unfold wp, try_catch in Hr |- *.
  destruct (routeAndDeliver env w msg ai st2) as [[[]|] st3]; exact Hr.
Qed.

(** A message that passed the screening (the sender is not rate-limited, the
    quick spam check found nothing, the AI stage did not reject it) meets the
    decision of the routing rules. *)
Lemma email_resolves env w msg store st1 st2 ai :
  checkRateLimit env w (msg_from msg) (initial store) = (Ok false, st1) →
  isSpamQuick msg = false →
  aiProcessing env msg st1 = (Ok (Some ai), st2) →
  achieved (resolve env ai (recipientLocal msg))
           (decisive (run_trace env w msg store)).
Proof.
  intros H1 H2 H3.
  pose proof (wp_run _ _ _ _ _ (checkRateLimit_unseen env w (msg_from msg)
                                  (initial store)) H1) as [S1 _].
  pose proof (wp_run _ _ _ _ _ (aiProcessing_same env msg st1) H3)
    as (d & S2 & [(ai' & _ & ->) | [[=] _]]).
  pose proof (same_trans _ _ _ _ _ S1 S2) as S. cbn [app] in S.
  destruct (routeAndDeliver_resolves env w msg ai (initial store) st2 S)
    as (d & Hd & Ha & _).
  unfold run_trace, run, email.
  unfold try_catch at 1. unfold bind at 1. rewrite H1, H2.
  unfold bind at 1. rewrite H3.
  unfold try_catch in Hd.
  destruct (routeAndDeliver env w msg ai st2) as [[[]|] st3]; cbn [snd] in *;
    by rewrite Hd.
Qed.

(** ** Projections of the decisive events *)

Lemma decisive_cons e tr :
  decisive (e :: tr) = if is_decisive e then e :: decisive tr else decisive tr.
Proof.
  unfold decisive. destruct (is_decisive e) eqn:E.
  - by rewrite filter_cons_True by (by apply Is_true_true).
  - by rewrite filter_cons_False by (by apply Is_true_false).
Qed.

Lemma forwards_decisive tr : forwards (decisive tr) = forwards tr.
Proof.
  induction tr as [|e tr IH]; [done|]. rewrite decisive_cons.
  unfold forwards, rejects, dispatch_outcomes in *.
  destruct e as [[]| | | | | | | | | | | | | |]; cbn; by rewrite ?IH.
Qed.

Lemma rejects_decisive tr : rejects (decisive tr) = rejects tr.
Proof.
  induction tr as [|e tr IH]; [done|]. rewrite decisive_cons.
  unfold forwards, rejects, dispatch_outcomes in *.
  destruct e as [[]| | | | | | | | | | | | | |]; cbn; by rewrite ?IH.
Qed.

Lemma dispatch_outcomes_decisive tr :
  dispatch_outcomes (decisive tr) = dispatch_outcomes tr.
Proof.
  induction tr as [|e tr IH]; [done|]. rewrite decisive_cons.
  unfold forwards, rejects, dispatch_outcomes in *.
  destruct e as [[]| | | | | | | | | | | | | |]; cbn; by rewrite ?IH.
Qed.

(** Every invocation ends in one of the outcomes; the rate-limit namespace is
    written only when the direct forward was accepted. *)
Lemma run_outcome env w msg store :
  outcome (decisive (run_trace env w msg store))
  ∧ (run_store env w msg store = store
     ∨ ∃ t, decisive (run_trace env w msg store) = [EvForward Direct t true]).
Proof.
  destruct (email_settles env w msg (initial store)) as (d & Hd & Ho & Hs).
  unfold run_trace, run_store, run. cbn in Hd. rewrite Hd.
  split; [exact Ho|]. destruct Hs as [Hs | [t ->]]; [by left | right; eauto].
Qed.

(** C9 fails as stated: when the platform refuses the direct forward, the
    error handler calls [forward] a second time. *)
Lemma forward_invoked_twice :
  ¬ (length (forwards (run_trace Sample.env (Sample.world 0)
                                 (Sample.refused "team@chitty.cc") ∅)) ≤ 1)%nat.
Proof. vm_compute. lia. Qed.

(** C9, amended. In every invocation [setReject] is called at most once and
    never together with [forward]; [forward] is called at most twice, the
    second call being the error handler's forward to the safe default after
    the platform refused the first, so at most one forward is accepted; after
    a successful workstream submission [forward] is not called, and an
    invocation that entered the dispatcher entered it once and never reaches
    the direct forward. *)
Theorem one_outcome_per_message env w msg store :
  let tr := run_trace env w msg store in
  (length (rejects tr) ≤ 1)%nat
  ∧ (rejects tr ≠ [] → forwards tr = [])
  ∧ match forwards tr with
    | [] => True
    | [(site, _, ok)] => site ≠ ErrorFallback ∧ ok = true
    | [(site, _, ok); second] =>
        site ≠ ErrorFallback ∧ ok = false
        ∧ ∃ ok', second = (ErrorFallback, Addr SAFE_DEFAULT, ok')
    | _ => False
    end
  ∧ match dispatch_outcomes tr with
    | [] => True
    | [(_, true)] => forwards tr = []
    | [(_, false)] => ∀ t ok, (Direct, t, ok) ∉ forwards tr
    | _ => False
    end.
Proof.
  intros tr. destruct (run_outcome env w msg store) as [Ho _]. fold tr in Ho.
  rewrite <- (rejects_decisive tr), <- (forwards_decisive tr),
          <- (dispatch_outcomes_decisive tr).
  inversion Ho as [| r E | ws E | ws E | ws ok E | t E | t ok E]; cbn.
  all: repeat split; eauto; try lia; try done.
  all: intros t' ok' Hin; repeat (apply elem_of_cons in Hin as [Hin|Hin]; [done|]).
  all: by apply elem_of_nil in Hin.
Qed.

(** C10. A message that is rejected, discarded (no forward at all) or handed
    to the workstream dispatcher leaves the rate-limit namespace, and so the
    sender's record, as it was: the counter is written only after an accepted
    direct forward. *)
Theorem rate_counter_untouched env w msg store :
  let tr := run_trace env w msg store in
  rejects tr ≠ [] ∨ forwards tr = [] ∨ dispatch_outcomes tr ≠ [] →
  run_store env w msg store = store.
Proof.
  intros tr H. destruct (run_outcome env w msg store) as [_ [Hs | [t Hd]]].
  { exact Hs. }
  fold tr in Hd. exfalso. revert H.
  rewrite <- (rejects_decisive tr), <- (forwards_decisive tr),
          <- (dispatch_outcomes_decisive tr), Hd. cbn.
  intros [H | [H | H]]; done.
Qed.

Lemma rate_counter_untouched_witness :
  run_store Sample.env (Sample.world 0)
            (Sample.message "noreply@chitty.cc" "hello") ∅ = ∅.
Proof.
  apply (rate_counter_untouched Sample.env (Sample.world 0)
           (Sample.message "noreply@chitty.cc" "hello") ∅).
  right; left. vm_compute. reflexivity.
Defined.

(** ** Workstream dispatch failure *)

Lemma forwards_app tr1 tr2 : forwards (tr1 ++ tr2) = forwards tr1 ++ forwards tr2.
Proof. apply omap_app. Qed.

Lemma dispatch_outcomes_app tr1 tr2 :
  dispatch_outcomes (tr1 ++ tr2)
  = dispatch_outcomes tr1 ++ dispatch_outcomes tr2.
Proof. apply omap_app. Qed.


(** In a whole invocation, a failed submission is always followed by the call
    of [forward] with the management address. *)
Lemma failed_dispatch_reaches_management env w msg store ws :
  (ws, false) ∈ dispatch_outcomes (run_trace env w msg store) →
  ∃ ok, (DispatchFallback, Addr MGMT_FORWARD, ok)
        ∈ forwards (run_trace env w msg store).
Proof.
  destruct (run_outcome env w msg store) as [Ho _]. revert Ho.
  rewrite <- dispatch_outcomes_decisive, <- forwards_decisive.
  inversion 1; cbn; intros Hin.
  all: repeat (apply elem_of_cons in Hin as [Hin|Hin]; [simplify_eq|]).
  all: try by apply elem_of_nil in Hin.
  all: eexists; apply elem_of_cons; left; reflexivity.
Qed.

(** When the submission succeeds the dispatcher calls no terminal action. *)
Lemma dispatch_success_is_silent env w msg ai ws st url :
  msg_raw msg ≠ None → routerUrl env ws = Some url → fetch w url ws = FetchOk →
  sendToEvidenceRouter env w msg ai ws st
  = (Ok tt, {| trace := trace st ++ [EvRaw; EvRouterPost url ws FetchOk;
                                     EvLog (LogRouterOk ws)];
               rate_store := rate_store st |}).
Proof.
  intros Hraw Hurl Hok. unfold sendToEvidenceRouter.
  unfold bind, try_catch, emit, ret, throw. cbn [fst snd trace rate_store].
  destruct (msg_raw msg); [|done]. rewrite Hurl. cbn. rewrite Hok. cbn.
  by rewrite <- !app_assoc.
Qed.

(** ** Quick spam screening *)

Lemma checkRateLimit_trace env w sender st :
  rate_store (snd (checkRateLimit env w sender st)) = rate_store st
  ∧ ∃ suffix,
      trace (snd (checkRateLimit env w sender st)) = trace st ++ suffix
      ∧ (suffix = []
         ∨ suffix = [EvRateGet (rate_key sender)]
         ∨ suffix = [EvRateGet (rate_key sender); EvLog LogRateCheckFailed]).
Proof.
  unfold checkRateLimit, kv_get. run_block.
  all: split; [reflexivity|]; cbn [trace]; rewrite <- ?app_assoc; cbn [app].
  all: eexists; (split; [first [reflexivity | symmetry; apply app_nil_r]|]).
  all: auto.
Qed.

Lemma keyword_is_spam msg keyword :
  keyword ∈ spamKeywords →
  Js.includes keyword (Js.toLowerCase (subject_or_empty msg)) = true →
  isSpamQuick msg = true.
Proof.
  intros Hin Hk. unfold isSpamQuick. apply orb_true_iff. left.
  apply existsb_exists. exists keyword. split; [|exact Hk].
  by apply list_elem_of_In.
Qed.

(** The keyword lists are lower-case, so a keyword that occurs in the subject
    as written also occurs in the lower-cased subject that the code tests. *)
Lemma prefix_toLowerCase k s :
  String.prefix k s = true →
  String.prefix (Js.toLowerCase k) (Js.toLowerCase s) = true.
Proof.
  revert k. induction s as [|b s IH]; intros [|a k]; cbn; try done.
  destruct (ascii_dec a b) as [->|]; [|done]. intros H.
  destruct (ascii_dec (Js.lower_ascii b) (Js.lower_ascii b)); [auto | done].
Qed.

Lemma includes_toLowerCase k s :
  Js.includes k s = true →
  Js.includes (Js.toLowerCase k) (Js.toLowerCase s) = true.
Proof.
  induction s as [|b s IH]; cbn [Js.includes Js.toLowerCase].
  - rewrite !orb_false_r. apply (prefix_toLowerCase k "").
  - intros [H | H]%orb_true_iff; apply orb_true_iff.
    + left. apply (prefix_toLowerCase k (String b s) H).
    + right. auto.
Qed.

Lemma spamKeywords_lower_case keyword :
  keyword ∈ spamKeywords → Js.toLowerCase keyword = keyword.
Proof.
  unfold spamKeywords. intros H.
  repeat (apply elem_of_cons in H as [-> | H]; [reflexivity|]).
  by apply elem_of_nil in H.
Qed.

Lemma subject_keyword_ignores_case msg keyword :
  keyword ∈ spamKeywords →
  Js.includes keyword (subject_or_empty msg) = true →
  Js.includes keyword (Js.toLowerCase (subject_or_empty msg)) = true.
Proof.
  intros Hin H. rewrite <- (spamKeywords_lower_case keyword Hin) at 1.
  by apply includes_toLowerCase.
Qed.

(** C8. A message whose subject contains a spam keyword (the match ignores
    case) and whose sender is not rate-limited is rejected with the spam
    reason; no prompt is sent to the inference binding, the body is not read,
    and nothing is forwarded or dispatched. *)
Theorem spam_subject_rejected_before_inference env w msg store keyword :
  keyword ∈ spamKeywords →
  Js.includes keyword (Js.toLowerCase (subject_or_empty msg)) = true →
  fst (checkRateLimit env w (msg_from msg) (initial store)) = Ok false →
  let tr := run_trace env w msg store in
  rejects tr = [QUICK_SPAM]
  ∧ inferences tr = []
  ∧ (EvText ∉ tr)
  ∧ forwards tr = []
  ∧ dispatch_outcomes tr = [].
Proof.
  intros Hin Hk Hrate tr. subst tr.
  pose proof (keyword_is_spam msg keyword Hin Hk) as Hspam.
  destruct (checkRateLimit_trace env w (msg_from msg) (initial store))
    as [_ (suffix & Htr & Hsuf)].
  unfold run_trace, run, email, try_catch, bind.
  destruct (checkRateLimit env w (msg_from msg) (initial store))
    as [r st1] eqn:E.
  cbn [fst snd] in *. subst r. rewrite Hspam.
  unfold emit, setReject, emit. cbn [fst snd trace]. rewrite Htr. cbn [initial trace app].
  destruct Hsuf as [-> | [-> | ->]]; cbn.
  all: repeat split; try reflexivity.
  all: intros Hin'; repeat (apply elem_of_cons in Hin' as [Hin'|Hin']; [done|]).
  all: by apply elem_of_nil in Hin'.
Qed.

Lemma spam_subject_witness :
  rejects (run_trace Sample.env (Sample.world 0)
             (Sample.message "team@chitty.cc" "You Have WON the lottery") ∅)
  = [QUICK_SPAM]
  ∧ inferences (run_trace Sample.env (Sample.world 0)
                  (Sample.message "team@chitty.cc" "You Have WON the lottery")
                  ∅) = []
  ∧ (EvText ∉ run_trace Sample.env (Sample.world 0)
                (Sample.message "team@chitty.cc" "You Have WON the lottery") ∅)
  ∧ forwards (run_trace Sample.env (Sample.world 0)
                (Sample.message "team@chitty.cc" "You Have WON the lottery")
                ∅) = []
  ∧ dispatch_outcomes
      (run_trace Sample.env (Sample.world 0)
         (Sample.message "team@chitty.cc" "You Have WON the lottery") ∅) = [].
Proof.
  apply (spam_subject_rejected_before_inference Sample.env (Sample.world 0)
           (Sample.message "team@chitty.cc" "You Have WON the lottery") ∅
           "you have won").
  - apply (bool_decide_unpack _). vm_compute. exact I.
  - vm_compute. reflexivity.
  - vm_compute. reflexivity.
Defined.

(** ** Classification fallback *)


(** The classification result that the handler works with when inference is
    down. *)
Lemma aiProcessing_fallback env msg (run : ai_binding) body st :
  AI env = Some run →
  (∀ prompt max_tokens, run prompt max_tokens = None) →
  msg_text msg = Some body →
  fst (aiProcessing env msg st)
  = Ok (Some (Some {| classification := "general"; sentiment := "neutral";
                      urgency := if hasUrgentKeyword (subject_or_empty msg) body
                                 then "high" else "normal";
                      entities := [] |})).
Proof.
  intros Hai Hdown Htext. unfold aiProcessing. rewrite Hai, Htext.
  unfold classifyEmail, analyzeSentiment, extractEntities, checkUrgency, ai_run.
  unfold bind, try_catch, emit, ret, throw. cbn [fst snd].
  rewrite !Hdown. cbn [fst snd].
  destruct (hasUrgentKeyword (subject_or_empty msg) body); cbn;
    by rewrite ?Hdown.
Qed.

(** ** Rate limiter *)

(** What [checkRateLimit] answers for a live record: whether its count exceeds
    50, whatever the age of its window. *)
Lemma checkRateLimit_threshold env w sender st e count window :
  RATE_LIMITS env = true → kv_get_ok w = true →
  rate_store st !! rate_key sender = Some e → kv_live w e = true →
  kv_value e = RateJson count window →
  fst (checkRateLimit env w sender st) = Ok (50 <? count).
Proof.
  intros Hrl Hget Hlook Hlive Hval. unfold checkRateLimit, kv_get.
  rewrite Hrl, Hget. unfold bind, try_catch, emit, ret, get_state.
  cbn [negb fst snd trace rate_store]. by rewrite Hlook, Hlive, Hval.
Qed.

(** Without a live record the sender is not limited. *)
Lemma checkRateLimit_absent env w sender st :
  (rate_store st !! rate_key sender = None
   ∨ ∃ e, rate_store st !! rate_key sender = Some e ∧ kv_live w e = false) →
  fst (checkRateLimit env w sender st) = Ok false.
Proof.
  intros H. unfold checkRateLimit, kv_get.
  destruct (RATE_LIMITS env); [|reflexivity].
  unfold bind, try_catch, emit, ret, get_state, throw.
  cbn [negb fst snd trace rate_store].
  destruct (kv_get_ok w); [|reflexivity]. cbn [fst snd trace rate_store].
  destruct H as [-> | (e & -> & ->)]; reflexivity.
Qed.

(** C1, on the code. In a burst of 60 messages from one sender, ten seconds
    apart, with an empty store at the start, the first 51 messages are
    forwarded and only messages 52 to 60 are rejected: the 51st message is
    checked against a stored count of 50, and 50 > 50 is false. *)
Theorem burst_admits_fifty_one_messages :
  let traces :=
    fst (process Sample.env (Sample.message "team@chitty.cc" "hello")
                 (every 10000 60) ∅) in
  map rejects traces = replicate 51 [] ++ replicate 9 [RATE_LIMITED]
  ∧ map forwards traces
    = replicate 51 [(Direct, Addr "no-reply@itcan.llc", true)]
      ++ replicate 9 [].
Proof. vm_compute. split; reflexivity. Qed.

(** C5, on the code. Fifty-one messages, 70 seconds apart, leave a record with
    count 51 whose window started at 0 and which the store keeps until
    7,100,000 ms. At 3,700,000 ms that window has expired (more than
    3,600,000 ms have passed), yet [checkRateLimit] answers true and the
    message is rejected. *)
Theorem expired_window_still_limits :
  let store :=
    snd (process Sample.env (Sample.message "team@chitty.cc" "hello")
                 (every 70000 51) ∅) in
  store !! rate_key "alice@example.org" = Some (KvEntry (RateJson 51 0) 7100000)
  ∧ 3600000 < now (Sample.world 3700000) - 0
  ∧ fst (checkRateLimit Sample.env (Sample.world 3700000) "alice@example.org"
           (initial store)) = Ok true
  ∧ rejects (run_trace Sample.env (Sample.world 3700000)
               (Sample.message "team@chitty.cc" "hello") store)
    = [RATE_LIMITED].
Proof. vm_compute. repeat split; reflexivity. Qed.

(** ** Routing rules *)

Lemma achieved_discard tr :
  decisive tr = [] →
  forwards tr = [] ∧ rejects tr = [] ∧ dispatch_outcomes tr = [].
Proof.
  intros H.
  by rewrite <- forwards_decisive, <- rejects_decisive,
             <- dispatch_outcomes_decisive, H.
Qed.

(** C4 fails as stated: a message to a no-reply address that the AI stage
    classifies as spam is rejected, not discarded. *)
Lemma noreply_rejected_as_spam :
  rule1 (recipientLocal (Sample.message "noreply@chitty.cc" "hello")) = true
  ∧ ¬ (rejects (run_trace (Sample.env_ai Sample.says_spam) (Sample.world 0)
                  (Sample.message "noreply@chitty.cc" "hello") ∅) = []
       ∧ forwards (run_trace (Sample.env_ai Sample.says_spam) (Sample.world 0)
                     (Sample.message "noreply@chitty.cc" "hello") ∅) = []).
Proof. split; [vm_compute; reflexivity|]. vm_compute. intros [H _]. discriminate H. Qed.

(** C4, amended. A message whose recipient local part contains "noreply" or
    "no-reply" and which passed the screening (the sender is not
    rate-limited, the quick spam check found nothing, the AI stage did not
    classify it as spam) is neither forwarded, nor rejected, nor dispatched,
    for every domain and every classification that the AI stage hands on. *)
Theorem noreply_discarded_after_screening env w msg store st1 st2 ai :
  rule1 (recipientLocal msg) = true →
  checkRateLimit env w (msg_from msg) (initial store) = (Ok false, st1) →
  isSpamQuick msg = false →
  aiProcessing env msg st1 = (Ok (Some ai), st2) →
  let tr := run_trace env w msg store in
  forwards tr = [] ∧ rejects tr = [] ∧ dispatch_outcomes tr = [].
Proof.
  intros Hr H1 H2 H3 tr. apply achieved_discard.
  pose proof (email_resolves env w msg store st1 st2 ai H1 H2 H3) as H.
  unfold resolve, local_decision in H. rewrite Hr in H.
  by destruct ai.
Qed.

Lemma noreply_discarded_witness :
  let tr := run_trace (Sample.env_ai Sample.urgent_invoice) (Sample.world 0)
              (Sample.message "No-Reply@chitty.cc" "URGENT invoice") ∅ in
  forwards tr = [] ∧ rejects tr = [] ∧ dispatch_outcomes tr = [].
Proof.
  eapply (noreply_discarded_after_screening
            (Sample.env_ai Sample.urgent_invoice) (Sample.world 0)
            (Sample.message "No-Reply@chitty.cc" "URGENT invoice") ∅).
  - vm_compute. reflexivity.
  - vm_compute. reflexivity.
  - vm_compute. reflexivity.
  - vm_compute. reflexivity.
Defined.

Lemma no_local_rule env D l :
  rule1 l = false → rule2 l = false → rule3 D l = false →
  local_decision env D l = ForwardTo (Addr D).
Proof.
  unfold rule2, rule3, local_decision. intros -> H2 H3.
  apply orb_false_iff in H2 as [[-> ->]%orb_false_iff ->].
  apply bool_decide_eq_false in H3.
  destruct (special_route D l) as [v|]; [|done].
  exfalso. apply H3. eauto.
Qed.

(** C2 fails as stated: an urgent message classified as an invoice, to an
    address that no earlier rule matches, is dispatched to the finance
    workstream when its router is configured; nothing is forwarded. *)
Lemma urgent_invoice_dispatched_to_finance :
  let env := Sample.env_ai Sample.urgent_invoice in
  let msg := Sample.message "team@chitty.cc" "URGENT: invoice overdue" in
  let ai := {| classification := "invoice"; sentiment := "neutral";
               urgency := "high"; entities := [] |} in
  fst (aiProcessing env msg
         (snd (checkRateLimit env (Sample.world 0) (msg_from msg) (initial ∅))))
  = Ok (Some (Some ai))
  ∧ rule1 (recipientLocal msg) = false
  ∧ rule2 (recipientLocal msg) = false
  ∧ rule3 (default_forward env) (recipientLocal msg) = false
  ∧ rule4a ai = false ∧ rule4b ai = false
  ∧ rule4c ai (recipientLocal msg) = true
  ∧ forwards (run_trace env (Sample.world 0) msg ∅) = []
  ∧ dispatch_outcomes (run_trace env (Sample.world 0) msg ∅)
    = [("finance", true)].
Proof. vm_compute. repeat split; reflexivity. Qed.

(** C2, amended. For a message that passed the screening, that none of
    rules 1-3, 4a and 4b matches and that sub-rule c matches (urgency critical
    or high, recipient neither nick nor sharon), the destination becomes the
    management address, and sub-rules d and e are still evaluated after it:
    an invoice or receipt is dispatched to the finance workstream when its
    router is configured; otherwise a compliance category is dispatched to the
    compliance workstream when its router is configured; otherwise the message
    is forwarded to management. *)
Theorem urgent_mail_routing env w msg store st1 st2 ai :
  checkRateLimit env w (msg_from msg) (initial store) = (Ok false, st1) →
  isSpamQuick msg = false →
  aiProcessing env msg st1 = (Ok (Some (Some ai)), st2) →
  rule1 (recipientLocal msg) = false →
  rule2 (recipientLocal msg) = false →
  rule3 (default_forward env) (recipientLocal msg) = false →
  rule4a ai = false → rule4b ai = false →
  rule4c ai (recipientLocal msg) = true →
  let d := decisive (run_trace env w msg store) in
  if rule4d ai && configured (FINANCE_ROUTER_URL env)
  then dispatched_to "finance" d
  else if rule4e ai && configured (COMPLIANCE_ROUTER_URL env)
  then dispatched_to "compliance" d
  else forwarded_to (Addr MGMT_FORWARD) d.
Proof.
  intros H1 H2 H3 R1 R2 R3 Ra Rb Rc d.
  pose proof (email_resolves env w msg store st1 st2 _ H1 H2 H3) as H.
  fold d in H. unfold resolve in H.
  rewrite (no_local_rule env _ _ R1 R2 R3) in H.
  unfold smart_decision in H. rewrite Ra, Rb, Rc in H. cbn [andb orb] in H.
  by repeat case_match.
Qed.

Lemma urgent_mail_routing_witness :
  forwarded_to (Addr MGMT_FORWARD)
    (decisive (run_trace (Sample.env_ai Sample.critical_support)
                 (Sample.world 0)
                 (Sample.message "team@chitty.cc" "Deadline tomorrow") ∅)).
Proof.
  refine (urgent_mail_routing
            (Sample.env_ai Sample.critical_support) (Sample.world 0)
            (Sample.message "team@chitty.cc" "Deadline tomorrow") ∅
            (snd (checkRateLimit (Sample.env_ai Sample.critical_support)
                    (Sample.world 0) "alice@example.org" (initial ∅)))
            (snd (aiProcessing (Sample.env_ai Sample.critical_support)
                    (Sample.message "team@chitty.cc" "Deadline tomorrow")
                    (snd (checkRateLimit (Sample.env_ai Sample.critical_support)
                            (Sample.world 0) "alice@example.org" (initial ∅)))))
            {| classification := "support"; sentiment := "neutral";
               urgency := "critical"; entities := [] |}
            _ _ _ _ _ _ _ _ _).
  all: vm_compute; reflexivity.
Defined.


(** ** The rate limiter as a counter *)

Lemma rate_key_inj a b : rate_key a = rate_key b → a = b.
Proof. unfold rate_key. apply String.app_inj. Qed.

(** What [updateRateLimit] writes when the store answers: the record and its
    expiry. *)
Lemma updateRateLimit_writes env w sender st :
  RATE_LIMITS env = true → kv_get_ok w = true → kv_put_ok w = true →
  match rate_store st !! rate_key sender with
  | Some e => kv_live w e = true → kv_value e ≠ Garbage
  | None => True
  end →
  ∃ count window,
    rate_store (snd (updateRateLimit env w sender st))
    = <[rate_key sender := KvEntry (RateJson count window) (now w + 3600000)]>
        (rate_store st)
    ∧ match rate_store st !! rate_key sender with
      | Some (KvEntry (RateJson c win) exp) =>
          if now w <? exp
          then if 3600000 <? now w - win
               then count = 1 ∧ window = now w
               else count = c + 1 ∧ window = win
          else count = 1 ∧ window = now w
      | _ => count = 1 ∧ window = now w
      end.
Proof.
  intros Hrl Hget Hput Hok. unfold updateRateLimit, kv_get, kv_put.
  rewrite Hrl, Hget, Hput.
  unfold bind, try_catch, emit, ret, throw, get_state, set_store.
  cbn [negb fst snd trace rate_store].
  destruct (rate_store st !! rate_key sender) as [[[c win|] exp]|] eqn:E;
    unfold kv_live; cbn [kv_value kv_expires fst snd trace rate_store] in *.
  - destruct (now w <? exp); cbn [fst snd rate_store].
    + destruct (3600000 <? now w - win); cbn [fst snd rate_store]; eauto.
    + eauto.
  - destruct (now w <? exp) eqn:L; cbn [fst snd rate_store].
    + exfalso. exact (Hok L eq_refl).
    + eauto.
  - eauto.
Qed.

Lemma updates_inside_window env sender ws :
  RATE_LIMITS env = true →
  ∀ st count t0 expires,
    Forall (fun w => kv_get_ok w = true ∧ kv_put_ok w = true) ws →
    Forall (fun w => t0 ≤ now w < t0 + 3600000) ws →
    rate_store st !! rate_key sender
    = Some (KvEntry (RateJson count t0) expires) →
    t0 + 3600000 ≤ expires →
    ∃ expires',
      rate_store (updates env sender ws st) !! rate_key sender
      = Some (KvEntry (RateJson (count + Z.of_nat (length ws)) t0) expires')
      ∧ t0 + 3600000 ≤ expires'.
Proof.
  intros Hrl. induction ws as [|w ws IH]; intros st c t0 exp Hkv Hin Hlook Hexp.
  - exists exp. cbn. by rewrite Z.add_0_r.
  - apply Forall_cons in Hkv as [[Hg Hp] Hkv].
    apply Forall_cons in Hin as [Hw Hin].
    destruct (updateRateLimit_writes env w sender st Hrl Hg Hp)
      as (c' & win & Hs & Hc).
    { by rewrite Hlook. }
    rewrite Hlook in Hc.
    assert (Hlive : (now w <? exp) = true) by (apply Z.ltb_lt; lia).
    assert (Hwin : (3600000 <? now w - t0) = false) by (apply Z.ltb_ge; lia).
    rewrite Hlive, Hwin in Hc. destruct Hc as [-> ->].
    cbn [updates length].
    destruct (IH (snd (updateRateLimit env w sender st)) (c + 1) t0
                 (now w + 3600000) Hkv Hin) as (exp' & Hl & He).
    { by rewrite Hs, lookup_insert_eq. }
    { lia. }
    exists exp'. split; [|exact He]. rewrite Hl. do 3 f_equal. lia.
Qed.

Lemma first_update_starts_window env w0 sender st :
  RATE_LIMITS env = true → kv_get_ok w0 = true → kv_put_ok w0 = true →
  no_live_record w0 sender st →
  rate_store (snd (updateRateLimit env w0 sender st)) !! rate_key sender
  = Some (KvEntry (RateJson 1 (now w0)) (now w0 + 3600000)).
Proof.
  intros Hrl Hg0 Hp0 Hnone.
  destruct (updateRateLimit_writes env w0 sender st Hrl Hg0 Hp0)
    as (c & win & Hs & Hc).
  { unfold no_live_record in Hnone.
    destruct (rate_store st !! rate_key sender); [|done].
    intros H. congruence. }
  rewrite Hs, lookup_insert_eq. unfold no_live_record, kv_live in Hnone.
  destruct (rate_store st !! rate_key sender) as [[[c' win'|] exp]|];
    cbn in *; rewrite ?Hnone in Hc; by destruct Hc as [-> ->].
Qed.

(** X1. While the store answers, the counter counts: after a first accepted
    message at [now w0], for which no record could be read, and [length ws]
    further accepted messages inside the hour that starts there, the record
    of the sender holds the count [1 + length ws] and the window start
    [now w0], and it can still be read until an hour after [now w0] at
    least. *)
Theorem counter_counts_accepted_messages env sender w0 ws st :
  RATE_LIMITS env = true →
  Forall (fun w => kv_get_ok w = true ∧ kv_put_ok w = true) (w0 :: ws) →
  Forall (fun w => now w0 ≤ now w < now w0 + 3600000) ws →
  no_live_record w0 sender st →
  ∃ expires,
    rate_store (updates env sender (w0 :: ws) st) !! rate_key sender
    = Some (KvEntry (RateJson (1 + Z.of_nat (length ws)) (now w0)) expires)
    ∧ now w0 + 3600000 ≤ expires.
Proof.
  intros Hrl Hkv Hin Hnone.
  apply Forall_cons in Hkv as [[Hg0 Hp0] Hkv].
  cbn [updates].
  apply (updates_inside_window env sender ws Hrl _ 1 (now w0)
           (now w0 + 3600000) Hkv Hin); [|lia].
  by apply first_update_starts_window.
Qed.

Lemma counter_counts_witness :
  ∃ expires,
    rate_store (updates Sample.env "alice@example.org"
                  [Sample.world 0; Sample.world 1000; Sample.world 2000]
                  (initial ∅))
    !! rate_key "alice@example.org"
    = Some (KvEntry (RateJson (1 + Z.of_nat 2) (now (Sample.world 0))) expires)
    ∧ now (Sample.world 0) + 3600000 ≤ expires.
Proof.
  apply (counter_counts_accepted_messages Sample.env "alice@example.org"
           (Sample.world 0) [Sample.world 1000; Sample.world 2000] (initial ∅)).
  - reflexivity.
  - repeat constructor.
  - repeat constructor; cbn; lia.
  - vm_compute. exact I.
Defined.

(** X2. The limit as the code enforces it: after a first accepted message and
    [n] more inside the hour that it starts, the next check of that sender,
    still inside the hour, answers true exactly when [1 + n] exceeds 50, that
    is from the 52nd message on. *)
Theorem limit_reached_after_fifty_one env sender w0 ws w st :
  RATE_LIMITS env = true →
  Forall (fun w => kv_get_ok w = true ∧ kv_put_ok w = true) (w0 :: ws) →
  Forall (fun w => now w0 ≤ now w < now w0 + 3600000) ws →
  no_live_record w0 sender st →
  kv_get_ok w = true → now w < now w0 + 3600000 →
  fst (checkRateLimit env w sender (updates env sender (w0 :: ws) st))
  = Ok (50 <? 1 + Z.of_nat (length ws)).
Proof.
  intros Hrl Hkv Hin Hnone Hg Hw.
  apply Forall_cons in Hkv as [[Hg0 Hp0] Hkv].
  destruct (updates_inside_window env sender ws Hrl
              (snd (updateRateLimit env w0 sender st)) 1 (now w0)
              (now w0 + 3600000) Hkv Hin) as (exp & Hl & He); [|lia|].
  { by apply first_update_starts_window. }
  cbn [updates].
  unfold checkRateLimit, kv_get. rewrite Hrl, Hg.
  unfold bind, try_catch, emit, ret, get_state.
  cbn [negb fst snd trace rate_store]. rewrite Hl. unfold kv_live.
  cbn [kv_expires kv_value].
  assert ((now w <? exp) = true) as -> by (apply Z.ltb_lt; lia).
  reflexivity.
Qed.

Lemma limit_reached_witness :
  fst (checkRateLimit Sample.env (Sample.world 3000) "alice@example.org"
         (updates Sample.env "alice@example.org"
            [Sample.world 0; Sample.world 1000; Sample.world 2000]
            (initial ∅)))
  = Ok (50 <? 1 + Z.of_nat 2).
Proof.
  apply (limit_reached_after_fifty_one Sample.env "alice@example.org"
           (Sample.world 0) [Sample.world 1000; Sample.world 2000]
           (Sample.world 3000) (initial ∅)).
  - reflexivity.
  - repeat constructor.
  - repeat constructor; cbn; lia.
  - vm_compute. exact I.
  - reflexivity.
  - cbn. lia.
Defined.

(** X3. A store that does not answer is swallowed: [checkRateLimit] then
    answers false (the sender is not limited), [updateRateLimit] completes
    normally, and neither changes the namespace. The same holds when the
    namespace is not bound. *)
Theorem rate_store_failures_are_swallowed env w sender st :
  RATE_LIMITS env = false ∨ kv_get_ok w = false →
  fst (checkRateLimit env w sender st) = Ok false
  ∧ rate_store (snd (checkRateLimit env w sender st)) = rate_store st
  ∧ fst (updateRateLimit env w sender st) = Ok tt
  ∧ rate_store (snd (updateRateLimit env w sender st)) = rate_store st.
Proof.
  intros H. unfold checkRateLimit, updateRateLimit, kv_get.
  destruct (RATE_LIMITS env); [|done].
  destruct H as [H | H]; [done|]. rewrite H. done.
Qed.

Lemma rate_store_failures_witness :
  fst (checkRateLimit Cases.env_unbound (Sample.world 0) "alice@example.org"
         (initial ∅)) = Ok false
  ∧ rate_store (snd (checkRateLimit Cases.env_unbound (Sample.world 0)
                       "alice@example.org" (initial ∅)))
    = rate_store (initial ∅)
  ∧ fst (updateRateLimit Cases.env_unbound (Sample.world 0)
           "alice@example.org" (initial ∅)) = Ok tt
  ∧ rate_store (snd (updateRateLimit Cases.env_unbound (Sample.world 0)
                       "alice@example.org" (initial ∅)))
    = rate_store (initial ∅).
Proof.
  apply (rate_store_failures_are_swallowed Cases.env_unbound (Sample.world 0)
           "alice@example.org" (initial ∅)).
  left. reflexivity.
Defined.

(** X4. [updateRateLimit] never throws and never touches the record of
    another sender. *)
Theorem updateRateLimit_touches_one_record env w sender other st :
  other ≠ sender →
  fst (updateRateLimit env w sender st) = Ok tt
  ∧ rate_store (snd (updateRateLimit env w sender st)) !! rate_key other
    = rate_store st !! rate_key other.
Proof.
  intros Hne.
  assert (Hk : rate_key sender ≠ rate_key other).
  { intros H. apply Hne. symmetry. by apply rate_key_inj. }
  unfold updateRateLimit, kv_get, kv_put.
  unfold bind, try_catch, emit, ret, throw, get_state, set_store.
  cbn [fst snd trace rate_store].
  repeat (case_match; cbn [fst snd trace rate_store] in *; simplify_eq).
  all: by rewrite ?lookup_insert_ne.
Qed.

Lemma updateRateLimit_touches_one_witness :
  fst (updateRateLimit Sample.env (Sample.world 0) "alice@example.org"
         (initial ∅)) = Ok tt
  ∧ rate_store (snd (updateRateLimit Sample.env (Sample.world 0)
                       "alice@example.org" (initial ∅)))
    !! rate_key "bob@example.org"
    = rate_store (initial ∅) !! rate_key "bob@example.org".
Proof.
  apply (updateRateLimit_touches_one_record Sample.env (Sample.world 0)
           "alice@example.org" "bob@example.org" (initial ∅)).
  discriminate.
Defined.

(** ** What the AI stage hands to the routing rules *)

Lemma elem_true x xs : Js.elem x xs = true → x ∈ xs.
Proof. apply bool_decide_eq_true_1. Qed.

Lemma classifyEmail_result ai subject body st :
  ∃ c, classifyEmail ai subject body st
       = (Ok c, {| trace := trace st
                     ++ match ai with
                        | Some _ => [EvAiRun (classify_prompt subject body) 10]
                        | None => []
                        end;
                   rate_store := rate_store st |})
       ∧ c ∈ categories.
Proof.
  unfold classifyEmail, ai_run. destruct ai as [run|].
  2: { exists "general". rewrite app_nil_r. destruct st.
       split; [reflexivity | by apply elem_true]. }
  unfold bind, try_catch, emit, ret, throw. cbn [fst snd trace rate_store].
  destruct (run _ _) as [response|]; cbn [fst snd trace rate_store].
  - destruct (Js.elem _ categories) eqn:E; eexists; (split; [reflexivity|]).
    + by apply elem_true. + by apply elem_true.
  - eexists; split; [reflexivity | by apply elem_true].
Qed.

Lemma analyzeSentiment_result ai body st :
  ∃ s, analyzeSentiment ai body st
       = (Ok s, {| trace := trace st
                     ++ match ai with
                        | Some _ => [EvAiRun (sentiment_prompt body) 10]
                        | None => []
                        end;
                   rate_store := rate_store st |})
       ∧ s ∈ sentiments.
Proof.
  unfold analyzeSentiment, ai_run. destruct ai as [run|].
  2: { exists "neutral". rewrite app_nil_r. destruct st.
       split; [reflexivity | by apply elem_true]. }
  unfold bind, try_catch, emit, ret, throw. cbn [fst snd trace rate_store].
  destruct (run _ _) as [response|]; cbn [fst snd trace rate_store].
  - destruct (Js.elem _ sentiments) eqn:E; eexists; (split; [reflexivity|]).
    + by apply elem_true. + by apply elem_true.
  - eexists; split; [reflexivity | by apply elem_true].
Qed.

Lemma checkUrgency_result ai subject body st :
  ∃ u, checkUrgency ai subject body st
       = (Ok u, {| trace := trace st
                     ++ match ai with
                        | Some _ =>
                            if hasUrgentKeyword subject body
                            then [EvAiRun (urgency_prompt subject body) 10]
                            else []
                        | None => []
                        end;
                   rate_store := rate_store st |})
       ∧ u ∈ urgencies.
Proof.
  unfold checkUrgency, ai_run. destruct ai as [run|].
  2: { exists "normal". rewrite app_nil_r. destruct st.
       split; [reflexivity | by apply elem_true]. }
  destruct (hasUrgentKeyword subject body); cbn [negb].
  2: { exists "normal". rewrite app_nil_r. destruct st.
       split; [reflexivity | by apply elem_true]. }
  unfold bind, try_catch, emit, ret, throw. cbn [fst snd trace rate_store].
  destruct (run _ _) as [response|]; cbn [fst snd trace rate_store].
  - destruct (Js.elem _ urgencies) eqn:E; eexists; (split; [reflexivity|]).
    + by apply elem_true. + by apply elem_true.
  - eexists; split; [reflexivity | by apply elem_true].
Qed.

Lemma extractEntities_result ai body st :
  ∃ es, extractEntities ai body st
        = (Ok es, {| trace := trace st
                       ++ match ai with
                          | Some _ => [EvAiRun (entities_prompt body) 100]
                          | None => []
                          end;
                     rate_store := rate_store st |})
        ∧ (length es ≤ 5)%nat.
Proof.
  unfold extractEntities, ai_run. destruct ai as [run|].
  2: { exists []. rewrite app_nil_r. destruct st.
       split; [reflexivity | cbn; lia]. }
  unfold bind, try_catch, emit, ret, throw. cbn [fst snd trace rate_store].
  destruct (run _ _) as [response|]; cbn [fst snd trace rate_store].
  - destruct (mapM _ _) as [es|]; eexists; (split; [reflexivity|]).
    + rewrite length_take. lia. + cbn; lia.
  - eexists; split; [reflexivity | cbn; lia].
Qed.

(** X5. The insights that the AI stage hands to the routing rules are always
    well formed, whatever the inference binding answers: the category is one
    of the twenty categories and is not [spam], the sentiment and the urgency
    are in their lists, and there are at most five entities. *)
Theorem insights_are_well_formed env msg st ai st' :
  aiProcessing env msg st = (Ok (Some (Some ai)), st') →
  classification ai ∈ categories
  ∧ classification ai ≠ "spam"
  ∧ sentiment ai ∈ sentiments
  ∧ urgency ai ∈ urgencies
  ∧ (length (entities ai) ≤ 5)%nat.
Proof.
  unfold aiProcessing. destruct (AI env) as [run|] eqn:Hai; [|discriminate].
  unfold try_catch at 1. unfold bind at 1. unfold emit at 1.
  cbn [fst snd]. unfold bind at 1.
  destruct (msg_text msg) as [body|].
  2: { unfold throw, bind, emit, ret. cbn. discriminate. }
  unfold ret at 1. cbn iota. unfold bind at 1.
  destruct (classifyEmail_result (Some run) (subject_or_empty msg) body
              {| trace := trace st ++ [EvText]; rate_store := rate_store st |})
    as (c & -> & Hc).
  unfold bind at 1.
  match goal with |- context [analyzeSentiment _ _ ?s] =>
    destruct (analyzeSentiment_result (Some run) body s) as (s' & -> & Hs) end.
  unfold bind at 1.
  match goal with |- context [checkUrgency _ _ _ ?s] =>
    destruct (checkUrgency_result (Some run) (subject_or_empty msg) body s)
      as (u & -> & Hu) end.
  unfold bind at 1.
  match goal with |- context [extractEntities _ _ ?s] =>
    destruct (extractEntities_result (Some run) body s) as (es & -> & He) end.
  unfold bind, emit, setReject, emit, ret. cbn [fst snd].
  destruct (String.eqb c "spam") eqn:Hspam; cbn.
  - discriminate.
  - intros [= <- _]. cbn. repeat split; try done.
    intros ->. discriminate Hspam.
Qed.

Lemma insights_are_well_formed_witness :
  let ai := {| classification := "invoice"; sentiment := "neutral";
               urgency := "high"; entities := [] |} in
  classification ai ∈ categories
  ∧ classification ai ≠ "spam"
  ∧ sentiment ai ∈ sentiments
  ∧ urgency ai ∈ urgencies
  ∧ (length (entities ai) ≤ 5)%nat.
Proof.
  refine (insights_are_well_formed (Sample.env_ai Sample.urgent_invoice)
            (Sample.message "team@chitty.cc" "URGENT: invoice overdue")
            (initial ∅) _
            (snd (aiProcessing (Sample.env_ai Sample.urgent_invoice)
                    (Sample.message "team@chitty.cc" "URGENT: invoice overdue")
                    (initial ∅))) _).
  vm_compute. reflexivity.
Defined.

(** X6. The AI stage never throws and sends a bounded, fixed sequence of
    prompts: none when the binding is absent or the body cannot be read;
    otherwise the classification and the sentiment prompt, the urgency prompt
    only when an urgency keyword occurs in subject and body, and the entities
    prompt, in this order. *)
Theorem inference_prompts_of_a_message env msg st :
  ∃ r, fst (aiProcessing env msg st) = Ok r
  ∧ rate_store (snd (aiProcessing env msg st)) = rate_store st
  ∧ inferences (trace (snd (aiProcessing env msg st)))
    = inferences (trace st)
      ++ match AI env, msg_text msg with
         | Some _, Some body =>
             [classify_prompt (subject_or_empty msg) body;
              sentiment_prompt body]
             ++ (if hasUrgentKeyword (subject_or_empty msg) body
                 then [urgency_prompt (subject_or_empty msg) body] else [])
             ++ [entities_prompt body]
         | _, _ => []
         end.
Proof.
  destruct (aiProcessing env msg st) as [r st'] eqn:E. cbn [fst snd].
  revert E. unfold aiProcessing. destruct (AI env) as [run|] eqn:Hai.
  2: { intros [= <- <-]. eexists. cbn. by rewrite app_nil_r. }
  unfold try_catch at 1. unfold bind at 1. unfold emit at 1.
  cbn [fst snd]. unfold bind at 1.
  destruct (msg_text msg) as [body|].
  2: { unfold throw, bind, emit, ret. cbn. intros [= <- <-]. eexists.
       split; [reflexivity|]. split; [reflexivity|].
       unfold inferences. cbn [trace]. rewrite !omap_app. cbn.
       by rewrite !app_nil_r. }
  unfold ret at 1. cbn iota. unfold bind at 1.
  destruct (classifyEmail_result (Some run) (subject_or_empty msg) body
              {| trace := trace st ++ [EvText]; rate_store := rate_store st |})
    as (c & -> & Hc).
  unfold bind at 1.
  match goal with |- context [analyzeSentiment _ _ ?s] =>
    destruct (analyzeSentiment_result (Some run) body s) as (s' & -> & Hs) end.
  unfold bind at 1.
  match goal with |- context [checkUrgency _ _ _ ?s] =>
    destruct (checkUrgency_result (Some run) (subject_or_empty msg) body s)
      as (u & -> & Hu) end.
  unfold bind at 1.
  match goal with |- context [extractEntities _ _ ?s] =>
    destruct (extractEntities_result (Some run) body s) as (es & -> & He) end.
  unfold bind, emit, setReject, emit, ret. cbn [fst snd trace rate_store].
  destruct (String.eqb c "spam"); cbn [fst snd trace rate_store].
  all: intros [= <- <-]; eexists; (split; [reflexivity|]).
  all: (split; [reflexivity|]).
  all: unfold inferences; cbn [trace]; rewrite !omap_app; cbn [omap app].
  all: destruct (hasUrgentKeyword (subject_or_empty msg) body); cbn.
  all: by rewrite <- ?app_assoc, ?app_nil_r.
Qed.

(** ** Routing without insights, and under an inference outage *)

Lemma run_equation {A} (m : M A) st : m st = (fst (m st), snd (m st)).
Proof. by destruct (m st). Qed.

Lemma aiProcessing_without_insights env msg st :
  AI env = None ∨ msg_text msg = None →
  fst (aiProcessing env msg st) = Ok (Some None).
Proof.
  intros H. unfold aiProcessing. destruct (AI env) as [run|]; [|done].
  destruct H as [H | H]; [done|]. by rewrite H.
Qed.

(** X7. Without insights (no inference binding, or a body that cannot be
    read) the worker routes by the recipient local part alone: a message that
    is neither rate-limited nor quick spam meets the decision of the
    local-part rules. *)
Theorem routes_by_local_part_without_insights env w msg store :
  AI env = None ∨ msg_text msg = None →
  fst (checkRateLimit env w (msg_from msg) (initial store)) = Ok false →
  isSpamQuick msg = false →
  achieved (local_decision env (default_forward env) (recipientLocal msg))
           (decisive (run_trace env w msg store)).
Proof.
  intros Hno Hrate Hspam.
  pose proof (run_equation (checkRateLimit env w (msg_from msg))
                (initial store)) as E1. rewrite Hrate in E1.
  pose proof (run_equation (aiProcessing env msg)
                (snd (checkRateLimit env w (msg_from msg) (initial store))))
    as E2.
  rewrite (aiProcessing_without_insights env msg _ Hno) in E2.
  pose proof (email_resolves env w msg store _ _ _ E1 Hspam E2) as H.
  unfold resolve in H.
  by destruct (local_decision env (default_forward env) (recipientLocal msg)).
Qed.

Lemma routes_by_local_part_witness :
  achieved (ForwardTo (Addr MGMT_FORWARD))
    (decisive (run_trace Sample.env (Sample.world 0)
                 (Sample.message "Admin@chitty.cc" "hello") ∅)).
Proof.
  refine (routes_by_local_part_without_insights Sample.env (Sample.world 0)
            (Sample.message "Admin@chitty.cc" "hello") ∅ _ _ _).
  - left. reflexivity.
  - vm_compute. reflexivity.
  - vm_compute. reflexivity.
Defined.

(** X8. An inference outage does not stop the mail: with a binding whose
    every call fails, a message that is neither rate-limited nor quick spam is
    never rejected as AI spam and meets the decision of the local-part rules,
    except that a forward goes to management when an urgency keyword occurs in
    subject and body and the recipient is neither nick nor sharon. *)
Theorem inference_outage_routing env w msg store (run : ai_binding) body :
  AI env = Some run →
  (∀ prompt max_tokens, run prompt max_tokens = None) →
  msg_text msg = Some body →
  fst (checkRateLimit env w (msg_from msg) (initial store)) = Ok false →
  isSpamQuick msg = false →
  achieved
    match local_decision env (default_forward env) (recipientLocal msg) with
    | ForwardTo t =>
        ForwardTo (if hasUrgentKeyword (subject_or_empty msg) body
                      && negb (Js.elem (recipientLocal msg) ["nick"; "sharon"])
                   then Addr MGMT_FORWARD else t)
    | dec => dec
    end
    (decisive (run_trace env w msg store)).
Proof.
  intros Hai Hdown Htext Hrate Hspam.
  pose proof (run_equation (checkRateLimit env w (msg_from msg))
                (initial store)) as E1. rewrite Hrate in E1.
  pose proof (run_equation (aiProcessing env msg)
                (snd (checkRateLimit env w (msg_from msg) (initial store))))
    as E2.
  rewrite (aiProcessing_fallback env msg run body _ Hai Hdown Htext) in E2.
  pose proof (email_resolves env w msg store _ _ _ E1 Hspam E2) as H.
  unfold resolve in H.
  destruct (local_decision env (default_forward env) (recipientLocal msg));
    try exact H.
  unfold smart_decision, rule4a, rule4b, rule4c, rule4d, rule4e in H.
  cbn [classification sentiment urgency] in H.
  destruct (hasUrgentKeyword (subject_or_empty msg) body); exact H.
Qed.

Lemma inference_outage_witness :
  achieved (ForwardTo (Addr MGMT_FORWARD))
    (decisive (run_trace Cases.env_ai_down (Sample.world 0)
                 (Sample.message "team@chitty.cc" "Final notice") ∅)).
Proof.
  refine (inference_outage_routing Cases.env_ai_down (Sample.world 0)
            (Sample.message "team@chitty.cc" "Final notice") ∅
            Sample.ai_down "See attached." _ _ _ _ _).
  - reflexivity.
  - intros prompt max_tokens. reflexivity.
  - reflexivity.
  - vm_compute. reflexivity.
  - vm_compute. reflexivity.
Defined.

(** ** Precedence among the routing rules *)

Lemma workstream_local_decision env D l ws locals url :
  (ws, locals, url)
  ∈ [ ("litigation", litigation_locals, EVIDENCE_ROUTER_URL env);
      ("finance", finance_locals, FINANCE_ROUTER_URL env);
      ("compliance", compliance_locals, COMPLIANCE_ROUTER_URL env) ] →
  Js.elem l locals = true →
  local_decision env D l
  = if configured url then DispatchTo ws else ForwardTo (Addr MGMT_FORWARD).
Proof.
  intros Hrow Hin%elem_true.
  repeat (apply elem_of_cons in Hrow as [[= -> -> ->] | Hrow]);
    [| | | by apply elem_of_nil in Hrow].
  all: unfold litigation_locals, finance_locals, compliance_locals in Hin.
  all: repeat (apply elem_of_cons in Hin as [-> | Hin]);
         try (by apply elem_of_nil in Hin).
  all: reflexivity.
Qed.

(** X9. Rule 2 comes before the classification: a message that passed the
    screening and whose recipient local part is a workstream address
    (litigation, finance or compliance list) is handed to the dispatcher of
    that workstream when its router is configured, whatever the insights
    say. *)
Theorem workstream_address_is_dispatched
    env w msg store st1 st2 ai ws locals url :
  (ws, locals, url)
  ∈ [ ("litigation", litigation_locals, EVIDENCE_ROUTER_URL env);
      ("finance", finance_locals, FINANCE_ROUTER_URL env);
      ("compliance", compliance_locals, COMPLIANCE_ROUTER_URL env) ] →
  Js.elem (recipientLocal msg) locals = true →
  configured url = true →
  checkRateLimit env w (msg_from msg) (initial store) = (Ok false, st1) →
  isSpamQuick msg = false →
  aiProcessing env msg st1 = (Ok (Some ai), st2) →
  dispatched_to ws (decisive (run_trace env w msg store)).
Proof.
  intros Hrow Hin Hconf H1 H2 H3.
  pose proof (email_resolves env w msg store st1 st2 ai H1 H2 H3) as H.
  unfold resolve in H.
  rewrite (workstream_local_decision env _ _ ws locals url Hrow Hin), Hconf in H.
  by destruct ai.
Qed.

Lemma workstream_address_witness :
  dispatched_to "finance"
    (decisive (run_trace (Sample.env_ai Sample.critical_support)
                 (Sample.world 0)
                 (Sample.message "billing@chitty.cc" "Deadline tomorrow") ∅)).
Proof.
  refine (workstream_address_is_dispatched
            (Sample.env_ai Sample.critical_support) (Sample.world 0)
            (Sample.message "billing@chitty.cc" "Deadline tomorrow") ∅
            (snd (checkRateLimit (Sample.env_ai Sample.critical_support)
                    (Sample.world 0) "alice@example.org" (initial ∅)))
            (snd (aiProcessing (Sample.env_ai Sample.critical_support)
                    (Sample.message "billing@chitty.cc" "Deadline tomorrow")
                    (snd (checkRateLimit (Sample.env_ai Sample.critical_support)
                            (Sample.world 0) "alice@example.org" (initial ∅)))))
            (Some {| classification := "support"; sentiment := "neutral";
                     urgency := "critical"; entities := [] |})
            "finance" finance_locals
            (FINANCE_ROUTER_URL (Sample.env_ai Sample.critical_support))
            _ _ _ _ _ _).
  - apply elem_of_cons. right. apply elem_of_cons. left. reflexivity.
  - vm_compute. reflexivity.
  - vm_compute. reflexivity.
  - vm_compute. reflexivity.
  - vm_compute. reflexivity.
  - vm_compute. reflexivity.
Defined.

Lemma rule4a_excludes ai : rule4a ai = true → rule4d ai = false ∧ rule4e ai = false.
Proof.
  unfold rule4a, rule4d, rule4e.
  intros [H | H]%orb_true_iff; apply String.eqb_eq in H; rewrite H; done.
Qed.

Lemma rule4b_excludes ai : rule4b ai = true → rule4d ai = false ∧ rule4e ai = false.
Proof.
  unfold rule4b, rule4d, rule4e.
  intros [H _]%andb_true_iff; apply String.eqb_eq in H; rewrite H; done.
Qed.

(** X10. Legal matters and angry complaints override the static route: when
    the local-part rules chose a forward, whatever its address (a personal
    route included), a message classified legal or contract is handed to the
    litigation dispatcher if the evidence router is configured and is
    forwarded to management otherwise, and an angry complaint is forwarded to
    management. *)
Theorem legal_and_angry_mail_goes_to_management env w msg store st1 st2 ai t :
  checkRateLimit env w (msg_from msg) (initial store) = (Ok false, st1) →
  isSpamQuick msg = false →
  aiProcessing env msg st1 = (Ok (Some (Some ai)), st2) →
  local_decision env (default_forward env) (recipientLocal msg) = ForwardTo t →
  rule4a ai || rule4b ai = true →
  let d := decisive (run_trace env w msg store) in
  if rule4a ai && configured (EVIDENCE_ROUTER_URL env)
  then dispatched_to "litigation" d
  else forwarded_to (Addr MGMT_FORWARD) d.
Proof.
  intros H1 H2 H3 Hl Hab d.
  pose proof (email_resolves env w msg store st1 st2 _ H1 H2 H3) as H.
  fold d in H. unfold resolve in H. rewrite Hl in H.
  unfold smart_decision in H.
  destruct (rule4a ai && configured (EVIDENCE_ROUTER_URL env)); [exact H|].
  assert (rule4d ai = false ∧ rule4e ai = false) as [Rd Re].
  { apply orb_true_iff in Hab as [Ha | Hb];
      [by apply rule4a_excludes | by apply rule4b_excludes]. }
  rewrite Rd, Re in H. cbn [andb] in H.
  replace (rule4a ai || rule4b ai || rule4c ai (recipientLocal msg))
    with true in H; [exact H|].
  by rewrite Hab.
Qed.

Lemma legal_and_angry_witness :
  forwarded_to (Addr MGMT_FORWARD)
    (decisive (run_trace (Sample.env_ai Cases.angry_complaint) (Sample.world 0)
                 (Sample.message "nick@chitty.cc" "Never again") ∅)).
Proof.
  refine (legal_and_angry_mail_goes_to_management
            (Sample.env_ai Cases.angry_complaint) (Sample.world 0)
            (Sample.message "nick@chitty.cc" "Never again") ∅
            (snd (checkRateLimit (Sample.env_ai Cases.angry_complaint)
                    (Sample.world 0) "alice@example.org" (initial ∅)))
            (snd (aiProcessing (Sample.env_ai Cases.angry_complaint)
                    (Sample.message "nick@chitty.cc" "Never again")
                    (snd (checkRateLimit (Sample.env_ai Cases.angry_complaint)
                            (Sample.world 0) "alice@example.org" (initial ∅)))))
            {| classification := "complaint"; sentiment := "angry";
               urgency := "normal"; entities := [] |}
            (Addr NICK_FORWARD) _ _ _ _ _).
  all: vm_compute; reflexivity.
Defined.

(** X11. The personal routes are exempt from the urgency rule: a message to
    nick or sharon that passed the screening, that is not legal, contract or
    an angry complaint and that no classification dispatches, is forwarded to
    the personal address, however urgent it is. *)
Theorem personal_mail_stays_personal env w msg store st1 st2 ai address :
  (recipientLocal msg, address)
  ∈ [("nick", NICK_FORWARD); ("sharon", SHARON_FORWARD)] →
  checkRateLimit env w (msg_from msg) (initial store) = (Ok false, st1) →
  isSpamQuick msg = false →
  aiProcessing env msg st1 = (Ok (Some (Some ai)), st2) →
  rule4a ai = false → rule4b ai = false →
  rule4d ai && configured (FINANCE_ROUTER_URL env) = false →
  rule4e ai && configured (COMPLIANCE_ROUTER_URL env) = false →
  forwarded_to (Addr address) (decisive (run_trace env w msg store)).
Proof.
  intros Hl H1 H2 H3 Ra Rb Rd Re.
  pose proof (email_resolves env w msg store st1 st2 _ H1 H2 H3) as H.
  unfold resolve in H.
  assert (local_decision env (default_forward env) (recipientLocal msg)
          = ForwardTo (Addr address)
          ∧ Js.elem (recipientLocal msg) ["nick"; "sharon"] = true) as [Hd He].
  { repeat (apply elem_of_cons in Hl as [[= -> ->] | Hl]);
      [| | by apply elem_of_nil in Hl]; split; reflexivity. }
  rewrite Hd in H. unfold smart_decision, rule4c in H.
  by rewrite Ra, Rb, Rd, Re, He, andb_false_r in H.
Qed.

Lemma personal_mail_witness :
  forwarded_to (Addr SHARON_FORWARD)
    (decisive (run_trace (Sample.env_ai Sample.critical_support)
                 (Sample.world 0)
                 (Sample.message "Sharon@itcanbellc.com" "Deadline tomorrow")
                 ∅)).
Proof.
  refine (personal_mail_stays_personal
            (Sample.env_ai Sample.critical_support) (Sample.world 0)
            (Sample.message "Sharon@itcanbellc.com" "Deadline tomorrow") ∅
            (snd (checkRateLimit (Sample.env_ai Sample.critical_support)
                    (Sample.world 0) "alice@example.org" (initial ∅)))
            (snd (aiProcessing (Sample.env_ai Sample.critical_support)
                    (Sample.message "Sharon@itcanbellc.com" "Deadline tomorrow")
                    (snd (checkRateLimit (Sample.env_ai Sample.critical_support)
                            (Sample.world 0) "alice@example.org" (initial ∅)))))
            {| classification := "support"; sentiment := "neutral";
               urgency := "critical"; entities := [] |}
            SHARON_FORWARD _ _ _ _ _ _ _ _).
  - apply elem_of_cons. right. apply elem_of_cons. left. reflexivity.
  - vm_compute. reflexivity.
  - vm_compute. reflexivity.
  - vm_compute. reflexivity.
  - vm_compute. reflexivity.
  - vm_compute. reflexivity.
  - vm_compute. reflexivity.
  - vm_compute. reflexivity.
Defined.

(** ** Views of the trace *)

Lemma view_app keep tr1 tr2 :
  view keep (tr1 ++ tr2) = view keep tr1 ++ view keep tr2.
Proof. apply filter_app. Qed.

Lemma view_quiet keep tr e : keep e = false → view keep (tr ++ [e]) = view keep tr.
Proof.
  intros H. rewrite view_app. unfold view at 2.
  rewrite filter_cons_False by (by apply Is_true_false).
  by rewrite filter_nil, app_nil_r.
Qed.

Lemma view_loud keep tr e :
  keep e = true → view keep (tr ++ [e]) = view keep tr ++ [e].
Proof.
  intros H. rewrite view_app. unfold view at 2.
  rewrite filter_cons_True by (by apply Is_true_true). by rewrite filter_nil.
Qed.

(** Push [view] through the events appended to a trace. *)
Ltac left_out :=
  first [ reflexivity
        | solve [auto]
        | match goal with
          | H : _ |- ?k (EvLog ?l) = false => exact (H l)
          end ].

Ltac sift :=
  cbn [fst snd trace rate_store];
  repeat first [ rewrite view_quiet by left_out
               | rewrite view_loud by reflexivity ].

Ltac sifted :=
  sift; rewrite <- ?app_assoc; cbn [app];
  first [ reflexivity | symmetry; apply app_nil_r | done ].

(** Run a block whose effect on the view is known from lemma [L]. *)
Ltac through L :=
  eapply wp_mono; [apply L; first [done | by intros []]|];
  let r := fresh "r" in let V := fresh "V" in
  intros r ? V; destruct r; lazy beta iota.

(** Close a goal on a view from what is known of the blocks passed. *)
Ltac settle :=
  unfold quiet in *; sift;
  repeat match goal with
         | V : view ?k (trace ?s) = _ |- context [view ?k (trace ?s)] =>
             rewrite V; clear V; sift
         end;
  rewrite <- ?app_assoc; cbn [app];
  first [ reflexivity | symmetry; apply app_nil_r | done ].

Lemma wp_conj {A} (m : M A) (Q1 Q2 : result A → State → Prop) st :
  wp m Q1 st → wp m Q2 st → wp m (fun r st' => Q1 r st' ∧ Q2 r st') st.
Proof. unfold wp. auto. Qed.

(** The blocks that a view does not see, for every view that leaves out the
    events they emit. *)
Section Quiet.
Variable keep : event → bool.
Hypothesis keep_log :
  ∀ l, match l with
       | LogRouterOk _ | LogRouterFailed _ => True
       | _ => keep (EvLog l) = false
       end.
Hypothesis keep_reject : ∀ r, keep (EvReject r) = false.
Hypothesis keep_text : keep EvText = false.
Hypothesis keep_ai : ∀ p n, keep (EvAiRun p n) = false.
Hypothesis keep_get : ∀ k, keep (EvRateGet k) = false.
Hypothesis keep_put : ∀ k v t, keep (EvRatePut k v t) = false.
Hypothesis keep_fallback : ∀ t ok, keep (EvForward ErrorFallback t ok) = false.

Lemma checkRateLimit_quiet env w s st : wp (checkRateLimit env w s) (quiet keep st) st.
Proof. unfold checkRateLimit, kv_get, quiet. run_block. all: sifted. Qed.

Lemma classifyEmail_quiet ai s b st : wp (classifyEmail ai s b) (quiet keep st) st.
Proof. unfold classifyEmail, ai_run, quiet. run_block. all: sifted. Qed.

Lemma analyzeSentiment_quiet ai b st : wp (analyzeSentiment ai b) (quiet keep st) st.
Proof. unfold analyzeSentiment, ai_run, quiet. run_block. all: sifted. Qed.

Lemma checkUrgency_quiet ai s b st : wp (checkUrgency ai s b) (quiet keep st) st.
Proof. unfold checkUrgency, ai_run, quiet. run_block. all: sifted. Qed.

Lemma extractEntities_quiet ai b st : wp (extractEntities ai b) (quiet keep st) st.
Proof. unfold extractEntities, ai_run, quiet. run_block. all: sifted. Qed.

Lemma handler_quiet msg st : wp (handler msg) (quiet keep st) st.
Proof. unfold handler, forward, quiet. run_block. all: sifted. Qed.

Lemma updateRateLimit_hushed env w s st :
  wp (updateRateLimit env w s) (quiet keep st) st.
Proof. unfold updateRateLimit, kv_get, kv_put, quiet. run_block. all: sifted. Qed.

Lemma aiProcessing_quiet env msg st : wp (aiProcessing env msg) (quiet keep st) st.
Proof.
  unfold aiProcessing. destruct (AI env) as [run|]; [|by apply wp_ret].
  repeat first [ wp_step
               | through classifyEmail_quiet
               | through analyzeSentiment_quiet
               | through checkUrgency_quiet
               | through extractEntities_quiet ].
  all: settle.
Qed.

End Quiet.

(** ** What is written on a delivered message *)

Lemma sendToEvidenceRouter_stampless env w msg ai ws st :
  wp (sendToEvidenceRouter env w msg ai ws) (quiet is_delivery st) st.
Proof. unfold sendToEvidenceRouter, forward, quiet. run_block. all: sifted. Qed.

Lemma localPartRouting_stampless env w msg ai l D st :
  wp (localPartRouting env w msg ai l D) (quiet is_delivery st) st.
Proof.
  unfold localPartRouting, workstreamBranch.
  repeat first [ wp_step | through sendToEvidenceRouter_stampless ].
  all: settle.
Qed.

Lemma smartRouting_insights env w msg ai l t st :
  wp (smartRouting env w msg ai l t)
     (fun _ st' => view is_delivery (trace st')
                   = view is_delivery (trace st) ++ insights_of env ai l t) st.
Proof.
  unfold smartRouting, handleFinancialEmail, insights_of.
  repeat first [ wp_step | through sendToEvidenceRouter_stampless ].
  all: repeat match goal with
              | E : _ = true |- _ => rewrite E
              | E : _ = false |- _ => rewrite E
              end.
  all: cbn [andb orb negb]; settle.
Qed.

Lemma no_decisive_no_forward tr : decisive tr = [] → view is_forward tr = [].
Proof.
  induction tr as [|e tr IH]; [done|]. rewrite decisive_cons.
  unfold view in *. destruct e as [[]| | | | | | | | | | | | | |]; cbn [is_decisive];
    first [ discriminate
          | intros H; rewrite filter_cons_False by (by intros []); by apply IH ].
Qed.

(** [message.forward], with the count of the calls before it read off the
    view of the forwards. *)
Lemma wp_forward msg site t (Q : result unit → State → Prop) st :
  (let ok := msg_forward_ok msg (length (view is_forward (trace st))) t in
   Q (if ok then Ok tt else Throw)
     {| trace := trace st ++ [EvForward site t ok];
        rate_store := rate_store st |}) →
  wp (forward msg site t) Q st.
Proof.
  cbv zeta. unfold forward, wp, bind, get_state, emit, view. cbn [fst snd].
  by destruct (msg_forward_ok msg _ t).
Qed.

Lemma deliver_stamps env w msg ai l dom t st :
  view is_forward (trace st) = [] →
  wp (deliver env w msg ai l dom t)
     (fun _ st' =>
        view is_delivery (trace st')
        = view is_delivery (trace st)
          ++ stamps w msg ai l dom
          ++ [EvForward Direct t (msg_forward_ok msg 0 t)]
          ++ (if msg_forward_ok msg 0 t
              then records env msg ai l dom t else [])) st.
Proof.
  intros Hnone. unfold deliver, stamps, records, is_priority.
  repeat first [ wp_step
               | through (updateRateLimit_hushed is_delivery)
               | apply wp_forward; cbv zeta; sift; rewrite Hnone;
                 cbn [length];
                 destruct (msg_forward_ok msg 0 t) eqn:?; lazy beta iota ].
  all: settle.
Qed.

Lemma stamps_tail env w msg ai st0 dec (r : result (option target)) st d pre :
  decisive (trace st0) = [] →
  same st0 d st →
  view is_delivery (trace st) = pre →
  follows dec r d →
  let Q := fun st' : State =>
    view is_delivery (trace st') = pre ++ delivered env w msg ai dec in
  match r with
  | Ok a =>
      wp (match a with
          | Some forwardTo =>
              deliver env w msg ai (recipientLocal msg) (recipientDomain msg)
                      forwardTo
          | None => ret tt
          end)
         (fun r' st' =>
            match r' with
            | Ok _ => Q st'
            | Throw => wp (handler msg) (fun _ st'' => Q st'') st'
            end) st
  | Throw => wp (handler msg) (fun _ st'' => Q st'') st
  end.
Proof.
  intros N S V F Q.
  assert (Hh : ∀ st1, Q st1 → wp (handler msg) (fun _ st'' => Q st'') st1).
  { intros st1 H1.
    eapply wp_mono;
      [apply (handler_quiet is_delivery); first [done | by intros []]|].
    intros ? st' V'. unfold quiet in V'. unfold Q. by rewrite V'. }
  destruct dec as [|ws|t]; cbn in F.
  - destruct F as [-> ->]. apply wp_ret. unfold Q. cbn. by rewrite app_nil_r.
  - assert (Q st) as Hst by (unfold Q; cbn; by rewrite app_nil_r).
    destruct F as [[Hf _] | [Hf _]]; destruct r as [[?|]|];
      try discriminate Hf.
    + by apply wp_ret.
    + by apply Hh.
  - destruct F as [-> ->].
    assert (Hnone : view is_forward (trace st) = []).
    { apply no_decisive_no_forward. by rewrite (proj1 S), N. }
    eapply wp_mono; [by apply deliver_stamps|].
    intros r st' V'.
    assert (Q st') as Hst' by (unfold Q; cbn [delivered]; by rewrite V', V).
    destruct r; [exact Hst' | by apply Hh].
Qed.

Lemma routeAndDeliver_stamps env w msg ai st0 st :
  decisive (trace st0) = [] →
  same st0 [] st →
  wp (try_catch (routeAndDeliver env w msg ai) (handler msg))
     (fun _ st' =>
        view is_delivery (trace st')
        = view is_delivery (trace st)
          ++ insights_record env ai (recipientLocal msg)
          ++ delivered env w msg ai (resolve env ai (recipientLocal msg))) st.
Proof.
  intros N S0. unfold routeAndDeliver, resolve, insights_record.
  apply wp_try_catch, wp_bind, wp_bind.
  eapply wp_mono;
    [apply wp_conj;
       [apply localPartRouting_decides | apply localPartRouting_stampless]|].
  intros r3 st3 [(d3 & S3 & F3) V3]. unfold quiet in V3.
  pose proof (same_trans _ _ _ _ _ S0 S3) as S03. cbn [app] in S03.
  destruct (local_decision env (default_forward env) (recipientLocal msg))
    as [|ws|t] eqn:E.
  - pose proof (stamps_tail env w msg ai st0 Discard r3 st3 d3 _ N S03 V3 F3)
      as T.
    destruct F3 as [-> ->]. apply wp_ret. exact T.
  - pose proof (stamps_tail env w msg ai st0 (DispatchTo ws) r3 st3 d3 _ N S03
                  V3 F3) as T.
    destruct F3 as [[Hf _] | [Hf _]]; destruct r3 as [[?|]|];
      try discriminate Hf.
    + apply wp_ret. exact T.
    + exact T.
  - destruct F3 as [-> ->]. destruct ai as [ai|].
    + eapply wp_mono;
        [apply wp_conj;
           [apply smartRouting_decides | apply smartRouting_insights]|].
      intros r4 st4 [(d4 & S4 & F4) V4]. rewrite V3 in V4.
      pose proof (same_trans _ _ _ _ _ S03 S4) as S04. cbn [app] in S04.
      pose proof (stamps_tail env w msg (Some ai) st0 _ r4 st4 d4 _ N S04 V4
                    F4) as T.
      cbv zeta in T. rewrite <- app_assoc in T. exact T.
    + apply wp_ret.
      apply (stamps_tail env w msg None st0 (ForwardTo t) (Ok (Some t)) st3 []
               _ N S03 V3). by split.
Qed.

(** X12. What a delivery does with the message. For a message that passed
    the screening, the header writes, the direct forwards, the writes to
    EMAIL_ANALYTICS and the webhook calls of the invocation are exactly
    these, in this order. First the insights record of [storeAIInsights],
    when there are insights, EMAIL_ANALYTICS is bound, the local-part rules
    chose a forward and the legal rule did not dispatch the message: it is
    written before the invoice and compliance rules, so also when one of them
    dispatches the message. Then, only when the routing rules decide on a
    forward: the five tracking headers, the three AI headers when there are
    insights (and the entity count when an entity was found), X-Priority and
    Importance when the message has priority, one direct forward to the
    decided address with the outcome that the platform gives to the first
    call of [forward], and, only if the platform accepted it, the record of
    [logAnalytics] when EMAIL_ANALYTICS is bound and the webhook call when
    the message has priority and WEBHOOK_URL is set. A message that the
    dispatch fallback or the error handler alone forwards carries none of the
    headers. *)
Theorem headers_of_a_delivery env w msg store st1 st2 ai :
  checkRateLimit env w (msg_from msg) (initial store) = (Ok false, st1) →
  isSpamQuick msg = false →
  aiProcessing env msg st1 = (Ok (Some ai), st2) →
  view is_delivery (run_trace env w msg store)
  = insights_record env ai (recipientLocal msg)
    ++ delivered env w msg ai (resolve env ai (recipientLocal msg)).
Proof.
  intros H1 H2 H3.
  assert (V1 : quiet is_delivery (initial store) (Ok false) st1).
  { eapply wp_run; [|exact H1].
    apply checkRateLimit_quiet; first [done | by intros []]. }
  assert (V2 : quiet is_delivery st1 (Ok (Some ai)) st2).
  { eapply wp_run; [|exact H3].
    apply aiProcessing_quiet; first [done | by intros []]. }
  unfold quiet in V1, V2. rewrite V1 in V2. cbn in V2.
  pose proof (wp_run _ _ _ _ _ (checkRateLimit_unseen env w (msg_from msg)
                                  (initial store)) H1) as [S1 _].
  pose proof (wp_run _ _ _ _ _ (aiProcessing_same env msg st1) H3)
    as (d & S2 & [(ai' & _ & ->) | [[=] _]]).
  pose proof (same_trans _ _ _ _ _ S1 S2) as S. cbn [app] in S.
  pose proof (routeAndDeliver_stamps env w msg ai (initial store) st2
                eq_refl S) as Hd.
  unfold wp in Hd. rewrite V2 in Hd. cbn [app] in Hd.
  unfold run_trace, run, email.
  unfold try_catch at 1. unfold bind at 1. rewrite H1, H2.
  unfold bind at 1. rewrite H3.
  unfold try_catch in Hd.
  destruct (routeAndDeliver env w msg ai st2) as [[[]|] st3]; cbn [snd] in *;
    exact Hd.
Qed.

Lemma headers_of_a_delivery_witness :
  view is_delivery
    (run_trace Cases.env_ledger (Sample.world 0)
       (Sample.message "team@chitty.cc" "Deadline for the invoice") ∅)
  = [EvInsightsPut (Addr MGMT_FORWARD)].
Proof.
  refine (headers_of_a_delivery Cases.env_ledger (Sample.world 0)
            (Sample.message "team@chitty.cc" "Deadline for the invoice") ∅
            (snd (checkRateLimit Cases.env_ledger (Sample.world 0)
                    "alice@example.org" (initial ∅)))
            (snd (aiProcessing Cases.env_ledger
                    (Sample.message "team@chitty.cc" "Deadline for the invoice")
                    (snd (checkRateLimit Cases.env_ledger (Sample.world 0)
                            "alice@example.org" (initial ∅)))))
            (Some {| classification := "invoice"; sentiment := "neutral";
                     urgency := "high"; entities := [] |})
            _ _ _).
  all: vm_compute; reflexivity.
Defined.

(** ** Submissions to the workstream routers *)

Lemma sendToEvidenceRouter_submits env w msg ai ws st :
  wp (sendToEvidenceRouter env w msg ai ws)
     (fun _ st' => view is_submission (trace st')
                   = view is_submission (trace st) ++ submission env w msg ws)
     st.
Proof.
  unfold sendToEvidenceRouter, forward, submission. run_block. all: sifted.
Qed.

Lemma deliver_submits_nothing env w msg ai l dom t st :
  wp (deliver env w msg ai l dom t) (quiet is_submission st) st.
Proof.
  unfold deliver, forward.
  repeat first [ wp_step | through (updateRateLimit_hushed is_submission) ].
  all: settle.
Qed.

(** Run a call of the dispatcher. *)
Ltac submit :=
  eapply wp_mono; [apply sendToEvidenceRouter_submits|];
  let r := fresh "r" in let V := fresh "V" in
  intros r ? V; destruct r; lazy beta iota.

Lemma localPartRouting_submits env w msg ai l D st :
  wp (localPartRouting env w msg ai l D)
     (fun _ st' =>
        view is_submission (trace st')
        = view is_submission (trace st)
          ++ submitted env w msg (local_decision env D l)) st.
Proof.
  unfold localPartRouting, workstreamBranch, submitted.
  repeat first [ wp_step | submit ].
  all: decide_rules; settle.
Qed.

Lemma smartRouting_submits env w msg ai l t st :
  wp (smartRouting env w msg ai l t)
     (fun _ st' =>
        view is_submission (trace st')
        = view is_submission (trace st)
          ++ submitted env w msg (smart_decision env ai l t)) st.
Proof.
  unfold smartRouting, handleFinancialEmail, submitted.
  repeat first [ wp_step | submit ].
  all: decide_rules; settle.
Qed.

Lemma routeAndDeliver_submits env w msg ai st :
  wp (try_catch (routeAndDeliver env w msg ai) (handler msg))
     (fun _ st' =>
        view is_submission (trace st')
        = view is_submission (trace st)
          ++ submitted env w msg (resolve env ai (recipientLocal msg))) st.
Proof.
  unfold routeAndDeliver, resolve.
  assert (Hh : ∀ st1 d,
             view is_submission (trace st1)
             = view is_submission (trace st) ++ d →
             wp (handler msg)
                (fun _ st' => view is_submission (trace st')
                              = view is_submission (trace st) ++ d) st1).
  { intros st1 d V.
    eapply wp_mono;
      [apply (handler_quiet is_submission); first [done | by intros []]|].
    intros ? st' V'. unfold quiet in V'. by rewrite V'. }
  assert (Hd : ∀ st1 t d,
             view is_submission (trace st1)
             = view is_submission (trace st) ++ d →
             wp (deliver env w msg ai (recipientLocal msg)
                         (recipientDomain msg) t)
                (fun r st' =>
                   match r with
                   | Ok _ => view is_submission (trace st')
                             = view is_submission (trace st) ++ d
                   | Throw =>
                       wp (handler msg)
                          (fun _ st'' => view is_submission (trace st'')
                                         = view is_submission (trace st) ++ d)
                          st'
                   end) st1).
  { intros st1 t d V. eapply wp_mono; [apply deliver_submits_nothing|].
    intros r st' V'. unfold quiet in V'. rewrite <- V' in V.
    destruct r; [exact V | by apply Hh]. }
  apply wp_try_catch, wp_bind, wp_bind.
  eapply wp_mono;
    [apply wp_conj;
       [apply localPartRouting_decides | apply localPartRouting_submits]|].
  intros r3 st3 [(d3 & _ & F3) V3].
  destruct (local_decision env (default_forward env) (recipientLocal msg))
    as [|ws|t] eqn:E; cbn in F3; cbn [submitted] in V3.
  - destruct F3 as [-> ->]. by repeat wp_step.
  - destruct F3 as [[Hf _] | [Hf _]]; destruct r3 as [[?|]|];
      try discriminate Hf.
    + by repeat wp_step.
    + by apply Hh.
  - destruct F3 as [-> ->]. destruct ai as [ai|].
    + eapply wp_mono;
        [apply wp_conj;
           [apply smartRouting_decides | apply smartRouting_submits]|].
      intros r4 st4 [(d4 & _ & F4) V4].
      rewrite V3, app_nil_r in V4.
      destruct (smart_decision env ai (recipientLocal msg) t) as [|ws'|t'];
        cbn in F4; cbn [submitted] in V4.
      * destruct F4 as [-> ->]. by repeat wp_step.
      * destruct F4 as [[Hf _] | [Hf _]]; destruct r4 as [[?|]|];
          try discriminate Hf.
        -- by repeat wp_step.
        -- by apply Hh.
      * destruct F4 as [-> ->]. by apply Hd.
    + apply wp_ret. by apply Hd.
Qed.

Lemma email_submits env w msg store st1 st2 ai :
  checkRateLimit env w (msg_from msg) (initial store) = (Ok false, st1) →
  isSpamQuick msg = false →
  aiProcessing env msg st1 = (Ok (Some ai), st2) →
  view is_submission (run_trace env w msg store)
  = submitted env w msg (resolve env ai (recipientLocal msg)).
Proof.
  intros H1 H2 H3.
  assert (V1 : quiet is_submission (initial store) (Ok false) st1).
  { eapply wp_run; [|exact H1].
    apply checkRateLimit_quiet; first [done | by intros []]. }
  assert (V2 : quiet is_submission st1 (Ok (Some ai)) st2).
  { eapply wp_run; [|exact H3].
    apply aiProcessing_quiet; first [done | by intros []]. }
  unfold quiet in V1, V2. rewrite V1 in V2. cbn in V2.
  pose proof (routeAndDeliver_submits env w msg ai st2) as Hd.
  unfold wp in Hd. rewrite V2 in Hd. cbn [app] in Hd.
  unfold run_trace, run, email.
  unfold try_catch at 1. unfold bind at 1. rewrite H1, H2.
  unfold bind at 1. rewrite H3.
  unfold try_catch in Hd.
  destruct (routeAndDeliver env w msg ai st2) as [[[]|] st3]; cbn [snd] in *;
    exact Hd.
Qed.

(** X13. The router submissions of an invocation. A message that passed the
    screening is submitted to a router only when the routing rules decide on
    a workstream dispatch, and then in one call of the dispatcher: one POST
    to FINANCE_ROUTER_URL (or, if that is unset, EVIDENCE_ROUTER_URL) for the
    finance workstream and to EVIDENCE_ROUTER_URL for every other workstream,
    the compliance workstream included, logged as taken exactly when the
    router answered with success; no POST at all, and a logged failure, when
    the raw message cannot be read or that URL is unset. *)
Theorem router_submissions env w msg store st1 st2 ai :
  checkRateLimit env w (msg_from msg) (initial store) = (Ok false, st1) →
  isSpamQuick msg = false →
  aiProcessing env msg st1 = (Ok (Some ai), st2) →
  view is_submission (run_trace env w msg store)
  = match resolve env ai (recipientLocal msg) with
    | DispatchTo ws =>
        match msg_raw msg,
              (if String.eqb ws "finance"
               then match Js.truthy (FINANCE_ROUTER_URL env) with
                    | Some u => Some u
                    | None => Js.truthy (EVIDENCE_ROUTER_URL env)
                    end
               else Js.truthy (EVIDENCE_ROUTER_URL env)) with
        | Some _, Some url =>
            [ EvRouterPost url ws (fetch w url ws);
              EvLog (match fetch w url ws with
                     | FetchOk => LogRouterOk ws
                     | _ => LogRouterFailed ws
                     end) ]
        | _, _ => [EvLog (LogRouterFailed ws)]
        end
    | _ => []
    end.
Proof. exact (email_submits env w msg store st1 st2 ai). Qed.

Lemma router_submissions_witness :
  view is_submission
    (run_trace Cases.env_routers (Sample.world 0)
       (Sample.message "audit@chitty.cc" "Quarterly review") ∅)
  = [ EvRouterPost "https://evidence.example" "compliance" FetchOk;
      EvLog (LogRouterOk "compliance") ].
Proof.
  refine (router_submissions Cases.env_routers (Sample.world 0)
            (Sample.message "audit@chitty.cc" "Quarterly review") ∅
            (snd (checkRateLimit Cases.env_routers (Sample.world 0)
                    "alice@example.org" (initial ∅)))
            (snd (checkRateLimit Cases.env_routers (Sample.world 0)
                    "alice@example.org" (initial ∅)))
            None _ _ _).
  all: vm_compute; reflexivity.
Defined.

Lemma view_elem keep e tr : e ∈ view keep tr ↔ keep e = true ∧ e ∈ tr.
Proof.
  unfold view. rewrite list_elem_of_filter.
  split; intros [H ?]; (split; [|done]).
  - by apply Is_true_true.
  - by apply Is_true_true.
Qed.

Lemma decisive_elem e tr : e ∈ decisive tr → e ∈ tr.
Proof. unfold decisive. rewrite list_elem_of_filter. by intros [_ ?]. Qed.

(** X14. COMPLIANCE_ROUTER_URL only switches the compliance dispatch on: the
    dispatcher posts to EVIDENCE_ROUTER_URL. A message to a compliance
    address that passed the screening, with COMPLIANCE_ROUTER_URL set and
    EVIDENCE_ROUTER_URL unset, is posted to no router; the submission is
    logged as failed and the message is forwarded to management by the
    dispatch fallback (and to the safe default if the platform refuses that
    forward). *)
Theorem compliance_mail_needs_the_evidence_router
    env w msg store st1 st2 ai :
  checkRateLimit env w (msg_from msg) (initial store) = (Ok false, st1) →
  isSpamQuick msg = false →
  aiProcessing env msg st1 = (Ok (Some ai), st2) →
  Js.elem (recipientLocal msg) compliance_locals = true →
  configured (COMPLIANCE_ROUTER_URL env) = true →
  configured (EVIDENCE_ROUTER_URL env) = false →
  let tr := run_trace env w msg store in
  view is_submission tr = [EvLog (LogRouterFailed "compliance")]
  ∧ (decisive tr = [ EvLog (LogRouterFailed "compliance");
                     EvForward DispatchFallback (Addr MGMT_FORWARD) true ]
     ∨ ∃ ok, decisive tr
             = [ EvLog (LogRouterFailed "compliance");
                 EvForward DispatchFallback (Addr MGMT_FORWARD) false;
                 EvForward ErrorFallback (Addr SAFE_DEFAULT) ok ]).
Proof.
  intros H1 H2 H3 Hl Hc He tr.
  assert (Hdec : resolve env ai (recipientLocal msg) = DispatchTo "compliance").
  { unfold resolve.
    rewrite (workstream_local_decision env _ _ "compliance" compliance_locals
               (COMPLIANCE_ROUTER_URL env)), Hc; [by destruct ai| |exact Hl].
    do 2 (apply elem_of_cons; right). apply elem_of_cons. by left. }
  assert (Hv : view is_submission tr = [EvLog (LogRouterFailed "compliance")]).
  { unfold tr. rewrite (email_submits env w msg store st1 st2 ai H1 H2 H3), Hdec.
    unfold submitted, submission, routerUrl. cbn [String.eqb Ascii.eqb Bool.eqb].
    unfold configured in He.
    destruct (Js.truthy (EVIDENCE_ROUTER_URL env)) as [u|] eqn:Eu.
    - exfalso. apply bool_decide_eq_false in He. apply He. by exists u.
    - by destruct (msg_raw msg). }
  split; [exact Hv|].
  pose proof (email_resolves env w msg store st1 st2 ai H1 H2 H3) as H.
  rewrite Hdec in H. cbn [achieved] in H. fold tr in H.
  destruct H as [H | [H | H]]; [exfalso | by left | by right].
  assert (EvLog (LogRouterOk "compliance") ∈ view is_submission tr) as Hin.
  { apply view_elem. split; [done|]. apply decisive_elem. rewrite H.
    apply elem_of_cons. by left. }
  rewrite Hv in Hin. apply elem_of_cons in Hin as [[=] | Hin].
  by apply elem_of_nil in Hin.
Qed.

Lemma compliance_mail_witness :
  let tr := run_trace Cases.env_compliance_only (Sample.world 0)
              (Sample.message "audit@chitty.cc" "Quarterly review") ∅ in
  view is_submission tr = [EvLog (LogRouterFailed "compliance")]
  ∧ (decisive tr = [ EvLog (LogRouterFailed "compliance");
                     EvForward DispatchFallback (Addr MGMT_FORWARD) true ]
     ∨ ∃ ok, decisive tr
             = [ EvLog (LogRouterFailed "compliance");
                 EvForward DispatchFallback (Addr MGMT_FORWARD) false;
                 EvForward ErrorFallback (Addr SAFE_DEFAULT) ok ]).
Proof.
  refine (compliance_mail_needs_the_evidence_router
            Cases.env_compliance_only (Sample.world 0)
            (Sample.message "audit@chitty.cc" "Quarterly review") ∅
            (snd (checkRateLimit Cases.env_compliance_only (Sample.world 0)
                    "alice@example.org" (initial ∅)))
            (snd (checkRateLimit Cases.env_compliance_only (Sample.world 0)
                    "alice@example.org" (initial ∅)))
            None _ _ _ _ _ _).
  all: vm_compute; reflexivity.
Defined.

(** ** Strings: lower-casing, splitting and the sender patterns *)

Lemma append_cons c (a b : string) : String c a +:+ b = String c (a +:+ b).
Proof. reflexivity. Qed.

Lemma append_nil (b : string) : EmptyString +:+ b = b.
Proof. reflexivity. Qed.

Lemma append_nil_r (a : string) : a +:+ EmptyString = a.
Proof. induction a as [|x a IH]; [done|]. by rewrite append_cons, IH. Qed.

Lemma toLowerCase_app a b :
  Js.toLowerCase (a +:+ b) = Js.toLowerCase a +:+ Js.toLowerCase b.
Proof.
  induction a as [|x a IH]; [done|].
  rewrite append_cons. cbn [Js.toLowerCase]. by rewrite append_cons, IH.
Qed.

Lemma lower_ascii_digit c : Js.is_digit c = true → Js.lower_ascii c = c.
Proof.
  unfold Js.is_digit, Js.lower_ascii. cbv zeta.
  intros [H1 H2]%andb_true_iff.
  apply N.leb_le in H1, H2.
  destruct (65 <=? N_of_ascii c)%N eqn:E; [|done].
  apply N.leb_le in E. lia.
Qed.

Lemma toLowerCase_digits s : all_digits s = true → Js.toLowerCase s = s.
Proof.
  induction s as [|c s IH]; [done|]. cbn [all_digits Js.toLowerCase].
  intros [Hc Hs]%andb_true_iff. by rewrite (lower_ascii_digit c Hc), IH.
Qed.

Lemma lower_ascii_at c : Ascii.eqb (Js.lower_ascii c) "@" = Ascii.eqb c "@".
Proof.
  destruct c as [[] [] [] [] [] [] [] []]; reflexivity.
Qed.

Lemma toLowerCase_free_of s :
  free_of "@" (Js.toLowerCase s) = free_of "@" s.
Proof.
  induction s as [|c s IH]; [done|]. cbn [free_of Js.toLowerCase].
  by rewrite lower_ascii_at, IH.
Qed.

Lemma includes_app_l needle a s :
  Js.includes needle s = true → Js.includes needle (a +:+ s) = true.
Proof.
  intros H. induction a as [|x a IH]; [exact H|].
  rewrite append_cons. cbn [Js.includes]. rewrite IH. apply orb_true_r.
Qed.

Lemma prefix_app a b : String.prefix a (a +:+ b) = true.
Proof.
  induction a as [|x a IH]; [by destruct b|].
  rewrite append_cons. cbn [String.prefix].
  by destruct (ascii_dec x x).
Qed.

Lemma includes_prefix needle s :
  String.prefix needle s = true → Js.includes needle s = true.
Proof. intros H. destruct s; cbn [Js.includes]; by rewrite H. Qed.

Lemma includes_infix needle a b : Js.includes needle (a +:+ needle +:+ b) = true.
Proof. apply includes_app_l, includes_prefix, prefix_app. Qed.

Lemma match_digits_at_app_l a s :
  Js.match_digits_at s = true → Js.match_digits_at (a +:+ s) = true.
Proof.
  intros H. induction a as [|x a IH]; [exact H|].
  rewrite append_cons. cbn [Js.match_digits_at]. rewrite IH. apply orb_true_r.
Qed.

Lemma match_digits_at_run digits rest :
  all_digits digits = true → (5 <= String.length digits)%nat →
  Js.match_digits_at (digits +:+ String "@" rest) = true.
Proof.
  induction digits as [|a digits IH]; cbn [String.length]; [lia|].
  intros Hd Hlen.
  destruct (decide (5 <= String.length digits)%nat) as [Hl | Hl].
  - rewrite append_cons. cbn [Js.match_digits_at].
    rewrite IH; [apply orb_true_r| |exact Hl].
    cbn [all_digits] in Hd. by apply andb_true_iff in Hd as [_ ?].
  - destruct digits as [|b [|c [|d [|e [|f ?]]]]];
      cbn [String.length] in *; try lia.
    cbn [all_digits] in Hd. rewrite !append_cons, append_nil.
    cbn [Js.match_digits_at Js.five_digits_at].
    repeat (apply andb_true_iff in Hd as [? Hd]).
    repeat match goal with
           | H : Js.is_digit _ = true |- _ => rewrite H; clear H
           end.
    reflexivity.
Qed.

(** X15. The sender patterns of the quick spam check: a sender address in
    which an at sign follows five or more decimal digits, or in which two
    dots follow each other, is spam, whatever the subject. *)
Theorem suspicious_sender_is_spam msg a b :
  (∃ digits, msg_from msg = a +:+ digits +:+ String "@" b
             ∧ all_digits digits = true ∧ (5 <= String.length digits)%nat)
  ∨ msg_from msg = a +:+ ".." +:+ b →
  isSpamQuick msg = true.
Proof.
  intros H. unfold isSpamQuick. apply orb_true_iff. right.
  apply orb_true_iff.
  destruct H as [(digits & -> & Hd & Hlen) | ->].
  - left. rewrite !toLowerCase_app. apply match_digits_at_app_l.
    rewrite (toLowerCase_digits digits Hd). cbn [Js.toLowerCase].
    by apply match_digits_at_run.
  - right. rewrite !toLowerCase_app. apply (includes_infix ".." _ _).
Qed.

Lemma suspicious_sender_witness :
  isSpamQuick {| msg_from := "promo1234567@mail.example";
                 msg_to := "team@chitty.cc"; msg_subject := None;
                 msg_text := None; msg_raw := None;
                 msg_forward_ok := fun _ _ => true |} = true.
Proof.
  apply (suspicious_sender_is_spam _ "promo" "mail.example").
  left. exists "1234567". cbn. split; [reflexivity | split; [reflexivity | lia]].
Defined.

(** ** The recipient address *)

Lemma rev_app_append s1 s2 s :
  String.rev_app s1 s2 +:+ s = String.rev_app s1 (s2 +:+ s).
Proof.
  revert s2. induction s1 as [|c s1 IH]; intros s2; [done|].
  cbn [String.rev_app]. by rewrite IH, append_cons.
Qed.

Lemma rev_snoc c cur s : String.rev (String c cur) +:+ s = String.rev cur +:+ String c s.
Proof.
  unfold String.rev. cbn [String.rev_app].
  by rewrite !rev_app_append, append_cons, !append_nil.
Qed.

Lemma split_go_free sep cur s :
  free_of sep s = true → Js.split_go sep cur s = [String.rev cur +:+ s].
Proof.
  revert cur. induction s as [|c s IH]; intros cur; cbn [free_of Js.split_go].
  - intros _. by rewrite append_nil_r.
  - intros [Hc Hs]%andb_true_iff. apply negb_true_iff in Hc. rewrite Hc.
    by rewrite (IH _ Hs), rev_snoc.
Qed.

Lemma split_go_at sep cur l r :
  free_of sep l = true →
  Js.split_go sep cur (l +:+ String sep r)
  = (String.rev cur +:+ l) :: Js.split_go sep EmptyString r.
Proof.
  revert cur. induction l as [|c l IH]; intros cur.
  - intros _. rewrite append_nil. cbn [Js.split_go].
    by rewrite Ascii.eqb_refl, append_nil_r.
  - cbn [free_of]. intros [Hc Hl]%andb_true_iff. apply negb_true_iff in Hc.
    rewrite append_cons. cbn [Js.split_go]. rewrite Hc.
    by rewrite (IH _ Hl), rev_snoc.
Qed.

(** X16. The recipient address is split at the at sign after lower-casing:
    for an address with one at sign the local part and the domain are the
    lower-cased halves; for an address without an at sign the local part is
    the whole lower-cased address and there is no domain. *)
Theorem recipient_of_an_address msg l :
  free_of "@" l = true →
  (msg_to msg = l →
   recipientLocal msg = Js.toLowerCase l ∧ recipientDomain msg = None)
  ∧ (∀ d, free_of "@" d = true → msg_to msg = l +:+ String "@" d →
          recipientLocal msg = Js.toLowerCase l
          ∧ recipientDomain msg = Some (Js.toLowerCase d)).
Proof.
  intros Hl. unfold recipientLocal, recipientDomain, recipient_parts, Js.split.
  rewrite <- toLowerCase_free_of in Hl. split.
  - intros ->. by rewrite (split_go_free _ _ _ Hl).
  - intros d Hd ->. rewrite <- toLowerCase_free_of in Hd.
    rewrite toLowerCase_app. cbn [Js.toLowerCase].
    change (Js.lower_ascii "@") with "@"%char.
    by rewrite (split_go_at _ _ _ _ Hl), (split_go_free _ _ _ Hd).
Qed.

Lemma recipient_of_an_address_witness :
  recipientLocal (Sample.message "Billing@Chitty.CC" "hello") = "billing"
  ∧ recipientDomain (Sample.message "Billing@Chitty.CC" "hello")
    = Some "chitty.cc".
Proof.
  apply (proj2 (recipient_of_an_address
                  (Sample.message "Billing@Chitty.CC" "hello") "Billing"
                  eq_refl) "Chitty.CC"); reflexivity.
Defined.

(** ** A sender over the limit *)

(** X17. The rate limit comes first: when the store answers and the sender's
    live record counts more than 50, the invocation reads that record, logs
    and rejects with the rate-limit reason, and does nothing else, whatever
    the message is; the store is left as it was. *)
Theorem limited_sender_is_rejected_first env w msg store e count window :
  RATE_LIMITS env = true → kv_get_ok w = true →
  store !! rate_key (msg_from msg) = Some e → kv_live w e = true →
  kv_value e = RateJson count window → 50 < count →
  run env w msg store
  = (Ok tt,
     {| trace := [ EvRateGet (rate_key (msg_from msg)); EvLog LogRateLimited;
                   EvReject RATE_LIMITED ];
        rate_store := store |}).
Proof.
  intros Hrl Hget Hlook Hlive Hval Hcount.
  unfold run, email, checkRateLimit, kv_get. rewrite Hrl, Hget.
  unfold try_catch, bind, emit, ret, get_state, setReject, initial.
  cbn [negb fst snd trace rate_store app]. rewrite Hlook, Hlive, Hval.
  apply Z.ltb_lt in Hcount. by rewrite Hcount.
Qed.

Lemma limited_sender_witness :
  run Sample.env (Sample.world 0) (Sample.message "nick@chitty.cc" "hello")
      {[ rate_key "alice@example.org" := KvEntry (RateJson 51 0) 3600000 ]}
  = (Ok tt,
     {| trace := [ EvRateGet (rate_key "alice@example.org");
                   EvLog LogRateLimited; EvReject RATE_LIMITED ];
        rate_store :=
          {[ rate_key "alice@example.org" := KvEntry (RateJson 51 0) 3600000 ]}
     |}).
Proof.
  refine (limited_sender_is_rejected_first Sample.env (Sample.world 0)
            (Sample.message "nick@chitty.cc" "hello") _
            (KvEntry (RateJson 51 0) 3600000) 51 0 _ _ _ _ _ _).
  - reflexivity.
  - reflexivity.
  - vm_compute. reflexivity.
  - vm_compute. reflexivity.
  - reflexivity.
  - lia.
Defined.

(** ** The archived v2 worker: one mailbox, and no handler around the store *)

Lemma v2_defaultForward key c :
  V2.DOMAIN_CONFIG !! key = Some c → V2.defaultForward c = V2.MAIN.
Proof.
  unfold V2.DOMAIN_CONFIG.
  intros H%elem_of_list_to_map_2.
  repeat (apply elem_of_cons in H as [[= _ ->] | H]; [done|]).
  by apply elem_of_nil in H.
Qed.

Lemma v2_specialRoutes key a : V2.specialRoutes !! key = Some a → a = V2.MAIN.
Proof.
  unfold V2.specialRoutes.
  intros H%elem_of_list_to_map_2.
  repeat (apply elem_of_cons in H as [[= _ ->] | H]; [done|]).
  by apply elem_of_nil in H.
Qed.

Lemma v2_forwardTo msg dc :
  V2.domain_config (recipientDomain msg) = Some dc →
  match V2.special_route (recipientLocal msg) with
  | Some t => t
  | None => match dc with
            | Some c => Addr (V2.defaultForward c)
            | None => NotAddress
            end
  end ∈ [Addr V2.MAIN; NotAddress].
Proof.
  intros Hdc.
  assert (Hc : ∀ c, dc = Some c → V2.defaultForward c = V2.MAIN).
  { intros c ->. unfold V2.domain_config in Hdc.
    destruct (V2.DOMAIN_CONFIG !! _) as [c'|] eqn:E.
    - injection Hdc as ->. by apply (v2_defaultForward _ _ E).
    - by destruct (Js.elem _ _). }
  unfold V2.special_route.
  destruct (V2.specialRoutes !! recipientLocal msg) as [a|] eqn:E.
  - apply elem_of_cons. left. f_equal. by apply (v2_specialRoutes _ _ E).
  - destruct (Js.elem _ _).
    + apply elem_of_cons. right. apply elem_of_cons. by left.
    + destruct dc as [c|].
      * rewrite (Hc c eq_refl). apply elem_of_cons. by left.
      * apply elem_of_cons. right. apply elem_of_cons. by left.
Qed.

Lemma v2_checkRateLimit_quiet env w s st :
  wp (V2.checkRateLimit env w s) (quiet is_forward st) st.
Proof. unfold V2.checkRateLimit, kv_get, quiet. run_block. all: sifted. Qed.

Lemma v2_updateRateLimit_quiet env w s st :
  wp (V2.updateRateLimit env w s) (quiet is_forward st) st.
Proof.
  unfold V2.updateRateLimit, kv_get, kv_put, quiet. run_block. all: sifted.
Qed.

Lemma v2_logAnalytics_quiet env a t st :
  wp (V2.logAnalytics env a t) (quiet is_forward st) st.
Proof. unfold V2.logAnalytics, quiet. run_block. all: sifted. Qed.

Lemma v2_sendWebhookNotification_quiet env st :
  wp (V2.sendWebhookNotification env) (quiet is_forward st) st.
Proof. unfold V2.sendWebhookNotification, quiet. run_block. all: sifted. Qed.

Lemma v2_generateTransactionId_quiet env w st :
  wp (V2.generateTransactionId env w) (quiet is_forward st) st.
Proof. unfold V2.generateTransactionId, quiet. run_block. all: sifted. Qed.

Ltac through_v2 :=
  first [ through v2_checkRateLimit_quiet
        | through v2_updateRateLimit_quiet
        | through v2_logAnalytics_quiet
        | through v2_sendWebhookNotification_quiet
        | through v2_generateTransactionId_quiet ].

(** The calls of [forward] in an invocation of the v2 worker: none, the
    direct forward, the forward of the error handler, or both. *)
Lemma v2_email_forwards env w msg st :
  wp (V2.email env w msg)
     (fun _ st' =>
        ∃ d, view is_forward (trace st') = view is_forward (trace st) ++ d
             ∧ (d = []
                ∨ (∃ ok, d = [EvForward ErrorFallback (Addr V2.MAIN) ok])
                ∨ ∃ t ok,
                    t ∈ [Addr V2.MAIN; NotAddress]
                    ∧ (d = [EvForward Direct t ok]
                       ∨ ∃ ok', d = [EvForward Direct t ok;
                                     EvForward ErrorFallback (Addr V2.MAIN)
                                               ok']))) st.
Proof.
  unfold V2.email.
  destruct (V2.domain_config (recipientDomain msg)) as [dc|] eqn:Hdc.
  2: { unfold forward. repeat first [ wp_step | through_v2 ].
       all: eexists; (split; [settle|]); eauto. }
  pose proof (v2_forwardTo msg dc Hdc) as Ht. revert Ht. cbv zeta.
  generalize (match V2.special_route (recipientLocal msg) with
              | Some t => t
              | None => match dc with
                        | Some c => Addr (V2.defaultForward c)
                        | None => NotAddress
                        end
              end).
  intros t Ht. unfold forward.
  repeat first [ wp_step | through_v2 ].
  all: eexists; (split; [settle|]); eauto 10.
Qed.

Lemma view_cons keep e tr :
  view keep (e :: tr) = if keep e then e :: view keep tr else view keep tr.
Proof.
  unfold view. destruct (keep e) eqn:E.
  - by rewrite filter_cons_True by (by apply Is_true_true).
  - by rewrite filter_cons_False by (by apply Is_true_false).
Qed.

Lemma forwards_view tr : forwards (view is_forward tr) = forwards tr.
Proof.
  induction tr as [|e tr IH]; [done|]. rewrite view_cons.
  unfold forwards in *.
  destruct e; cbn -[view]; by rewrite ?IH.
Qed.

(** X18. In the v2 worker every forward goes to one mailbox: whatever the
    message, each call of [forward] is for the main address (or, for a
    recipient that hits a member inherited from [Object.prototype], for a
    value that is no address), and there are at most two calls, the second
    one by the error handler. *)
Theorem v2_forwards_to_one_mailbox env w msg store :
  let calls := forwards (trace (snd (V2.email env w msg (initial store)))) in
  (length calls <= 2)%nat
  ∧ ∀ call, call ∈ calls → call.1.2 ∈ [Addr V2.MAIN; NotAddress].
Proof.
  pose proof (v2_email_forwards env w msg (initial store)) as (d & Hd & H).
  cbn [initial trace] in Hd. cbn in Hd.
  cbv zeta. rewrite <- forwards_view, Hd.
  assert (Hmain : Addr V2.MAIN ∈ [Addr V2.MAIN; NotAddress])
    by (apply elem_of_cons; by left).
  destruct H as [-> | [[ok ->] | (t & ok & Ht & [-> | [ok' ->]])]]; cbn.
  all: split; [lia|]; intros call Hin.
  all: repeat (apply elem_of_cons in Hin as [-> | Hin]; [done|]).
  all: by apply elem_of_nil in Hin.
Qed.

Lemma v2_forwards_witness :
  (Direct, Addr V2.MAIN, true).1.2 ∈ [Addr V2.MAIN; NotAddress].
Proof.
  apply (proj2 (v2_forwards_to_one_mailbox Sample.v2_env (Sample.world 0)
                  (Sample.message "team@chitty.cc" "hello") ∅)).
  vm_compute. apply elem_of_cons. left. reflexivity.
Defined.

Lemma view_nil keep : view keep [] = [].
Proof. reflexivity. Qed.

Lemma v2_checkRateLimit_passes env w s st :
  let_through w s (rate_store st) →
  kv_get_ok w = true →
  wp (V2.checkRateLimit env w s)
     (fun r st' => r = Ok false ∧ quiet is_forward st r st'
                   ∧ rate_store st' = rate_store st) st.
Proof.
  unfold let_through, V2.checkRateLimit, kv_get, quiet. intros Ha Hget.
  rewrite Hget. run_block.
  all: first [ done
             | split; [first [ reflexivity | f_equal; apply Z.ltb_ge; lia ]
                      | split; [sifted | reflexivity]] ].
Qed.

Lemma v2_updateRateLimit_throws env w s st :
  V2.RATE_LIMITS env = true → kv_put_ok w = false →
  wp (V2.updateRateLimit env w s)
     (fun r st' => r = Throw ∧ quiet is_forward st r st') st.
Proof.
  unfold V2.updateRateLimit, kv_get, kv_put, quiet. intros -> ->.
  run_block. all: split; [reflexivity | sifted].
Qed.

(** X19. The v2 worker has no handler around the rate-limit store. When the
    store does not answer the read, a message for a configured domain skips
    the spam check and the routing: the top-level handler forwards it to the
    main address, spam or not, and nothing is rejected. *)
Theorem v2_store_outage_forwards_unscreened env w msg store dc :
  V2.RATE_LIMITS env = true → kv_get_ok w = false →
  V2.domain_config (recipientDomain msg) = Some dc →
  let tr := trace (snd (V2.email env w msg (initial store))) in
  rejects tr = []
  ∧ forwards tr
    = [(ErrorFallback, Addr V2.MAIN, msg_forward_ok msg 0 (Addr V2.MAIN))].
Proof.
  intros Hrl Hget Hdc.
  unfold V2.email, V2.generateTransactionId, V2.checkRateLimit, kv_get, forward.
  rewrite Hdc, Hrl, Hget.
  unfold bind, try_catch, emit, ret, throw, get_state, initial.
  destruct (Js.truthy (V2.CHITTY_API_KEY env));
    cbn [negb fst snd trace rate_store app].
  all: match goal with
       | |- context [length (@filter _ _ _ ?P ?D ?l)] =>
           change (length (@filter _ _ _ P D l)) with 0%nat
       end.
  all: destruct (msg_forward_ok msg 0 (Addr V2.MAIN)); split; reflexivity.
Qed.

Lemma v2_store_outage_witness :
  let tr := trace (snd (V2.email Sample.v2_env Cases.world_store_down
                          (Sample.message "team@chitty.cc" "You have won")
                          (initial ∅))) in
  rejects tr = []
  ∧ forwards tr = [(ErrorFallback, Addr V2.MAIN, true)].
Proof.
  refine (v2_store_outage_forwards_unscreened Sample.v2_env
            Cases.world_store_down
            (Sample.message "team@chitty.cc" "You have won") ∅
            (Some (V2.Build_DomainConfig V2.MAIN true false)) _ _ _).
  all: vm_compute; reflexivity.
Defined.

(** X20. In the v2 worker a failing counter write delivers twice. For a
    message that is forwarded (configured domain, sender let through, not
    spam), when the store answers reads but not writes, the direct forward is
    followed by the forward of the top-level handler to the main address,
    also when the platform accepted the direct forward. *)
Theorem v2_counter_failure_forwards_twice env w msg store dc :
  V2.RATE_LIMITS env = true → kv_get_ok w = true → kv_put_ok w = false →
  V2.domain_config (recipientDomain msg) = Some dc →
  let_through w (msg_from msg) store →
  V2.isSpam msg = false →
  ∃ t ok,
    forwards (trace (snd (V2.email env w msg (initial store))))
    = [ (Direct, t, ok);
        (ErrorFallback, Addr V2.MAIN, msg_forward_ok msg 1 (Addr V2.MAIN)) ].
Proof.
  intros Hrl Hget Hput Hdc Hadm Hspam.
  rewrite <- forwards_view.
  cut (wp (V2.email env w msg)
          (fun _ st' =>
             ∃ t ok, view is_forward (trace st')
                     = [ EvForward Direct t ok;
                         EvForward ErrorFallback (Addr V2.MAIN)
                           (msg_forward_ok msg 1 (Addr V2.MAIN)) ])
          (initial store)).
  { unfold wp. intros (t & ok & ->). by exists t, ok. }
  unfold V2.email, V2.generateTransactionId, V2.logAnalytics,
         V2.sendWebhookNotification, forward.
  rewrite Hdc, Hspam. cbv zeta.
  repeat wp_step.
  all: (eapply wp_mono; [apply v2_checkRateLimit_passes; [|exact Hget]|];
        [exact Hadm|]).
  all: intros r st1 (-> & V1 & S1).
  all: repeat first [ wp_step
                    | eapply wp_mono;
                      [apply (v2_updateRateLimit_throws _ _ _ _ Hrl Hput)|];
                      intros ? ? [-> ?] ].
  all: unfold quiet in *.
  all: match goal with
       | H : msg_forward_ok _ (length (filter _ (_ ++ [EvLog LogError]))) _
             = _ |- _ => revert H
       end.
  all: repeat match goal with
              | |- context [@filter _ _ _ ?P ?D ?l] =>
                  change (@filter _ _ _ P D l) with (view is_forward l)
              end.
  all: sift;
       repeat match goal with
              | V : view is_forward (trace ?s) = _
                |- context [view is_forward (trace ?s)] => rewrite V; sift
              end.
  all: unfold initial; cbn [trace]; rewrite !view_nil; cbn [app length].
  all: intros <-; eauto.
Qed.

Lemma v2_counter_failure_witness :
  ∃ t ok,
    forwards (trace (snd (V2.email Sample.v2_env Cases.world_read_only
                            (Sample.message "team@chitty.cc" "hello")
                            (initial ∅))))
    = [ (Direct, t, ok); (ErrorFallback, Addr V2.MAIN, true) ].
Proof.
  refine (v2_counter_failure_forwards_twice Sample.v2_env
            Cases.world_read_only (Sample.message "team@chitty.cc" "hello") ∅
            (Some (V2.Build_DomainConfig V2.MAIN true false)) _ _ _ _ _ _).
  all: vm_compute; reflexivity.
Defined.

(** ** Entity lines *)

Lemma includes_char_split c s :
  Js.includes (String c EmptyString) s = true →
  ∃ a b, s = a +:+ String c b ∧ free_of c a = true.
Proof.
  induction s as [|x s IH]; cbn [Js.includes String.prefix].
  - done.
  - destruct (ascii_dec c x) as [<- | Hne].
    + intros _. by exists EmptyString, s.
    + rewrite orb_false_l. intros (a & b & -> & Ha)%IH.
      exists (String x a), b. split; [done|]. cbn [free_of]. rewrite Ha.
      apply andb_true_iff. split; [|done]. apply negb_true_iff.
      apply Ascii.eqb_neq. congruence.
Qed.

Lemma split_go_nonempty sep cur s : ∃ x rest, Js.split_go sep cur s = x :: rest.
Proof.
  revert cur. induction s as [|c s IH]; intros cur; cbn [Js.split_go]; [eauto|].
  destruct (Ascii.eqb c sep); eauto.
Qed.

Lemma colon_line_parses line :
  Js.includes ":" line = true → is_Some (parse_entity line).
Proof.
  intros (a & b & -> & Ha)%includes_char_split.
  unfold parse_entity, Js.split. rewrite (split_go_at _ _ _ _ Ha).
  destruct (split_go_nonempty ":" EmptyString b) as (v & rest & ->). eauto.
Qed.

(** X21. Entity extraction cannot fail on the answer of the model: every
    line that passes the colon filter has a second field, so each of them
    yields an entity and [extractEntities] returns the first five of them. *)
Theorem extractEntities_keeps_every_colon_line run body st response :
  run (entities_prompt body) 100%nat = Some response →
  ∃ ents,
    mapM parse_entity
         (filter (fun line => Is_true (Js.includes ":" line))
                 (Js.split "010" response)) = Some ents
    ∧ fst (extractEntities (Some run) body st) = Ok (take 5 ents).
Proof.
  intros Hrun.
  assert (is_Some (mapM parse_entity
                     (filter (fun line => Is_true (Js.includes ":" line))
                             (Js.split "010" response)))) as [ents He].
  { apply mapM_is_Some, Forall_forall. intros line [Hl _]%list_elem_of_filter.
    apply colon_line_parses. by apply Is_true_true. }
  exists ents. split; [exact He|].
  unfold extractEntities, ai_run, try_catch, bind, emit, ret.
  cbn [fst snd]. by rewrite Hrun, He.
Qed.

Lemma extractEntities_witness :
  ∃ ents,
    mapM parse_entity
         (filter (fun line => Is_true (Js.includes ":" line))
                 (Js.split "010" "date: 10:30")) = Some ents
    ∧ fst (extractEntities (Some (Sample.ai_saying (fun _ => "date: 10:30")))
             "See attached." (initial ∅)) = Ok (take 5 ents).
Proof.
  apply (extractEntities_keeps_every_colon_line
           (Sample.ai_saying (fun _ => "date: 10:30")) "See attached."
           (initial ∅) "date: 10:30").
  reflexivity.
Defined.

(** ** No exception escapes *)

(** X22. The handler never lets an exception escape: whatever fails during
    the invocation (the store, the inference binding, reading the message, a
    router, the platform refusing a forward), [email] returns normally. *)
Theorem email_never_throws env w msg store : fst (run env w msg store) = Ok tt.
Proof.
  unfold run, email. unfold try_catch at 1.
  destruct (bind _ _ (initial store)) as [[[]|] st]; [reflexivity|].
  unfold handler, forward, bind, try_catch, emit, ret, throw, get_state.
  cbn [fst snd trace rate_store].
  by destruct (msg_forward_ok msg _ _).
Qed.

(** ** The outcomes of the calls of [forward] *)

Lemma filter_forward_cons e tr :
  filter is_forward (e :: tr)
  = if is_forward e then e :: filter is_forward tr else filter is_forward tr.
Proof.
  destruct (is_forward e) eqn:E.
  - by rewrite filter_cons_True by (by apply Is_true_true).
  - by rewrite filter_cons_False by (by apply Is_true_false).
Qed.

Lemma forwards_length tr : length (forwards tr) = length (filter is_forward tr).
Proof.
  induction tr as [|e tr IH]; [done|]. rewrite filter_forward_cons.
  unfold forwards in *.
  destruct e; cbn [is_forward]; cbn -[filter]; by rewrite ?IH.
Qed.

Lemma faithful_app msg n tr1 tr2 :
  faithful msg n (tr1 ++ tr2)
  ↔ faithful msg n tr1
    ∧ faithful msg (n + length (filter is_forward tr1)) tr2.
Proof.
  revert n. induction tr1 as [|e tr1 IH]; intros n.
  - cbn. rewrite Nat.add_0_r. tauto.
  - rewrite filter_forward_cons.
    destruct e; cbn [app faithful is_forward length]; rewrite ?IH;
      rewrite ?Nat.add_succ_r; cbn [Nat.add]; tauto.
Qed.

Lemma faithful_decisive msg n tr :
  faithful msg n tr → faithful msg n (decisive tr).
Proof.
  revert n. induction tr as [|e tr IH]; intros n; [done|].
  rewrite decisive_cons.
  destruct e as [[]| | | | | | | | | | | | | |]; cbn; intros H;
    first [ by apply IH | destruct H; split; [done | by apply IH] ].
Qed.

Section Keeps.
Context {A B : Type} (P : State → Prop).

Lemma keeps_ret (a : A) : keeps P (ret a).
Proof. by intros st H. Qed.

Lemma keeps_throw : keeps P (@throw A).
Proof. by intros st H. Qed.

Lemma keeps_bind (m : M A) (k : A → M B) :
  keeps P m → (∀ a, keeps P (k a)) → keeps P (bind m k).
Proof.
  intros Hm Hk st H. apply wp_bind. eapply wp_mono; [by apply Hm|].
  intros [a|] st' H'; [by apply Hk | done].
Qed.

Lemma keeps_try_catch (m h : M A) :
  keeps P m → keeps P h → keeps P (try_catch m h).
Proof.
  intros Hm Hh st H. apply wp_try_catch. eapply wp_mono; [by apply Hm|].
  intros [a|] st' H'; [done | by apply Hh].
Qed.
End Keeps.

Lemma keeps_get_state P : keeps P get_state.
Proof. by intros st H. Qed.

Lemma honest_emit msg e : is_forward e = false → keeps (honest msg) (emit e).
Proof.
  intros He st H. unfold wp, emit, honest in *. cbn [fst snd trace].
  apply faithful_app. split; [exact H|]. by destruct e.
Qed.

Lemma honest_set_store msg s : keeps (honest msg) (set_store s).
Proof. by intros st H. Qed.

Lemma honest_forward msg site t : keeps (honest msg) (forward msg site t).
Proof.
  intros st H. unfold forward, wp, bind, get_state, emit, honest in *.
  cbn [fst snd]. set (ok := msg_forward_ok msg _ t).
  assert (faithful msg 0 (trace st ++ [EvForward site t ok])) as H'.
  { apply faithful_app. split; [exact H|]. by split. }
  by destruct ok.
Qed.

(** One step through a computation that keeps the forwards faithful. *)
Ltac honest_step :=
  lazymatch goal with
  | |- keeps _ (bind _ _) => apply keeps_bind; [|intros ?]
  | |- keeps _ (try_catch _ _) => apply keeps_try_catch
  | |- keeps _ (ret _) => apply keeps_ret
  | |- keeps _ throw => apply keeps_throw
  | |- keeps _ get_state => apply keeps_get_state
  | |- keeps _ (emit _) => apply honest_emit; reflexivity
  | |- keeps _ (setReject _) => apply honest_emit; reflexivity
  | |- keeps _ (set_store _) => apply honest_set_store
  | |- keeps _ (forward _ _ _) => apply honest_forward
  | |- keeps _ (if ?c then _ else _) => destruct c
  | |- keeps _ (match ?c with _ => _ end) => destruct c
  end.

Lemma honest_checkRateLimit msg env w s : keeps (honest msg) (checkRateLimit env w s).
Proof. unfold checkRateLimit, kv_get. repeat honest_step. Qed.

Lemma honest_updateRateLimit msg env w s :
  keeps (honest msg) (updateRateLimit env w s).
Proof. unfold updateRateLimit, kv_get, kv_put. repeat honest_step. Qed.

Lemma honest_aiProcessing msg env : keeps (honest msg) (aiProcessing env msg).
Proof.
  unfold aiProcessing, classifyEmail, analyzeSentiment, checkUrgency,
         extractEntities, ai_run.
  cbv zeta. repeat honest_step.
Qed.

Lemma honest_sendToEvidenceRouter msg env w ai ws :
  keeps (honest msg) (sendToEvidenceRouter env w msg ai ws).
Proof. unfold sendToEvidenceRouter. cbv zeta. repeat honest_step. Qed.

Lemma honest_handler msg : keeps (honest msg) (handler msg).
Proof. unfold handler. repeat honest_step. Qed.

Lemma honest_routeAndDeliver msg env w ai :
  keeps (honest msg) (routeAndDeliver env w msg ai).
Proof.
  unfold routeAndDeliver, localPartRouting, workstreamBranch, smartRouting,
         handleFinancialEmail, deliver.
  cbv zeta.
  repeat first [ honest_step
               | apply honest_sendToEvidenceRouter
               | apply honest_updateRateLimit ].
Qed.

Lemma honest_email msg env w : keeps (honest msg) (email env w msg).
Proof.
  unfold email.
  repeat first [ honest_step
               | apply honest_checkRateLimit
               | apply honest_aiProcessing
               | apply honest_routeAndDeliver
               | apply honest_handler ].
Qed.

(** In every invocation the outcome of a call of [forward] is the one that
    the platform gives to that call. *)
Lemma run_faithful env w msg store :
  faithful msg 0 (decisive (run_trace env w msg store)).
Proof.
  apply faithful_decisive. by apply (honest_email msg env w (initial store)).
Qed.


Lemma fallback_exact env w msg store ws :
  (ws, false) ∈ dispatch_outcomes (run_trace env w msg store) →
  decisive (run_trace env w msg store) = fallback_of msg ws.
Proof.
  pose proof (run_faithful env w msg store) as F.
  destruct (run_outcome env w msg store) as [Ho _]. revert Ho F.
  rewrite <- dispatch_outcomes_decisive. unfold fallback_of.
  inversion 1; cbn; intros F Hin.
  all: repeat (apply elem_of_cons in Hin as [Hin|Hin]; [simplify_eq|]).
  all: try by apply elem_of_nil in Hin.
  - destruct F as [<- _]. reflexivity.
  - destruct F as [<- [-> _]]. reflexivity.
Qed.

(** ** The dispatch fallback *)

(** C7 fails as stated: when the submission fails and the platform refuses
    both the fallback forward to management and the forward of the error
    handler, the message is neither dispatched nor forwarded. *)
Lemma failed_dispatch_and_refused_forwards :
  dispatch_outcomes
    (run_trace (Sample.env_ai Sample.urgent_invoice) Sample.world_down
       (Sample.refused "billing@chitty.cc") ∅)
  = [("finance", false)]
  ∧ forwards
      (run_trace (Sample.env_ai Sample.urgent_invoice) Sample.world_down
         (Sample.refused "billing@chitty.cc") ∅)
    = [ (DispatchFallback, Addr MGMT_FORWARD, false);
        (ErrorFallback, Addr SAFE_DEFAULT, false) ]
  ∧ rejects
      (run_trace (Sample.env_ai Sample.urgent_invoice) Sample.world_down
         (Sample.refused "billing@chitty.cc") ∅)
    = [].
Proof. vm_compute. done. Qed.

(** C7, amended. Whenever the submission of [sendToEvidenceRouter] fails (the
    raw message cannot be read, no router URL is configured, the transport
    fails or the router answers with a non-success status), the dispatcher
    logs the failure and calls [forward] with the management address, exactly
    once; the outcome of that call is the one that the platform gives it, the
    dispatcher completes normally when the platform accepts it and throws
    when the platform refuses it. In a whole invocation with a failed
    submission the message is forwarded to management exactly when the
    platform accepts that first call of [forward]; when it refuses, the
    top-level handler calls [forward] with the safe default, and nothing else
    decides what happens to the message: if the platform refuses this second
    call as well, the message is neither dispatched nor forwarded. *)
Theorem dispatch_failure_forwards_to_management :
  (∀ env w msg ai ws st,
     submission_fails env w msg ws →
     let r := fst (sendToEvidenceRouter env w msg ai ws st) in
     let st' := snd (sendToEvidenceRouter env w msg ai ws st) in
     let ok :=
       msg_forward_ok msg (length (forwards (trace st))) (Addr MGMT_FORWARD) in
     forwards (trace st')
     = forwards (trace st) ++ [(DispatchFallback, Addr MGMT_FORWARD, ok)]
     ∧ dispatch_outcomes (trace st')
       = dispatch_outcomes (trace st) ++ [(ws, false)]
     ∧ r = (if ok then Ok tt else Throw)
     ∧ rate_store st' = rate_store st)
  ∧ (∀ env w msg store ws,
       (ws, false) ∈ dispatch_outcomes (run_trace env w msg store) →
       decisive (run_trace env w msg store)
       = EvLog (LogRouterFailed ws)
         :: EvForward DispatchFallback (Addr MGMT_FORWARD)
                      (msg_forward_ok msg 0 (Addr MGMT_FORWARD))
         :: (if msg_forward_ok msg 0 (Addr MGMT_FORWARD) then []
             else [EvForward ErrorFallback (Addr SAFE_DEFAULT)
                             (msg_forward_ok msg 1 (Addr SAFE_DEFAULT))])).
Proof.
  split; [|exact fallback_exact].
  intros env w msg ai ws st Hfail. cbv zeta. rewrite forwards_length.
  change (wp (sendToEvidenceRouter env w msg ai ws)
            (fun r st' =>
               forwards (trace st')
               = forwards (trace st)
                 ++ [(DispatchFallback, Addr MGMT_FORWARD,
                      msg_forward_ok msg
                        (length (view is_forward (trace st)))
                        (Addr MGMT_FORWARD))]
               ∧ dispatch_outcomes (trace st')
                 = dispatch_outcomes (trace st) ++ [(ws, false)]
               ∧ r = (if msg_forward_ok msg
                           (length (view is_forward (trace st)))
                           (Addr MGMT_FORWARD)
                      then Ok tt else Throw)
               ∧ rate_store st' = rate_store st) st).
  unfold sendToEvidenceRouter, submission_fails in *.
  repeat first [ wp_step
               | apply wp_forward; cbv zeta; sift;
                 destruct (msg_forward_ok msg
                             (length (view is_forward (trace st)))
                             (Addr MGMT_FORWARD)); lazy beta iota ].
  all: repeat match goal with E : _ = _ |- _ => rewrite E in Hfail end.
  all: try (exfalso; destruct Hfail; done).
  all: cbn [trace rate_store];
       rewrite !forwards_app, !dispatch_outcomes_app; cbn.
  all: rewrite !app_nil_r; done.
Qed.

Lemma dispatch_failure_witness :
  (forwards (trace (snd (sendToEvidenceRouter
                           (Sample.env_ai Sample.urgent_invoice)
                           Sample.world_down
                           (Sample.message "billing@chitty.cc" "invoice")
                           None "finance" (initial ∅))))
   = [(DispatchFallback, Addr MGMT_FORWARD, true)]
   ∧ dispatch_outcomes
       (trace (snd (sendToEvidenceRouter
                      (Sample.env_ai Sample.urgent_invoice)
                      Sample.world_down
                      (Sample.message "billing@chitty.cc" "invoice")
                      None "finance" (initial ∅))))
     = [("finance", false)]
   ∧ fst (sendToEvidenceRouter (Sample.env_ai Sample.urgent_invoice)
            Sample.world_down
            (Sample.message "billing@chitty.cc" "invoice")
            None "finance" (initial ∅))
     = Ok tt
   ∧ rate_store (snd (sendToEvidenceRouter
                        (Sample.env_ai Sample.urgent_invoice)
                        Sample.world_down
                        (Sample.message "billing@chitty.cc" "invoice")
                        None "finance" (initial ∅)))
     = ∅)
  ∧ decisive (run_trace (Sample.env_ai Sample.urgent_invoice)
                Sample.world_down (Sample.refused "billing@chitty.cc") ∅)
    = [ EvLog (LogRouterFailed "finance");
        EvForward DispatchFallback (Addr MGMT_FORWARD) false;
        EvForward ErrorFallback (Addr SAFE_DEFAULT) false ].
Proof.
  split.
  - refine (proj1 dispatch_failure_forwards_to_management
              (Sample.env_ai Sample.urgent_invoice) Sample.world_down
              (Sample.message "billing@chitty.cc" "invoice") None "finance"
              (initial ∅) _).
    right. vm_compute. discriminate.
  - refine (proj2 dispatch_failure_forwards_to_management
              (Sample.env_ai Sample.urgent_invoice) Sample.world_down
              (Sample.refused "billing@chitty.cc") ∅ "finance" _).
    vm_compute. apply elem_of_cons. left. reflexivity.
Defined.

(** ** The fallback of the analyses *)

(** C6. When every call of the inference binding fails, the four analyses
    give category [general], sentiment [neutral] and no entities; the urgency
    is [high] when one of the nine urgency keywords occurs in the lower-cased
    text made of the subject, a space and the body. When none of them occurs
    there, [checkUrgency] answers [normal] and leaves the state as it is, so
    it sends no prompt, whatever the binding is and whether it fails or
    not. *)
Theorem classification_fallback (run : ai_binding) subject body st :
  (∀ prompt max_tokens, run prompt max_tokens = None) →
  fst (classifyEmail (Some run) subject body st) = Ok "general"
  ∧ fst (analyzeSentiment (Some run) body st) = Ok "neutral"
  ∧ fst (extractEntities (Some run) body st) = Ok []
  ∧ (∀ keyword,
       keyword ∈ [ "urgent"; "asap"; "emergency"; "critical"; "immediately";
                   "deadline"; "expire"; "final notice"; "action required" ] →
       Js.includes keyword (Js.toLowerCase (subject +:+ " " +:+ body)) = true →
       fst (checkUrgency (Some run) subject body st) = Ok "high")
  ∧ ((∀ keyword,
        keyword ∈ [ "urgent"; "asap"; "emergency"; "critical"; "immediately";
                    "deadline"; "expire"; "final notice"; "action required" ] →
        Js.includes keyword (Js.toLowerCase (subject +:+ " " +:+ body))
        = false) →
     ∀ ai, checkUrgency ai subject body st = (Ok "normal", st)).
Proof.
  intros Hdown.
  split; [|split; [|split; [|split]]].
  - unfold classifyEmail, ai_run, bind, try_catch, emit, ret, throw.
    cbn [fst snd]. by rewrite Hdown.
  - unfold analyzeSentiment, ai_run, bind, try_catch, emit, ret, throw.
    cbn [fst snd]. by rewrite Hdown.
  - unfold extractEntities, ai_run, bind, try_catch, emit, ret, throw.
    cbn [fst snd]. by rewrite Hdown.
  - intros keyword Hin Hocc.
    assert (hasUrgentKeyword subject body = true) as Hk.
    { unfold hasUrgentKeyword. apply existsb_exists. exists keyword.
      split; [by apply list_elem_of_In | exact Hocc]. }
    unfold checkUrgency, ai_run, bind, try_catch, emit, ret, throw.
    rewrite Hk. cbn [negb fst snd]. by rewrite Hdown.
  - intros Hnone ai.
    assert (hasUrgentKeyword subject body = false) as Hk.
    { destruct (hasUrgentKeyword subject body) eqn:E; [|done].
      unfold hasUrgentKeyword in E.
      apply existsb_exists in E as (keyword & Hin%list_elem_of_In & Hocc).
      by rewrite (Hnone keyword Hin) in Hocc. }
    unfold checkUrgency. rewrite Hk. by destruct ai.
Qed.

Lemma classification_fallback_witness :
  (fst (classifyEmail (Some Sample.ai_down) "Final notice" "Pay today."
          (initial ∅)) = Ok "general"
   ∧ fst (analyzeSentiment (Some Sample.ai_down) "Pay today." (initial ∅))
     = Ok "neutral"
   ∧ fst (extractEntities (Some Sample.ai_down) "Pay today." (initial ∅))
     = Ok []
   ∧ fst (checkUrgency (Some Sample.ai_down) "Final notice" "Pay today."
            (initial ∅)) = Ok "high")
  ∧ checkUrgency (Some (Sample.ai_saying (fun _ => "critical")))
      "Lunch on Friday" "See you there." (initial ∅)
    = (Ok "normal", initial ∅).
Proof.
  split.
  - destruct (classification_fallback Sample.ai_down "Final notice"
                "Pay today." (initial ∅) (fun _ _ => eq_refl))
      as (Hc & Hs & He & Hhigh & _).
    split; [exact Hc | split; [exact Hs | split; [exact He|]]].
    apply (Hhigh "final notice"); [|reflexivity].
    do 7 (apply elem_of_cons; right). apply elem_of_cons. left. reflexivity.
  - apply (proj2 (proj2 (proj2 (proj2
             (classification_fallback Sample.ai_down "Lunch on Friday"
                "See you there." (initial ∅) (fun _ _ => eq_refl)))))).
    intros keyword Hin.
    repeat (apply elem_of_cons in Hin as [-> | Hin]; [reflexivity|]).
    by apply elem_of_nil in Hin.
Defined.

(** ** Unconfigured domains *)



